(** * withSentry.ts: request-scoped transaction lifecycle of the Next.js SDK

    A shallow embedding of [packages/nextjs/src/utils/withSentry.ts]:
    the API-route wrapper [withSentry], the response-close wrapper
    [wrapEndMethod], [finishSentryProcessing], the process-wide transaction
    stash, and the page wrappers [withSentry_app], [withSentryGSSP] and
    [withSentryGSP].

    The code is effectful JavaScript.  It is embedded with explicit state
    passing: a [World] holds the heap of span objects, the global stash,
    the clock, the queue of pending [setImmediate] callbacks and the trace
    of observable calls; a computation is a function
    [World -> Result A * World], where the result is a value or a thrown
    JavaScript value.  Closures stored in fields ([res.end]) are
    defunctionalised. *)

From Stdlib Require Import String Ascii List Bool Arith Lia.
From stdpp Require Import base option list gmap strings pretty.
Import ListNotations.
Local Open Scope string_scope.

(** ** JavaScript values *)

(** Index of an object in the heap of span objects. *)
Abbreviation ref := nat.

(** The values the wrappers see: primitives, plain objects (by identity),
    the wrapper objects [new String(..)], [new Number(..)],
    [new Boolean(..)] of primitives, and the [TypeError] that the engine
    throws when a value that is not a function is called. *)
Inductive Prim : Type :=
| PUndefined
| PNull
| PBool (b : bool)
| PNum (n : nat)
| PStr (s : string).

Inductive JsValue : Type :=
| VPrim (p : Prim)
| VObject (id : nat)
| VWrapper (p : Prim)
| VTypeError (message : string).

#[global] Instance Prim_eq_dec : EqDecision Prim.
Proof. solve_decision. Defined.

#[global] Instance JsValue_eq_dec : EqDecision JsValue.
Proof. solve_decision. Defined.

(** ** Strings *)

Module Str.

(** [s.startsWith(p)]. *)
Fixpoint startsWith (p s : string) : bool :=
  match p, s with
  | EmptyString, _ => true
  | String a p', String b s' => if Ascii.eqb a b then startsWith p' s' else false
  | String _ _, EmptyString => false
  end.

Fixpoint drop (n : nat) (s : string) : string :=
  match n, s with
  | O, _ => s
  | S n', String _ s' => drop n' s'
  | S _, EmptyString => EmptyString
  end.

(** [s.endsWith(suf)]. *)
Definition endsWith (suf s : string) : bool :=
  Nat.leb (String.length suf) (String.length s)
  && String.eqb (drop (String.length s - String.length suf) s) suf.

(** First occurrence of [pat] in [s]: the text before it and the text
    after it.  The empty pattern occurs at position 0. *)
Fixpoint splitFirst (pat s : string) : option (string * string) :=
  if startsWith pat s then Some (EmptyString, drop (String.length pat) s)
  else match s with
       | EmptyString => None
       | String c s' =>
           match splitFirst pat s' with
           | Some (b, a) => Some (String c b, a)
           | None => None
           end
       end.

(** GetSubstitution of ECMAScript for a string pattern (no captures):
    [$$], [$&], [$`] and [$'] are expanded in the replacement text, any
    other [$] stays as it is. *)
Fixpoint getSubstitution (matched before after repl : string) : string :=
  match repl with
  | EmptyString => EmptyString
  | String c rest =>
      if Ascii.eqb c "$"%char then
        match rest with
        | String d rest' =>
            if Ascii.eqb d "$"%char then String "$"%char (getSubstitution matched before after rest')
            else if Ascii.eqb d "&"%char then matched ++ getSubstitution matched before after rest'
            else if Ascii.eqb d "`"%char then before ++ getSubstitution matched before after rest'
            else if Ascii.eqb d "'"%char then after ++ getSubstitution matched before after rest'
            else String c (getSubstitution matched before after rest)
        | EmptyString => String c EmptyString
        end
      else String c (getSubstitution matched before after rest)
  end.

(** [s.replace(pat, repl)] with a string pattern: the first occurrence
    only. *)
Definition replace (pat repl s : string) : string :=
  match splitFirst pat s with
  | Some (b, a) => b ++ getSubstitution pat b a repl ++ a
  | None => s
  end.

Definition upperChar (c : ascii) : ascii :=
  let n := nat_of_ascii c in
  if Nat.leb 97 n && Nat.leb n 122 then ascii_of_nat (n - 32) else c.

(** [s.toUpperCase()] on ASCII text (HTTP methods are ASCII tokens). *)
Fixpoint toUpperCase (s : string) : string :=
  match s with
  | EmptyString => EmptyString
  | String c s' => String (upperChar c) (toUpperCase s')
  end.

(** [xs.join(sep)]. *)
Fixpoint join (sep : string) (xs : list string) : string :=
  match xs with
  | [] => EmptyString
  | [x] => x
  | x :: rest => x ++ sep ++ join sep rest
  end.

End Str.

(** Modelled from the spec: [stripUrlQueryAndFragment] of [@sentry/utils] is
    imported, its body is not part of this file; the spec says the query
    string is stripped from the request path.  The text up to the first
    [?] or [#] is kept. *)
Fixpoint stripUrlQueryAndFragment (urlPath : string) : string :=
  match urlPath with
  | EmptyString => EmptyString
  | String c rest =>
      if Ascii.eqb c "?"%char || Ascii.eqb c "#"%char then EmptyString
      else String c (stripUrlQueryAndFragment rest)
  end.

(** ** Span objects, the environment and the world *)

(** A transaction or a child span, as the SDK keeps it.  [parentSpan] is
    [None] for a transaction. *)
Record SpanObj : Type := mkSpan {
  spanId : string;
  name : string;
  op : option string;
  source : option string;
  parentSpan : option ref;
  startTimestamp : nat;
  endTimestamp : option nat;
  httpStatus : option nat
}.

#[global] Instance SpanObj_inhabited : Inhabited SpanObj :=
  populate (mkSpan "" "" None None None 0 None None).

(** [res.end]: the native method of the framework, or the closure
    [newEnd] that [wrapEndMethod] builds around an earlier method. *)
Inductive EndMethod : Type :=
| NativeEnd
| NewEnd (origEnd : EndMethod).

(** The fields of the outgoing response that the wrapper touches. *)
Record Response : Type := mkResponse {
  statusCode : nat;
  statusMessage : string;
  sentryTransaction : option ref;   (* res.__sentryTransaction *)
  endMethod : EndMethod             (* res.end *)
}.

(** What a call of [flush(timeout)] does: the promise resolves ([false]
    when the timeout was hit) or rejects. *)
Inductive FlushOutcome : Type :=
| FlushResolved (sent : bool)
| FlushRejected (e : JsValue).

(** Callbacks that other code has queued with [setImmediate] and that are
    still pending. *)
Inductive Task : Type :=
| TaskFinishSpan (r : ref)
| TaskOther (label : string).

(** Calls that can be observed from outside the wrappers, in the order in
    which they happen. *)
Inductive Event : Type :=
| EvConsoleLog (msg : string)
| EvConsoleWarn
| EvLoggerLog (msg : string)
| EvLoggerLogWith (msg : string) (e : JsValue)
| EvAddRequestDataProcessor
| EvAddMechanismProcessor
| EvCaptureException (e : JsValue)
| EvStartTransaction (r : ref) (nm : string) (o : option string)
                     (trace_header baggage_header : option string)
| EvSetSpan (r : ref)
| EvSetName (r : ref) (nm src : string)
| EvStartChild (parent child : ref) (o : string)
| EvSetHttpStatus (r : ref) (code : nat)
| EvFinish (r : ref)
| EvImmediate
| EvTask (label : string)
| EvFlush (timeout : nat)
| EvSetStatus (code : nat) (message : string)
| EvCallOrig
| EvOrigEnd (args : list JsValue).

#[global] Instance Event_eq_dec : EqDecision Event.
Proof. solve_decision. Defined.

(** What the code reads from its surroundings and does not change. *)
Record Env : Type := mkEnv {
  tracingEnabled : bool;              (* hasTracingEnabled() *)
  isBuild : bool;                     (* isBuild() *)
  debugBuild : bool;                  (* __DEBUG_BUILD__ *)
  hasScope : bool;                    (* getCurrentHub().getScope() is defined *)
  devWarning : bool;                  (* NODE_ENV is development and the warning is not silenced *)
  newSpanId : nat -> string;          (* the id given to the n-th span object *)
  flushOutcome : nat -> FlushOutcome  (* what the n-th call of flush does *)
}.

(** The process state together with the response of the request at hand:
    the functions of the source that take [res] (or [this]) work on the
    field [res]. *)
Record World : Type := mkWorld {
  heap : list SpanObj;
  stash : option (gmap string ref);   (* global.__sentryTransactions__ *)
  stashUndefined : option string;     (* an inherited value kept under [undefined] *)
  clock : nat;
  immediates : list Task;
  flushes : nat;
  res : Response;
  trace : list Event
}.

Definition setHeap (h : list SpanObj) (w : World) : World :=
  mkWorld h (stash w) (stashUndefined w) (clock w) (immediates w) (flushes w)
    (res w) (trace w).
Definition setStash (s : option (gmap string ref)) (w : World) : World :=
  mkWorld (heap w) s (stashUndefined w) (clock w) (immediates w) (flushes w)
    (res w) (trace w).
Definition setStashUndefined (u : option string) (w : World) : World :=
  mkWorld (heap w) (stash w) u (clock w) (immediates w) (flushes w)
    (res w) (trace w).
Definition setClock (c : nat) (w : World) : World :=
  mkWorld (heap w) (stash w) (stashUndefined w) c (immediates w) (flushes w)
    (res w) (trace w).
Definition setImmediates (q : list Task) (w : World) : World :=
  mkWorld (heap w) (stash w) (stashUndefined w) (clock w) q (flushes w)
    (res w) (trace w).
Definition setFlushes (n : nat) (w : World) : World :=
  mkWorld (heap w) (stash w) (stashUndefined w) (clock w) (immediates w) n
    (res w) (trace w).
Definition setRes (r : Response) (w : World) : World :=
  mkWorld (heap w) (stash w) (stashUndefined w) (clock w) (immediates w)
    (flushes w) r (trace w).
Definition setTrace (t : list Event) (w : World) : World :=
  mkWorld (heap w) (stash w) (stashUndefined w) (clock w) (immediates w)
    (flushes w) (res w) t.

(** ** The monad of computations *)

Inductive Result (A : Type) : Type :=
| Ok (a : A)
| Throw (e : JsValue).
Arguments Ok {A} a.
Arguments Throw {A} e.

Definition M (A : Type) : Type := World -> Result A * World.

Definition ret {A} (a : A) : M A := fun w => (Ok a, w).

Definition throw {A} (e : JsValue) : M A := fun w => (Throw e, w).

Definition bind {A B} (m : M A) (k : A -> M B) : M B :=
  fun w => match m w with
           | (Ok a, w') => k a w'
           | (Throw e, w') => (Throw e, w')
           end.

(** [try { body } catch (e) { handler }]. *)
Definition tryCatch {A} (body : M A) (handler : JsValue -> M A) : M A :=
  fun w => match body w with
           | (Ok a, w') => (Ok a, w')
           | (Throw e, w') => handler e w'
           end.

(** A settled promise as a value of the monad. *)
Definition liftResult {A} (r : Result A) : M A :=
  match r with
  | Ok a => ret a
  | Throw e => throw e
  end.

Notation "x <- c1 ;; c2" := (bind c1 (fun x => c2))
  (at level 100, c1 at next level, c2 at level 200, right associativity).
Notation "c1 ;; c2" := (bind c1 (fun _ => c2))
  (at level 100, c2 at level 200, right associativity).

Definition emit (e : Event) : M unit :=
  fun w => (Ok tt, setTrace (trace w ++ [e]) w).

Definition when (b : bool) (m : M unit) : M unit :=
  if b then m else ret tt.

(** ** Requests and user code *)

(** A value of [req.query]: a string, or an array of strings for a
    catch-all segment. *)
Inductive QueryValue : Type :=
| QString (s : string)
| QArray (xs : list string).

(** The template literal [`${value}`]. *)
Definition queryValueText (v : QueryValue) : string :=
  match v with
  | QString s => s
  | QArray xs => Str.join "," xs
  end.

(** The fields of the incoming request that the wrapper reads.  [query]
    lists the entries in the order of [Object.entries(req.query)];
    [sentryTrace] and [baggage] are the headers of these names when
    [req.headers] exists and the header is a string. *)
Record Request : Type := mkRequest {
  url : option string;
  method : option string;
  query : option (list (string * QueryValue));
  sentryTrace : option string;
  baggage : option string
}.

(** What a call of the user's API handler does: it may set the status of
    the response, and its promise resolves or rejects.  A call of
    [res.end] is a run of its own (see [resEnd]), whoever makes it. *)
Record HandlerRun : Type := mkHandlerRun {
  hStatus : option (nat * string);
  hOutcome : Result JsValue
}.

Definition Handler : Type := Request -> Response -> HandlerRun.

(** Modelled from the spec: [objectify] of [@sentry/utils] is imported, its
    body is not part of this file; the spec says the thrown value is
    normalized to an object-wrapped form, and the comment at its call says
    a primitive is wrapped in the equivalent wrapper class.  An object is
    returned as it is. *)
Definition objectify (e : JsValue) : JsValue :=
  match e with
  | VPrim p => VWrapper p
  | VObject id => VObject id
  | VWrapper p => VWrapper p
  | VTypeError message => VTypeError message
  end.

(** The text ['Error while flushing events:\n']. *)
Definition flushErrorMessage : string :=
  "Error while flushing events:" ++ String (ascii_of_nat 10) "".

Section WithEnv.

Context (env : Env).

Definition debugLog (msg : string) : M unit :=
  when (debugBuild env) (emit (EvLoggerLog msg)).

(** [__DEBUG_BUILD__ && logger.log(msg, e)]. *)
Definition debugLogWith (msg : string) (e : JsValue) : M unit :=
  when (debugBuild env) (emit (EvLoggerLogWith msg e)).

(** *** The SDK's span objects *)

Definition tick : M nat :=
  fun w => (Ok (clock w), setClock (S (clock w)) w).

Definition alloc (o : SpanObj) : M ref :=
  fun w => (Ok (length (heap w)), setHeap (heap w ++ [o]) w).

Definition readSpan (r : ref) : M SpanObj :=
  fun w => (Ok (heap w !!! r), w).

Definition updateSpan (f : SpanObj -> SpanObj) (r : ref) : M unit :=
  fun w => (Ok tt, setHeap (alter f r (heap w)) w).

(** Modelled from the spec: [startTransaction] of the SDK is imported; the
    spec says a transaction has a unique identifier, a name, an operation
    tag, a start time and no finish time until it is finished. *)
Definition startTransaction (nm : string) (o src : option string)
    (th bh : option string) : M ref :=
  now <- tick ;;
  r <- (fun w => alloc (mkSpan (newSpanId env (length (heap w))) nm o src
                          None now None None) w) ;;
  emit (EvStartTransaction r nm o th bh) ;;
  ret r.

(** Modelled from the spec: [startChild] of the SDK is imported; the spec
    says it starts a timed child span under the transaction. *)
Definition startChild (parent : ref) (o : string) : M ref :=
  now <- tick ;;
  r <- (fun w => alloc (mkSpan (newSpanId env (length (heap w))) ""
                          (Some o) None (Some parent) now None None) w) ;;
  emit (EvStartChild parent r o) ;;
  ret r.

Definition withName (nm src : string) (o : SpanObj) : SpanObj :=
  mkSpan (spanId o) nm (op o) (Some src) (parentSpan o)
    (startTimestamp o) (endTimestamp o) (httpStatus o).

Definition withHttpStatus (code : nat) (o : SpanObj) : SpanObj :=
  mkSpan (spanId o) (name o) (op o) (source o) (parentSpan o)
    (startTimestamp o) (endTimestamp o) (Some code).

Definition withFinish (now : nat) (o : SpanObj) : SpanObj :=
  match endTimestamp o with
  | Some _ => o
  | None => mkSpan (spanId o) (name o) (op o) (source o) (parentSpan o)
              (startTimestamp o) (Some now) (httpStatus o)
  end.

(** Modelled from the spec: [setName] of the SDK is imported; the spec
    says the name is mutable and the latest name wins. *)
Definition setName (r : ref) (nm src : string) : M unit :=
  updateSpan (withName nm src) r ;;
  emit (EvSetName r nm src).

(** Modelled from the spec: [setHttpStatus] of the SDK is imported; the
    spec says a transaction records a status code. *)
Definition setHttpStatus (r : ref) (code : nat) : M unit :=
  updateSpan (withHttpStatus code) r ;;
  emit (EvSetHttpStatus r code).

(** Modelled from the spec: [finish] of the SDK is imported; the spec says
    it marks the finish time and that a second call is a no-op.  The call
    itself is recorded each time. *)
Definition finish (r : ref) : M unit :=
  now <- tick ;;
  updateSpan (withFinish now) r ;;
  emit (EvFinish r).

(** Modelled from the spec: [flush] of the SDK is imported; the spec says
    it takes a timeout in milliseconds and reports success or failure. *)
Definition flush (timeout : nat) : M bool :=
  fun w =>
    let w' := setFlushes (S (flushes w)) (setTrace (trace w ++ [EvFlush timeout]) w) in
    match flushOutcome env (flushes w) with
    | FlushResolved sent => (Ok sent, w')
    | FlushRejected e => (Throw e, w')
    end.

(** *** The event loop *)

Definition runTask (t : Task) : M unit :=
  match t with
  | TaskFinishSpan r => finish r
  | TaskOther label => emit (EvTask label)
  end.

Fixpoint runTasks (ts : list Task) : M unit :=
  match ts with
  | [] => ret tt
  | t :: rest => runTask t ;; runTasks rest
  end.

(** [await new Promise(resolve => setImmediate(() => { cb(); resolve() }))]:
    the callback is queued behind the immediates that are pending, these
    run first, then the callback, then the caller goes on. *)
Definition awaitImmediate (cb : M unit) : M unit :=
  pending <- (fun w => (Ok (immediates w), setImmediates [] w)) ;;
  runTasks pending ;;
  emit EvImmediate ;;
  cb.

(** *** finishSentryProcessing, wrapEndMethod *)

(** [finishSentryProcessing(res)]. *)
Definition finishSentryProcessing : M unit :=
  transaction <- (fun w => (Ok (sentryTransaction (res w)), w)) ;;
  match transaction with
  | Some transaction =>
      code <- (fun w => (Ok (statusCode (res w)), w)) ;;
      setHttpStatus transaction code ;;
      awaitImmediate (finish transaction)
  | None => ret tt
  end ;;
  tryCatch
    (debugLog "Flushing events..." ;;
     flush 2000 ;;
     debugLog "Done flushing events")
    (fun e => debugLogWith flushErrorMessage e).

(** [wrapEndMethod(origEnd)]. *)
Definition wrapEndMethod (origEnd : EndMethod) : EndMethod := NewEnd origEnd.

(** Calling a method stored in [res.end] with [this] the response:
    the native one closes the response, [newEnd] awaits
    [finishSentryProcessing(this)] and then calls [origEnd]. *)
Fixpoint callEnd (m : EndMethod) (args : list JsValue) : M JsValue :=
  match m with
  | NativeEnd => emit (EvOrigEnd args) ;; ret (VPrim PUndefined)
  | NewEnd origEnd => finishSentryProcessing ;; callEnd origEnd args
  end.

(** [res.end(...args)]. *)
Definition resEnd (args : list JsValue) : M JsValue :=
  fun w => callEnd (endMethod (res w)) args w.

(** *** withSentry *)

Definition setEndMethod (m : EndMethod) (r : Response) : Response :=
  mkResponse (statusCode r) (statusMessage r) (sentryTransaction r) m.

Definition setSentryTransaction (t : option ref) (r : Response) : Response :=
  mkResponse (statusCode r) (statusMessage r) t (endMethod r).

Definition setStatusFields (code : nat) (msg : string) (r : Response) : Response :=
  mkResponse code msg (sentryTransaction r) (endMethod r).

Definition modifyRes (f : Response -> Response) : M unit :=
  fun w => (Ok tt, setRes (f (res w)) w).

(** [res.statusCode = code; res.statusMessage = msg]. *)
Definition setStatus (code : nat) (msg : string) : M unit :=
  modifyRes (setStatusFields code msg) ;;
  emit (EvSetStatus code msg).

(** [await origHandler(req, res)]. *)
Definition callHandler (origHandler : Handler) (req : Request) : M JsValue :=
  fun w =>
    let run := origHandler req (res w) in
    (emit EvCallOrig ;;
     match hStatus run with
     | Some (code, msg) => setStatus code msg
     | None => ret tt
     end ;;
     liftResult (hOutcome run)) w.

Section Naming.

(** The imported [stripUrlQueryAndFragment]. *)
Context (strip : string -> string).

(** The loop over [Object.entries(req.query)]. *)
Fixpoint replaceParams (entries : list (string * QueryValue)) (reqPath : string) : string :=
  match entries with
  | [] => reqPath
  | (key, value) :: rest =>
      replaceParams rest
        (Str.replace (queryValueText value) ("[" ++ key ++ "]") reqPath)
  end.

Definition reqPathOf (req : Request) : string :=
  let url := match url req with Some u => u | None => "undefined" end in
  let reqPath := strip url in
  match query req with
  | Some entries => replaceParams entries reqPath
  | None => reqPath
  end.

(** [(req.method || 'GET').toUpperCase()] followed by a blank. *)
Definition reqMethodOf (req : Request) : string :=
  let m := match method req with
           | Some EmptyString | None => "GET"
           | Some m => m
           end in
  Str.toUpperCase m ++ " ".

Definition transactionName (req : Request) : string :=
  reqMethodOf req ++ reqPathOf req.

(** The body run inside the domain, before the handler is called.  The
    debug message is cut before the trace id, which the imported
    [extractTraceparentData] computes. *)
Definition startRequestTransaction (req : Request) : M unit :=
  when (hasScope env)
    (emit EvAddRequestDataProcessor ;;
     when (tracingEnabled env)
       (match sentryTrace req with
        | Some _ => debugLog "[Tracing] Continuing trace"
        | None => ret tt
        end ;;
        transaction <- startTransaction (transactionName req)
                         (Some "http.server") (Some "route")
                         (sentryTrace req) (baggage req) ;;
        emit (EvSetSpan transaction) ;;
        modifyRes (setSentryTransaction (Some transaction)))).

(** The handler that [withSentry(origHandler)] returns, applied to
    [req] and the response of the world. *)
Definition withSentry (origHandler : Handler) (req : Request) : M JsValue :=
  modifyRes (fun r => setEndMethod (wrapEndMethod (endMethod r)) r) ;;
  startRequestTransaction req ;;
  tryCatch
    (handlerResult <- callHandler origHandler req ;;
     when (devWarning env) (emit EvConsoleWarn) ;;
     ret handlerResult)
    (fun e =>
       let objectifiedErr := objectify e in
       when (hasScope env)
         (emit EvAddMechanismProcessor ;;
          emit (EvCaptureException objectifiedErr)) ;;
       setStatus 500 "Internal Server Error" ;;
       finishSentryProcessing ;;
       throw objectifiedErr).

End Naming.

(** *** The stash of transactions

    [global.__sentryTransactions__] is undefined until the first
    [stashTransaction]; afterwards it is a plain object used as a map
    from span ids to transactions.  Being a plain object, it inherits the
    properties of [Object.prototype]: reading [stash[k]] for such a name
    [k] that is not a property of the stash itself yields the inherited
    value, which is not a transaction, and [delete] leaves it where it
    is.

    The field [stash] of the world holds the properties of the stash whose
    value is a transaction.  [stashTransaction] stores its argument under
    [transaction.spanId]; when the argument is an inherited value, which
    has no [spanId], the key is the text [undefined]: the field
    [stashUndefined] holds the name of the inherited value stored
    there.  The assignment creates or overwrites a property of the stash
    itself for every key but [__proto__]; the span ids come from the SDK,
    which is imported, and are taken not to be that text. *)

(** What [stash[k]] yields when it is not [undefined]: a transaction, or
    the value of the property [member] of [Object.prototype]. *)
Inductive StashHit : Type :=
| HitTransaction (r : ref)
| HitInherited (member : string).

(** The names of the properties of [Object.prototype]. *)
Definition objectPrototypeMembers : list string :=
  ["constructor"; "__defineGetter__"; "__defineSetter__"; "hasOwnProperty";
   "__lookupGetter__"; "__lookupSetter__"; "isPrototypeOf";
   "propertyIsEnumerable"; "toString"; "valueOf"; "__proto__";
   "toLocaleString"].

Definition isObjectPrototypeMember (k : string) : bool :=
  existsb (String.eqb k) objectPrototypeMembers.

(** What an object without properties of its own yields for [k]. *)
Definition inheritedProperty (k : string) : option StashHit :=
  if isObjectPrototypeMember k then Some (HitInherited k) else None.

(** [obj[k]] for the stash object: its own property if it has one, the
    inherited one otherwise. *)
Definition stashProperty (own : gmap string ref) (undefinedEntry : option string)
    (k : string) : option StashHit :=
  match own !! k with
  | Some r => Some (HitTransaction r)
  | None =>
      match (if String.eqb k "undefined" then undefinedEntry else None) with
      | Some member => Some (HitInherited member)
      | None => inheritedProperty k
      end
  end.

(** [stash && stash[k]]. *)
Definition stashGet (w : World) (k : string) : option StashHit :=
  match stash w with
  | Some own => stashProperty own (stashUndefined w) k
  | None => None
  end.

(** [getTransactionById(transactionId = '')]. *)
Definition getTransactionById (transactionId : option string) : M (option StashHit) :=
  fun w => (Ok (stashGet w (default "" transactionId)), w).

(** [deleteTransaction(transactionId)]: the property of the stash itself
    is removed, if there is one. *)
Definition deleteTransaction (transactionId : string) : M unit :=
  fun w =>
    (Ok tt, match stash w with
            | Some own =>
                setStashUndefined
                  (if String.eqb transactionId "undefined" then None
                   else stashUndefined w)
                  (setStash (Some (delete transactionId own)) w)
            | None => w
            end).

(** [stashTransaction(transaction)]. *)
Definition stashTransaction (transaction : StashHit) : M unit :=
  fun w =>
    let own := default ∅ (stash w) in
    let undefinedEntry :=
      match stash w with
      | Some _ => stashUndefined w
      | None => None
      end in
    match transaction with
    | HitTransaction r =>
        let key := spanId (heap w !!! r) in
        (Ok tt,
         setStashUndefined
           (if String.eqb key "undefined" then None else undefinedEntry)
           (setStash (Some (<[key := r]> own)) w))
    | HitInherited member =>
        (Ok tt,
         setStashUndefined (Some member)
           (setStash (Some (delete "undefined" own)) w))
    end.

(** [t.name] of what a lookup gave: the name of the transaction, the name
    of the inherited function ([Object] for [constructor]), and
    [undefined] for the object that [__proto__] yields. *)
Definition hitName (t : StashHit) : M string :=
  match t with
  | HitTransaction r => o <- readSpan r ;; ret (name o)
  | HitInherited member =>
      ret (if String.eqb member "constructor" then "Object"
           else if String.eqb member "__proto__" then "undefined"
           else member)
  end.

(** The receiver of a method call [t.method(..)] whose text is [callee]:
    an inherited value has no such method, and the call throws. *)
Definition asTransaction (callee : string) (t : StashHit) : M ref :=
  match t with
  | HitTransaction r => ret r
  | HitInherited _ => throw (VTypeError (callee ++ " is not a function"))
  end.

(** *** withSentry_app *)

(** The reserved key of the props. *)
Definition TRANSACTION_ID_KEY : string := "__sentry_transaction_id__".

Record UnderscoreAppContextData : Type := mkContextData {
  pageProps : gmap string JsValue;
  route : string
}.

Definition UnderscoreAppComponent : Type :=
  UnderscoreAppContextData -> Result JsValue.

Definition primText (p : Prim) : string :=
  match p with
  | PUndefined => "undefined"
  | PNull => "null"
  | PBool true => "true"
  | PBool false => "false"
  | PNum n => pretty n
  | PStr s => s
  end.

(** [contextData.pageProps.__sentry_transaction_id__] as the argument of
    [getTransactionById]: a missing or undefined field leaves the
    parameter to its default; the field is declared a string, any other
    value would be used as a property key through its text. *)
Definition transactionIdOf (props : gmap string JsValue) : option string :=
  match props !! TRANSACTION_ID_KEY with
  | None | Some (VPrim PUndefined) => None
  | Some (VPrim p) | Some (VWrapper p) => Some (primText p)
  | Some (VObject _) => Some "[object Object]"
  | Some (VTypeError message) => Some ("TypeError: " ++ message)
  end.

(** A call of the wrapped user function, whose outcome is [r]. *)
Definition callOrig {A} (r : Result A) : M A :=
  emit EvCallOrig ;;
  liftResult r.

(** The function that [withSentry_app(origUnderscoreAppComponent)]
    returns. *)
Definition wrappedUnderscoreApp (origUnderscoreAppComponent : UnderscoreAppComponent)
    (contextData : UnderscoreAppContextData) : M JsValue :=
  emit (EvConsoleLog "I'm in the wrappedUnderscoreApp function returned by appWithSentry") ;;
  if tracingEnabled env && negb (isBuild env) then
    found <- getTransactionById (transactionIdOf (pageProps contextData)) ;;
    activeTransaction <-
      match found with
      | Some t => ret t
      | None =>
          t <- startTransaction (route contextData) None (Some "route") None None ;;
          stashTransaction (HitTransaction t) ;;
          ret (HitTransaction t)
      end ;;
    nm <- hitName activeTransaction ;;
    debugLog ("Found an active transaction. Changing its name from "
              ++ nm ++ " to " ++ route contextData) ;;
    transaction <- asTransaction "activeTransaction.setName" activeTransaction ;;
    setName transaction (route contextData) "route" ;;
    appWrapperSpan <- startChild transaction "_app wrapper" ;;
    jsx <- callOrig (origUnderscoreAppComponent contextData) ;;
    finish appWrapperSpan ;;
    finish transaction ;;
    o' <- readSpan transaction ;;
    deleteTransaction (spanId o') ;;
    ret jsx
  else
    callOrig (origUnderscoreAppComponent contextData).

Definition withSentry_app (origUnderscoreAppComponent : UnderscoreAppComponent)
  : UnderscoreAppContextData -> M JsValue :=
  wrappedUnderscoreApp origUnderscoreAppComponent.

(** *** withSentryGSSP, withSentryGSP *)

(** The object a data-loading function resolves to; the source casts it
    to a record with a [props] field. *)
Record PropsResult : Type := mkPropsResult {
  props : gmap string JsValue
}.

Record GetServerSidePropsContext : Type := mkGSSPContext {
  resolvedUrl : string
}.

Definition GetServerSidePropsFunction : Type :=
  GetServerSidePropsContext -> Result PropsResult.

(** [{ [key: string]: any }]. *)
Definition GetStaticPropsContextData : Type := gmap string JsValue.

Definition GetStaticPropsFunction : Type :=
  GetStaticPropsContextData -> Result PropsResult.

(** [finalProps.props.__sentry_transaction_id__ = id]. *)
Definition setTransactionId (id : string) (finalProps : PropsResult) : PropsResult :=
  mkPropsResult (<[TRANSACTION_ID_KEY := VPrim (PStr id)]> (props finalProps)).

(** [startOrGetPageRouteTransaction(route, transactionId?)]. *)
Definition startOrGetPageRouteTransaction (rt : string) (transactionId : option string)
  : M StashHit :=
  found <- getTransactionById transactionId ;;
  transaction <-
    match found with
    | Some t => ret t
    | None =>
        t <- startTransaction rt (Some "http.server") (Some "route") None None ;;
        ret (HitTransaction t)
    end ;;
  stashTransaction transaction ;;
  ret transaction.

Definition wrappedGSSP (gSSP : GetServerSidePropsFunction) (rt : string)
    (context : GetServerSidePropsContext) : M PropsResult :=
  emit (EvConsoleLog "I'm in the the `wrappedGSSP` function returned by withSentry") ;;
  if tracingEnabled env && negb (isBuild env)
     && negb (Str.endsWith ".map" (resolvedUrl context)) then
    found <- startOrGetPageRouteTransaction rt None ;;
    transaction <- asTransaction "transaction.startChild" found ;;
    gSSPWrapperSpan <- startChild transaction "getServerSideProps" ;;
    finalProps <- callOrig (gSSP context) ;;
    finish gSSPWrapperSpan ;;
    o <- readSpan transaction ;;
    ret (setTransactionId (spanId o) finalProps)
  else
    callOrig (gSSP context).

(** [withSentryGSSP(gSSP, route)]. *)
Definition withSentryGSSP (gSSP : option GetServerSidePropsFunction) (rt : string)
  : M (option (GetServerSidePropsContext -> M PropsResult)) :=
  emit (EvConsoleLog "I'm in the withSentry function") ;;
  ret (match gSSP with
       | None => None
       | Some g => Some (wrappedGSSP g rt)
       end).

Definition wrappedGSP (gSP : GetStaticPropsFunction)
    (context : GetStaticPropsContextData) : M PropsResult :=
  emit (EvConsoleLog "I'm in the the `wrappedGSP` function returned by withSentry") ;;
  if tracingEnabled env && negb (isBuild env) then
    transaction <- startTransaction "unknown transaction" (Some "http.server") None None None ;;
    stashTransaction (HitTransaction transaction) ;;
    gSPWrapperSpan <- startChild transaction "getStaticProps" ;;
    finalProps <- callOrig (gSP context) ;;
    o <- readSpan transaction ;;
    let finalProps := setTransactionId (spanId o) finalProps in
    finish gSPWrapperSpan ;;
    ret finalProps
  else
    callOrig (gSP context).

(** [withSentryGSP(gSP)]. *)
Definition withSentryGSP (gSP : GetStaticPropsFunction)
  : M (GetStaticPropsContextData -> M PropsResult) :=
  emit (EvConsoleLog "I'm in the withSentry function") ;;
  ret (wrappedGSP gSP).

End WithEnv.

(** ** What a run leaves in the trace and in the heap *)

Local Open Scope list_scope.

(** [a] happens before [b] in the trace [l]. *)
Definition Before (a b : Event) (l : list Event) : Prop :=
  exists l1 l2 l3, l = l1 ++ a :: l2 ++ b :: l3.

Definition taskEvent (t : Task) : Event :=
  match t with
  | TaskFinishSpan r => EvFinish r
  | TaskOther label => EvTask label
  end.

(** The heap and the clock after the pending immediates have run. *)
Fixpoint tasksHeap (ts : list Task) (c : nat) (h : list SpanObj) : list SpanObj :=
  match ts with
  | [] => h
  | TaskFinishSpan r :: rest => tasksHeap rest (S c) (alter (withFinish c) r h)
  | TaskOther _ :: rest => tasksHeap rest c h
  end.

Fixpoint tasksClock (ts : list Task) (c : nat) : nat :=
  match ts with
  | [] => c
  | TaskFinishSpan _ :: rest => tasksClock rest (S c)
  | TaskOther _ :: rest => tasksClock rest c
  end.

Definition logEvents (env : Env) (msg : string) : list Event :=
  if debugBuild env then [EvLoggerLog msg] else [].

Definition logWithEvents (env : Env) (msg : string) (e : JsValue) : list Event :=
  if debugBuild env then [EvLoggerLogWith msg e] else [].

(** The calls that [finishSentryProcessing] makes, in order. *)
Definition finishEvents (w : World) : list Event :=
  match sentryTransaction (res w) with
  | Some r =>
      EvSetHttpStatus r (statusCode (res w))
        :: map taskEvent (immediates w) ++ [EvImmediate; EvFinish r]
  | None => []
  end.

Definition flushEvents (env : Env) (w : World) : list Event :=
  logEvents env "Flushing events..." ++ [EvFlush 2000]
    ++ match flushOutcome env (flushes w) with
       | FlushResolved _ => logEvents env "Done flushing events"
       | FlushRejected e => logWithEvents env flushErrorMessage e
       end.

Definition finalizeEvents (env : Env) (w : World) : list Event :=
  finishEvents w ++ flushEvents env w.

Definition finalizedHeap (w : World) : list SpanObj :=
  match sentryTransaction (res w) with
  | Some r =>
      alter (withFinish (tasksClock (immediates w) (clock w))) r
        (tasksHeap (immediates w) (clock w)
           (alter (withHttpStatus (statusCode (res w))) r (heap w)))
  | None => heap w
  end.

Definition finalizedClock (w : World) : nat :=
  match sentryTransaction (res w) with
  | Some _ => S (tasksClock (immediates w) (clock w))
  | None => clock w
  end.

Definition finalizedImmediates (w : World) : list Task :=
  match sentryTransaction (res w) with
  | Some _ => []
  | None => immediates w
  end.

(** The world that [finishSentryProcessing] leaves. *)
Definition finalized (env : Env) (w : World) : World :=
  mkWorld (finalizedHeap w) (stash w) (stashUndefined w) (finalizedClock w)
    (finalizedImmediates w)
    (S (flushes w)) (res w) (trace w ++ finalizeEvents env w).

Definition isStartTransaction (e : Event) : bool :=
  match e with
  | EvStartTransaction _ _ _ _ _ => true
  | _ => false
  end.

Definition isFinish (e : Event) : bool :=
  match e with
  | EvFinish _ => true
  | _ => false
  end.

Definition isFlush (e : Event) : bool :=
  match e with
  | EvFlush _ => true
  | _ => false
  end.

Definition isOrigEnd (e : Event) : bool :=
  match e with
  | EvOrigEnd _ => true
  | _ => false
  end.

(** The transaction that the stash itself holds under [k], absent when
    there is no stash yet. *)
Definition stashLookup (w : World) (k : string) : option ref :=
  match stash w with
  | Some st => st !! k
  | None => None
  end.

(** A lookup of [k] yields a value that the stash inherits or holds under
    [undefined], not a transaction. *)
Definition findsInherited (w : World) (k : string) : bool :=
  match stashGet w k with
  | Some (HitInherited _) => true
  | _ => false
  end.

(** What a lookup of [k] yields in the stash object that a first
    [stashTransaction] creates, for a [k] that it does not store. *)
Definition lookupAfterCreation (w : World) (k : string) : option StashHit :=
  match stash w with
  | Some _ => stashGet w k
  | None => inheritedProperty k
  end.

(** Number of transactions that the stash holds. *)
Definition stashSize (w : World) : nat :=
  match stash w with
  | Some st => size st
  | None => 0
  end.

(** ** The stages of the wrappers *)

Section Stages.

Context (env : Env) (strip : string -> string).

(** The key under which [wrappedUnderscoreApp] looks the transaction up. *)
Definition appKey (contextData : UnderscoreAppContextData) : string :=
  default "" (transactionIdOf (pageProps contextData)).

Definition appEntry (w : World) : World :=
  setTrace (trace w ++ [EvConsoleLog
    "I'm in the wrappedUnderscoreApp function returned by appWithSentry"]) w.

(** The world in which the user's handler is called: [res.end] is
    wrapped and, when there is a scope and tracing is on, the transaction
    is started and stored on the response. *)
Definition handlerEntry (req : Request) (w : World) : World :=
  snd ((modifyRes (fun r => setEndMethod (wrapEndMethod (endMethod r)) r) ;;
        startRequestTransaction env strip req) w).

(** The world in which the promise of the user's handler settles. *)
Definition afterHandler (origHandler : Handler) (req : Request) (w : World) : World :=
  snd (callHandler origHandler req w).

Definition captureEvents (e : JsValue) : list Event :=
  if hasScope env
  then [EvAddMechanismProcessor; EvCaptureException (objectify e)]
  else [].

(** The world of the catch block just before finalization: the error is
    captured and the status is 500. *)
Definition beforeErrorFinalization (e : JsValue) (w : World) : World :=
  snd ((when (hasScope env)
          (emit EvAddMechanismProcessor ;;
           emit (EvCaptureException (objectify e))) ;;
        setStatus 500 "Internal Server Error") w).

(** The world in which the wrapped handler resolves. *)
Definition afterSuccess (w : World) : World :=
  snd (when (devWarning env) (emit EvConsoleWarn) w).

(** The first half of the traced branch of [wrappedUnderscoreApp]: the
    transaction named by the props, or a new one that is stashed. *)
Definition appAcquire (contextData : UnderscoreAppContextData) : M StashHit :=
  found <- getTransactionById (transactionIdOf (pageProps contextData)) ;;
  match found with
  | Some t => ret t
  | None =>
      t <- startTransaction env (route contextData) None (Some "route") None None ;;
      stashTransaction (HitTransaction t) ;;
      ret (HitTransaction t)
  end.

(** The second half: rename, child span, the user's component, finish
    and removal. *)
Definition appRest (orig : UnderscoreAppComponent)
    (contextData : UnderscoreAppContextData) (activeTransaction : StashHit) : M JsValue :=
  nm <- hitName activeTransaction ;;
  debugLog env ("Found an active transaction. Changing its name from "
                ++ nm ++ " to " ++ route contextData)%string ;;
  transaction <- asTransaction "activeTransaction.setName" activeTransaction ;;
  setName transaction (route contextData) "route" ;;
  appWrapperSpan <- startChild env transaction "_app wrapper" ;;
  jsx <- callOrig (orig contextData) ;;
  finish appWrapperSpan ;;
  finish transaction ;;
  o' <- readSpan transaction ;;
  deleteTransaction (spanId o') ;;
  ret jsx.

(** The transaction that [wrappedUnderscoreApp] starts when the lookup
    finds nothing. *)
Definition appTransaction (contextData : UnderscoreAppContextData) (w : World) : SpanObj :=
  mkSpan (newSpanId env (length (heap w))) (route contextData) None
    (Some "route") None (clock w) None None.

(** The child span that [wrappedUnderscoreApp] opens. *)
Definition appChild (r : ref) (w : World) : SpanObj :=
  mkSpan (newSpanId env (length (heap w))) "" (Some "_app wrapper") None
    (Some r) (clock w) None None.

Definition appRenameEvents (contextData : UnderscoreAppContextData)
    (r : ref) (w : World) : list Event :=
  logEvents env ("Found an active transaction. Changing its name from "
                 ++ name (heap w !!! r) ++ " to " ++ route contextData)%string
    ++ [EvSetName r (route contextData) "route";
        EvStartChild r (length (heap w)) "_app wrapper";
        EvCallOrig].

Definition gspTransaction (w : World) : SpanObj :=
  mkSpan (newSpanId env (length (heap w))) "unknown transaction"
    (Some "http.server") None None (clock w) None None.

Definition gspChild (w : World) : SpanObj :=
  mkSpan (newSpanId env (S (length (heap w)))) "" (Some "getStaticProps")
    None (Some (length (heap w))) (S (clock w)) None None.

(** The transaction that [wrappedGSSP] works on: the one stashed under
    the empty id if there is one, a new one otherwise. *)
Definition gsspRef (w : World) : ref :=
  match stashLookup w "" with
  | Some r => r
  | None => length (heap w)
  end.

Definition gsspStartEvents (rt : string) (w : World) : list Event :=
  match stashLookup w "" with
  | Some _ => []
  | None => [EvStartTransaction (length (heap w)) rt (Some "http.server") None None]
  end.

End Stages.

Definition isLoggerLog (e : Event) : bool :=
  match e with
  | EvLoggerLog _ | EvLoggerLogWith _ _ => true
  | _ => false
  end.

(** Every transaction that the stash holds is an object of the heap. *)
Definition stashValid (w : World) : Prop :=
  forall k r, stashLookup w k = Some r -> r < length (heap w).

(** The transaction that [wrappedUnderscoreApp] works on: the one found
    under the id of the props, or a new one. *)
Definition appRef (contextData : UnderscoreAppContextData) (w : World) : ref :=
  match stashLookup w (appKey contextData) with
  | Some r => r
  | None => length (heap w)
  end.

(** [wrappedUnderscoreApp], given the props [fp] in the world [w1], works
    on the transaction [r] that is stashed under the id written in the
    props: it starts no transaction, renames [r], and leaves the id and
    the start time of [r] as they are. *)
Definition ResumedByApp (env : Env) (fp : PropsResult) (w1 : World) (r : ref) : Prop :=
  exists id,
    props fp !! TRANSACTION_ID_KEY = Some (VPrim (PStr id))
    /\ stashLookup w1 id = Some r
    /\ spanId (heap w1 !!! r) = id
    /\ forall (orig : UnderscoreAppComponent) (rt : string),
         exists evs,
           fst (wrappedUnderscoreApp env orig (mkContextData (props fp) rt) w1)
           = orig (mkContextData (props fp) rt)
           /\ trace (snd (wrappedUnderscoreApp env orig (mkContextData (props fp) rt) w1))
              = trace w1 ++ evs
           /\ List.filter isStartTransaction evs = []
           /\ In (EvSetName r rt "route") evs
           /\ spanId (heap (snd (wrappedUnderscoreApp env orig
                                   (mkContextData (props fp) rt) w1)) !!! r) = id
           /\ startTimestamp (heap (snd (wrappedUnderscoreApp env orig
                                           (mkContextData (props fp) rt) w1)) !!! r)
              = startTimestamp (heap w1 !!! r).

(** ** Further readings of traces, strings and methods *)

Definition isCapture (e : Event) : bool :=
  match e with
  | EvCaptureException _ => true
  | _ => false
  end.

(** How many times [wrapEndMethod] was applied to the native method. *)
Fixpoint wrapDepth (m : EndMethod) : nat :=
  match m with
  | NativeEnd => 0
  | NewEnd origEnd => S (wrapDepth origEnd)
  end.

(** [pat] occurs in [s]. *)
Definition occursIn (pat s : string) : Prop :=
  exists b a, s = (b ++ pat ++ a)%string.

(** The text holds no [$], so that it is taken literally as a
    replacement. *)
Fixpoint noDollar (s : string) : bool :=
  match s with
  | EmptyString => true
  | String c rest => negb (Ascii.eqb c "$"%char) && noDollar rest
  end.

(** The fields of a span that only its creation sets. *)
Definition sameIdentity (o o' : SpanObj) : Prop :=
  spanId o' = spanId o
  /\ name o' = name o
  /\ op o' = op o
  /\ source o' = source o
  /\ parentSpan o' = parentSpan o
  /\ startTimestamp o' = startTimestamp o.

(** The status that the user's handler leaves on the response [r0] it was
    given. *)
Definition statusAfterHandler (run : HandlerRun) (r0 : Response) : nat :=
  match hStatus run with
  | Some (code, _) => code
  | None => statusCode r0
  end.

Definition handlerEvents (run : HandlerRun) : list Event :=
  EvCallOrig
    :: match hStatus run with
       | Some (code, msg) => [EvSetStatus code msg]
       | None => []
       end.

(** Every transaction that the stash holds is keyed by its span id and is
    an object of the heap. *)
Definition stashKeyed (w : World) : Prop :=
  forall k r, stashLookup w k = Some r ->
              r < length (heap w) /\ spanId (heap w !!! r) = k.

(** The heap [h'] holds the objects of [h], under the same span ids. *)
Definition heapExtends (h h' : list SpanObj) : Prop :=
  length h <= length h'
  /\ forall r, r < length h -> spanId (h' !!! r) = spanId (h !!! r).

(** The computation keeps [stashKeyed], whatever it returns or throws. *)
Definition keepsStashKeyed {A : Type} (m : M A) : Prop :=
  forall w, stashKeyed w -> stashKeyed (snd (m w)).

(** ** Sample inputs *)

Module Sample.

Definition idGen (n : nat) : string := ("span" ++ pretty n)%string.

(** Tracing on, not a build, a scope, flushes succeed. *)
Definition env : Env :=
  mkEnv true false false true false idGen (fun _ => FlushResolved true).

(** As [env], with debug logging and a transport that rejects. *)
Definition envFailing : Env :=
  mkEnv true false true true false idGen
    (fun _ => FlushRejected (VObject 99)).

(** As [env], with a transport that rejects and no debug logging. *)
Definition envSilentFailing : Env :=
  mkEnv true false false true false idGen
    (fun _ => FlushRejected (VObject 99)).

(** As [env], with debug logging and a flush that hits its timeout. *)
Definition envTimeout : Env :=
  mkEnv true false true true false idGen (fun _ => FlushResolved false).

(** Tracing switched off. *)
Definition envNoTracing : Env :=
  mkEnv false false false true false idGen (fun _ => FlushResolved true).

(** Build mode. *)
Definition envBuild : Env :=
  mkEnv true true false true false idGen (fun _ => FlushResolved true).

Definition response : Response := mkResponse 200 "OK" None NativeEnd.

(** A fresh process with the response of a new request. *)
Definition world : World := mkWorld [] None None 0 [] 0 response [].

Definition request : Request :=
  mkRequest (Some "/users/42?x=1") (Some "GET")
    (Some [("x", QString "1"); ("id", QString "42")]) None None.

Definition okHandler : Handler :=
  fun _ _ => mkHandlerRun (Some (200, "OK")) (Ok (VPrim PUndefined)).

Definition throwingHandler (e : JsValue) : Handler :=
  fun _ _ => mkHandlerRun None (Throw e).

Definition pageResult : PropsResult :=
  mkPropsResult {[ "a" := VPrim (PNum 1) ]}.

Definition gSSP : GetServerSidePropsFunction := fun _ => Ok pageResult.

Definition gSP : GetStaticPropsFunction := fun _ => Ok pageResult.

Definition component : UnderscoreAppComponent := fun _ => Ok (VObject 7).

Definition throwingComponent : UnderscoreAppComponent :=
  fun _ => Throw (VObject 13).

(** A transaction that is open, on the response of a request, with a
    child span whose finish is pending in the immediate queue. *)
Definition worldWithTransaction : World :=
  mkWorld
    [mkSpan "span0" "GET /users/[id]" (Some "http.server") (Some "route")
       None 0 None None;
     mkSpan "span1" "" (Some "db") None (Some 0) 1 None None]
    None None 2 [TaskFinishSpan 1] 0
    (mkResponse 200 "OK" (Some 0) (NewEnd NativeEnd)) [].

(** The world after the wrapped handler has run [okHandler]. *)
Definition afterOkHandler : World :=
  snd (withSentry env stripUrlQueryAndFragment okHandler request world).

(** The world after the wrapped handler has run a handler that throws an
    error object. *)
Definition afterThrowingHandler : World :=
  snd (withSentry env stripUrlQueryAndFragment
         (throwingHandler (VObject 13)) request world).

(** The world when [wrappedGSP] is done, and the props it resolved
    with. *)
Definition afterGSP : World := snd (wrappedGSP env gSP ∅ world).

Definition propsAfterGSP : gmap string JsValue :=
  props (setTransactionId "span0" pageResult).

(** [wrappedUnderscoreApp] on these props, the component throwing. *)
Definition appThrows : Result JsValue * World :=
  wrappedUnderscoreApp env throwingComponent
    (mkContextData propsAfterGSP "/page") afterGSP.

(** The same call, the component returning. *)
Definition appReturns : Result JsValue * World :=
  wrappedUnderscoreApp env component
    (mkContextData propsAfterGSP "/page") afterGSP.

End Sample.

(** ** Properties *)

Section Runs.

Context (env : Env).

Lemma runTasks_run (ts : list Task) (w : World) :
  runTasks ts w =
    (Ok tt, mkWorld (tasksHeap ts (clock w) (heap w)) (stash w) (stashUndefined w)
              (tasksClock ts (clock w)) (immediates w) (flushes w) (res w)
              (trace w ++ map taskEvent ts)).
Proof.
  revert w. induction ts as [|t rest IH]; intros w.
  - simpl. unfold ret. destruct w; simpl. by rewrite app_nil_r.
  - destruct t as [r|label]; simpl; unfold bind; simpl.
    + unfold finish, bind, tick, updateSpan, emit; simpl.
      rewrite IH. simpl. by rewrite <- app_assoc.
    + unfold emit. rewrite IH. simpl. by rewrite <- app_assoc.
Qed.

Lemma finishSentryProcessing_run (w : World) :
  finishSentryProcessing env w = (Ok tt, finalized env w).
Proof.
  unfold finishSentryProcessing, finalized, finalizeEvents, finishEvents,
    flushEvents, finalizedHeap, finalizedClock, finalizedImmediates, logEvents,
    logWithEvents.
  unfold bind at 1. simpl.
  destruct (sentryTransaction (res w)) as [r|].
  - unfold bind at 1. unfold bind at 1. simpl.
    unfold setHttpStatus, awaitImmediate, bind, updateSpan, emit. simpl.
    rewrite runTasks_run. simpl.
    unfold finish, tryCatch, debugLog, debugLogWith, when, flush, bind, tick,
      updateSpan, emit, ret.
    simpl.
    destruct (debugBuild env); simpl;
      destruct (flushOutcome env (flushes w)); simpl;
      repeat f_equal; rewrite <- ?app_assoc; simpl; try reflexivity.
  - unfold bind at 1. unfold ret at 1.
    unfold tryCatch, debugLog, debugLogWith, when, flush, bind, emit, ret. simpl.
    destruct (debugBuild env); simpl;
      destruct (flushOutcome env (flushes w)); simpl;
      repeat f_equal; rewrite <- ?app_assoc; simpl; try reflexivity.
Qed.

Lemma flushEvents_shape (w : World) :
  exists logs1 logs2,
    flushEvents env w = logs1 ++ [EvFlush 2000] ++ logs2
    /\ List.filter isFlush logs1 = []
    /\ List.filter isFlush logs2 = []
    /\ List.filter isOrigEnd (logs1 ++ logs2) = []
    /\ List.filter isFinish (logs1 ++ logs2) = [].
Proof.
  unfold flushEvents, logEvents, logWithEvents.
  destruct (debugBuild env), (flushOutcome env (flushes w));
    eexists _, _; (split; [reflexivity|]); repeat split; reflexivity.
Qed.

Lemma taskEvents_no_flush (ts : list Task) :
  List.filter isFlush (map taskEvent ts) = []
  /\ List.filter isOrigEnd (map taskEvent ts) = [].
Proof. induction ts as [|[r|l] rest [IH1 IH2]]; simpl; auto. Qed.

Lemma finishEvents_no_flush (w : World) :
  List.filter isFlush (finishEvents w) = []
  /\ List.filter isOrigEnd (finishEvents w) = [].
Proof.
  unfold finishEvents. destruct (sentryTransaction (res w)); simpl; auto.
  rewrite !List.filter_app.
  destruct (taskEvents_no_flush (immediates w)) as [-> ->]. auto.
Qed.

(** One call of [finishSentryProcessing] makes one call of [flush] and
    no call of the native close. *)
Lemma finalizeEvents_flush_once (w : World) :
  List.filter isFlush (finalizeEvents env w) = [EvFlush 2000]
  /\ List.filter isOrigEnd (finalizeEvents env w) = [].
Proof.
  unfold finalizeEvents. rewrite !List.filter_app.
  destruct (finishEvents_no_flush w) as [-> ->].
  destruct (flushEvents_shape w) as (l1 & l2 & -> & H1 & H2 & H3 & _).
  rewrite !List.filter_app, H1, H2. rewrite List.filter_app in H3.
  simpl. split; [reflexivity|].
  destruct (List.filter isOrigEnd l1), (List.filter isOrigEnd l2); try discriminate.
  reflexivity.
Qed.

Lemma finalizeEvents_no_start (w : World) :
  List.filter isStartTransaction (finalizeEvents env w) = [].
Proof.
  unfold finalizeEvents, finishEvents, flushEvents, logEvents, logWithEvents.
  rewrite !List.filter_app.
  assert (Ht : forall ts, List.filter isStartTransaction (map taskEvent ts) = []).
  { induction ts as [|[r|l] rest IH]; simpl; auto. }
  destruct (sentryTransaction (res w)), (debugBuild env),
    (flushOutcome env (flushes w)); simpl;
    rewrite ?List.filter_app, ?Ht; reflexivity.
Qed.

Lemma finalizeEvents_finish_before_flush (w : World) (r : ref) :
  sentryTransaction (res w) = Some r ->
  Before (EvFinish r) (EvFlush 2000) (finalizeEvents env w).
Proof.
  intros Hr. unfold finalizeEvents, finishEvents. rewrite Hr.
  destruct (flushEvents_shape w) as (l1 & l2 & -> & _).
  exists (EvSetHttpStatus r (statusCode (res w))
            :: map taskEvent (immediates w) ++ [EvImmediate]), l1, l2.
  simpl. rewrite <- !app_assoc. reflexivity.
Qed.

Lemma tasksHeap_length (ts : list Task) :
  forall c h, length (tasksHeap ts c h) = length h.
Proof.
  induction ts as [|[r|l] rest IH]; intros c h; simpl; auto.
  by rewrite IH, length_alter.
Qed.

Lemma finalizedHeap_length (w : World) :
  length (finalizedHeap w) = length (heap w).
Proof.
  unfold finalizedHeap. destruct (sentryTransaction (res w)); auto.
  by rewrite length_alter, tasksHeap_length, length_alter.
Qed.

End Runs.

(** A field that an update leaves alone is the same before and after, at
    every reference. *)
Lemma alter_keeps_field {B : Type} (g : SpanObj -> B) (f : SpanObj -> SpanObj) :
  (forall o, g (f o) = g o) ->
  forall (h : list SpanObj) (r r' : ref), g (alter f r h !!! r') = g (h !!! r').
Proof.
  intros Hf h r r'. rewrite list_lookup_total_alter.
  case_decide as Hd; [|reflexivity].
  destruct Hd as [-> _]. apply Hf.
Qed.

Lemma tasksHeap_keeps_field {B : Type} (g : SpanObj -> B) :
  (forall c o, g (withFinish c o) = g o) ->
  forall ts c (h : list SpanObj) (r : ref), g (tasksHeap ts c h !!! r) = g (h !!! r).
Proof.
  intros Hg ts. induction ts as [|[r0|l] rest IH]; intros c h r; simpl; auto.
  rewrite IH. apply alter_keeps_field. apply Hg.
Qed.

Lemma withFinish_finished (c : nat) (o : SpanObj) :
  is_Some (endTimestamp (withFinish c o)).
Proof. unfold withFinish. destruct (endTimestamp o) eqn:E; simpl; eauto. Qed.

Lemma withFinish_idempotent (c : nat) (o : SpanObj) :
  is_Some (endTimestamp o) -> withFinish c o = o.
Proof. intros [t Ht]. unfold withFinish. by rewrite Ht. Qed.

Lemma withFinish_fields (c : nat) (o : SpanObj) :
  spanId (withFinish c o) = spanId o
  /\ name (withFinish c o) = name o
  /\ startTimestamp (withFinish c o) = startTimestamp o.
Proof. unfold withFinish. destruct (endTimestamp o); auto. Qed.

Lemma flushEvents_logs (env : Env) (w : World) :
  exists logs1 logs2,
    flushEvents env w = logs1 ++ [EvFlush 2000] ++ logs2
    /\ forallb isLoggerLog logs1 = true
    /\ forallb isLoggerLog logs2 = true.
Proof.
  unfold flushEvents, logEvents, logWithEvents.
  destruct (debugBuild env), (flushOutcome env (flushes w));
    eexists _, _; (split; [reflexivity|]); split; reflexivity.
Qed.

(** ** Finalization *)

(** C5 (as the code has it): when the response carries a transaction,
    [finishSentryProcessing] records the status, lets the immediates that
    are pending run, finishes the transaction in its own immediate
    callback, and only then calls [flush] with 2000 ms; whatever the flush
    does (success, timeout, rejection) the function returns normally, and
    the response is as before.  What is logged depends on the build: in a
    debug build, one line before the flush and one after it, which is the
    error line with the thrown value when the flush rejects and the line
    [Done flushing events] when it resolves, timeout included; otherwise
    nothing. *)
Theorem finishSentryProcessing_defers_finish_then_flushes
    (env : Env) (w : World) (r : ref) :
  sentryTransaction (res w) = Some r ->
  exists w',
    finishSentryProcessing env w = (Ok tt, w')
    /\ res w' = res w
    /\ trace w' =
         trace w ++ [EvSetHttpStatus r (statusCode (res w))]
           ++ map taskEvent (immediates w)
           ++ [EvImmediate; EvFinish r]
           ++ logEvents env "Flushing events..."
           ++ [EvFlush 2000]
           ++ match flushOutcome env (flushes w) with
              | FlushResolved _ => logEvents env "Done flushing events"
              | FlushRejected e => logWithEvents env flushErrorMessage e
              end
    /\ (debugBuild env = false ->
          trace w' =
            trace w ++ [EvSetHttpStatus r (statusCode (res w))]
              ++ map taskEvent (immediates w)
              ++ [EvImmediate; EvFinish r; EvFlush 2000])
    /\ flushes w' = S (flushes w)
    /\ heap w' =
         alter (withFinish (tasksClock (immediates w) (clock w))) r
           (tasksHeap (immediates w) (clock w)
              (alter (withHttpStatus (statusCode (res w))) r (heap w))).
Proof.
  intros Hr.
  exists (finalized env w).
  split; [apply finishSentryProcessing_run|].
  split; [reflexivity|].
  split.
  { unfold finalized, finalizeEvents, finishEvents, flushEvents. cbn [trace].
    rewrite Hr. cbn [app]. rewrite <- !app_assoc. reflexivity. }
  split.
  { intros Hdebug.
    unfold finalized, finalizeEvents, finishEvents, flushEvents, logEvents,
      logWithEvents. cbn [trace].
    rewrite Hr, Hdebug. cbn [app]. rewrite <- !app_assoc.
    by destruct (flushOutcome env (flushes w)). }
  split; [reflexivity|].
  unfold finalized, finalizedHeap. cbn [heap]. by rewrite Hr.
Qed.

Lemma finishSentryProcessing_defers_finish_then_flushes_witness :
  exists w',
    finishSentryProcessing Sample.envFailing Sample.worldWithTransaction = (Ok tt, w')
    /\ res w' = res Sample.worldWithTransaction
    /\ trace w' =
         [EvSetHttpStatus 0 200; EvFinish 1; EvImmediate; EvFinish 0;
          EvLoggerLog "Flushing events..."; EvFlush 2000;
          EvLoggerLogWith flushErrorMessage (VObject 99)]
    /\ flushes w' = 1
    /\ (endTimestamp <$> heap w') = [Some 3; Some 2].
Proof.
  destruct (finishSentryProcessing_defers_finish_then_flushes
              Sample.envFailing Sample.worldWithTransaction 0 eq_refl)
    as (w' & H1 & H2 & H3 & _ & H5 & H6).
  exists w'. repeat split; auto.
  rewrite H6. reflexivity.
Defined.

(** C5, the claim as stated fails: outside a debug build a flush that
    rejects is swallowed without a word in the log; and in a debug build
    a flush that hits its timeout is logged as done, not as a failure. *)
Lemma flush_failure_not_logged_counterexample :
  debugBuild Sample.envSilentFailing = false
  /\ flushOutcome Sample.envSilentFailing 0 = FlushRejected (VObject 99)
  /\ fst (finishSentryProcessing Sample.envSilentFailing Sample.worldWithTransaction)
     = Ok tt
  /\ List.filter isLoggerLog
       (trace (snd (finishSentryProcessing Sample.envSilentFailing
                      Sample.worldWithTransaction)))
     = []
  /\ flushOutcome Sample.envTimeout 0 = FlushResolved false
  /\ List.filter isLoggerLog
       (trace (snd (finishSentryProcessing Sample.envTimeout
                      Sample.worldWithTransaction)))
     = [EvLoggerLog "Flushing events..."; EvLoggerLog "Done flushing events"].
Proof. repeat split; vm_compute; reflexivity. Qed.

(** C4 (as the code has it): when the response carries no transaction,
    [finishSentryProcessing] touches no span (no status, no finish) and
    raises nothing, but it still calls [flush] with 2000 ms, once. *)
Theorem finishSentryProcessing_without_transaction_still_flushes
    (env : Env) (w : World) :
  sentryTransaction (res w) = None ->
  exists w' logs1 logs2,
    finishSentryProcessing env w = (Ok tt, w')
    /\ heap w' = heap w
    /\ clock w' = clock w
    /\ immediates w' = immediates w
    /\ res w' = res w
    /\ trace w' = trace w ++ logs1 ++ [EvFlush 2000] ++ logs2
    /\ forallb isLoggerLog logs1 = true
    /\ forallb isLoggerLog logs2 = true
    /\ flushes w' = S (flushes w).
Proof.
  intros Hr.
  destruct (flushEvents_logs env w) as (l1 & l2 & Hfl & Hl1 & Hl2).
  exists (finalized env w), l1, l2.
  split; [apply finishSentryProcessing_run|].
  unfold finalized, finalizeEvents, finishEvents, finalizedHeap,
    finalizedClock, finalizedImmediates; simpl.
  rewrite Hr, Hfl. repeat split; auto.
Qed.

Lemma finishSentryProcessing_without_transaction_still_flushes_witness :
  exists w',
    finishSentryProcessing Sample.envNoTracing Sample.world = (Ok tt, w')
    /\ heap w' = heap Sample.world
    /\ flushes w' = 1.
Proof.
  destruct (finishSentryProcessing_without_transaction_still_flushes
              Sample.envNoTracing Sample.world eq_refl)
    as (w' & l1 & l2 & H1 & H2 & _ & _ & _ & _ & _ & _ & H9).
  exists w'. repeat split; auto.
Defined.

(** C4, the claim as stated fails: with no transaction on the response
    (tracing is off), finalization does call [flush]. *)
Lemma finishSentryProcessing_without_transaction_flush_counterexample :
  sentryTransaction (res Sample.world) = None
  /\ trace (snd (finishSentryProcessing Sample.envNoTracing Sample.world))
     = [EvFlush 2000]
  /\ List.filter isFlush
       (trace (snd (finishSentryProcessing Sample.envNoTracing Sample.world)))
     <> [].
Proof. repeat split. vm_compute. discriminate. Qed.

Lemma finalizeEvents_second_finish (env : Env) (w : World) (r : ref) :
  sentryTransaction (res w) = Some r ->
  immediates w = [] ->
  List.filter isFinish (finalizeEvents env w) = [EvFinish r].
Proof.
  intros Hr Hq. unfold finalizeEvents, finishEvents. rewrite Hr, Hq.
  destruct (flushEvents_shape env w) as (l1 & l2 & -> & _ & _ & _ & H).
  rewrite List.filter_app in H. simpl. rewrite !List.filter_app. simpl.
  destruct (List.filter isFinish l1), (List.filter isFinish l2); try discriminate.
  reflexivity.
Qed.

Lemma finalizedHeap_again (w : World) (r : ref) :
  sentryTransaction (res w) = Some r ->
  immediates w = [] ->
  r < length (heap w) ->
  is_Some (endTimestamp (heap w !!! r)) ->
  endTimestamp (finalizedHeap w !!! r) = endTimestamp (heap w !!! r).
Proof.
  intros Hr Hq Hlt Hdone. unfold finalizedHeap. rewrite Hr, Hq. simpl.
  rewrite list_lookup_total_alter_eq by (rewrite length_alter; exact Hlt).
  rewrite list_lookup_total_alter_eq by exact Hlt.
  rewrite withFinish_idempotent; [reflexivity|exact Hdone].
Qed.

(** C6 (as the code has it): driving finalization twice for the same
    response calls [finish] on the transaction both times and calls
    [flush] both times; the transaction keeps the finish time of the first
    call, because the SDK's [finish] does nothing on a finished
    transaction. *)
Theorem finalization_twice_flushes_twice
    (env : Env) (w : World) (r : ref) :
  sentryTransaction (res w) = Some r ->
  r < length (heap w) ->
  exists w1 w2 evs1 evs2,
    finishSentryProcessing env w = (Ok tt, w1)
    /\ finishSentryProcessing env w1 = (Ok tt, w2)
    /\ trace w1 = trace w ++ evs1
    /\ trace w2 = trace w1 ++ evs2
    /\ List.filter isFlush evs1 = [EvFlush 2000]
    /\ List.filter isFlush evs2 = [EvFlush 2000]
    /\ List.filter isFinish evs2 = [EvFinish r]
    /\ flushes w2 = S (S (flushes w))
    /\ is_Some (endTimestamp (heap w1 !!! r))
    /\ endTimestamp (heap w2 !!! r) = endTimestamp (heap w1 !!! r).
Proof.
  intros Hr Hlt.
  exists (finalized env w), (finalized env (finalized env w)),
    (finalizeEvents env w), (finalizeEvents env (finalized env w)).
  assert (Hr1 : sentryTransaction (res (finalized env w)) = Some r) by exact Hr.
  assert (Hq1 : immediates (finalized env w) = []).
  { unfold finalized, finalizedImmediates; simpl. by rewrite Hr. }
  assert (Hdone : is_Some (endTimestamp (heap (finalized env w) !!! r))).
  { unfold finalized, finalizedHeap; simpl. rewrite Hr.
    rewrite list_lookup_total_alter_eq
      by (rewrite tasksHeap_length, length_alter; exact Hlt).
    apply withFinish_finished. }
  split; [apply finishSentryProcessing_run|].
  split; [apply finishSentryProcessing_run|].
  split; [reflexivity|]. split; [reflexivity|].
  split; [apply finalizeEvents_flush_once|].
  split; [apply finalizeEvents_flush_once|].
  split; [by apply finalizeEvents_second_finish|].
  split; [reflexivity|].
  split; [exact Hdone|].
  assert (Hlt1 : r < length (heap (finalized env w))).
  { unfold finalized; simpl. by rewrite finalizedHeap_length. }
  exact (finalizedHeap_again (finalized env w) r Hr1 Hq1 Hlt1 Hdone).
Qed.

Lemma finalization_twice_flushes_twice_witness :
  exists w1 w2,
    finishSentryProcessing Sample.env Sample.worldWithTransaction = (Ok tt, w1)
    /\ finishSentryProcessing Sample.env w1 = (Ok tt, w2)
    /\ flushes w2 = 2
    /\ endTimestamp (heap w2 !!! 0) = endTimestamp (heap w1 !!! 0).
Proof.
  destruct (finalization_twice_flushes_twice Sample.env
              Sample.worldWithTransaction 0 eq_refl)
    as (w1 & w2 & e1 & e2 & H1 & H2 & _ & _ & _ & _ & _ & H8 & _ & H10).
  { simpl. lia. }
  exists w1, w2. repeat split; auto.
Defined.

(** C6, the claim as stated fails: the handler throws, so the error path
    finalizes, and then the framework closes the response through the
    wrapped [res.end], which finalizes again: [flush] is called twice and
    [finish] is called twice. *)
Lemma finalization_twice_counterexample :
  List.filter isFlush
    (trace (snd (resEnd Sample.env [] Sample.afterThrowingHandler)))
  = [EvFlush 2000; EvFlush 2000]
  /\ List.filter isFinish
       (trace (snd (resEnd Sample.env [] Sample.afterThrowingHandler)))
     = [EvFinish 0; EvFinish 0]
  /\ length (List.filter isFlush
               (trace (snd (resEnd Sample.env [] Sample.afterThrowingHandler))))
     <> 1.
Proof. vm_compute. repeat split. discriminate. Qed.

(** ** Running binds *)

Lemma bind_ok {A B : Type} (m : M A) (k : A -> M B) (w w' : World) (a : A) :
  m w = (Ok a, w') -> bind m k w = k a w'.
Proof. intros H. unfold bind. by rewrite H. Qed.

Lemma bind_throw {A B : Type} (m : M A) (k : A -> M B) (w w' : World) (e : JsValue) :
  m w = (Throw e, w') -> bind m k w = (Throw e, w').
Proof. intros H. unfold bind. by rewrite H. Qed.

Lemma bind_bind {A B C : Type} (m : M A) (k : A -> M B) (h : B -> M C) (w : World) :
  bind m (fun x => bind (k x) h) w = bind (bind m k) h w.
Proof. unfold bind. destruct (m w) as [[a|e] w']; reflexivity. Qed.

Lemma tryCatch_ok {A : Type} (body : M A) (h : JsValue -> M A) (w w' : World) (a : A) :
  body w = (Ok a, w') -> tryCatch body h w = (Ok a, w').
Proof. intros H. unfold tryCatch. by rewrite H. Qed.

Lemma tryCatch_throw {A : Type} (body : M A) (h : JsValue -> M A) (w w' : World) (e : JsValue) :
  body w = (Throw e, w') -> tryCatch body h w = h e w'.
Proof. intros H. unfold tryCatch. by rewrite H. Qed.

(** ** The handler wrapper *)

Section HandlerWrapper.

Context (env : Env) (strip : string -> string).

Lemma handlerEntry_run (req : Request) (w : World) :
  (modifyRes (fun r => setEndMethod (wrapEndMethod (endMethod r)) r) ;;
   startRequestTransaction env strip req) w = (Ok tt, handlerEntry env strip req w).
Proof.
  unfold handlerEntry, startRequestTransaction, when, debugLog, when,
    startTransaction, modifyRes, bind, emit, ret, tick, alloc.
  simpl.
  destruct (hasScope env), (tracingEnabled env), (sentryTrace req),
    (debugBuild env); reflexivity.
Qed.

Lemma handlerEntry_res (req : Request) (w : World) :
  endMethod (res (handlerEntry env strip req w)) = wrapEndMethod (endMethod (res w))
  /\ statusCode (res (handlerEntry env strip req w)) = statusCode (res w)
  /\ sentryTransaction (res (handlerEntry env strip req w)) =
       (if hasScope env && tracingEnabled env
        then Some (length (heap w))
        else sentryTransaction (res w)).
Proof.
  unfold handlerEntry, startRequestTransaction, when, debugLog, when,
    startTransaction, modifyRes, bind, emit, ret, tick, alloc.
  simpl.
  destruct (hasScope env), (tracingEnabled env), (sentryTrace req),
    (debugBuild env); simpl; auto.
Qed.

Lemma callHandler_run (origHandler : Handler) (req : Request) (w : World) :
  callHandler origHandler req w =
    (hOutcome (origHandler req (res w)), afterHandler origHandler req w).
Proof.
  unfold afterHandler, callHandler, setStatus, modifyRes, liftResult,
    bind, emit, ret, throw. simpl.
  destruct (origHandler req (res w)) as [[[c m]|] [v|e]]; reflexivity.
Qed.

Lemma afterHandler_keeps (origHandler : Handler) (req : Request) (w : World) :
  endMethod (res (afterHandler origHandler req w)) = endMethod (res w)
  /\ sentryTransaction (res (afterHandler origHandler req w))
     = sentryTransaction (res w)
  /\ heap (afterHandler origHandler req w) = heap w
  /\ stash (afterHandler origHandler req w) = stash w.
Proof.
  unfold afterHandler, callHandler, setStatus, modifyRes, liftResult,
    bind, emit, ret, throw. simpl.
  destruct (origHandler req (res w)) as [[[c m]|] [v|e]]; simpl; auto.
Qed.

Lemma beforeErrorFinalization_spec (e : JsValue) (w : World) :
  (when (hasScope env)
     (emit EvAddMechanismProcessor ;;
      emit (EvCaptureException (objectify e))) ;;
   setStatus 500 "Internal Server Error") w
  = (Ok tt, beforeErrorFinalization env e w)
  /\ statusCode (res (beforeErrorFinalization env e w)) = 500
  /\ statusMessage (res (beforeErrorFinalization env e w)) = "Internal Server Error"
  /\ endMethod (res (beforeErrorFinalization env e w)) = endMethod (res w)
  /\ sentryTransaction (res (beforeErrorFinalization env e w))
     = sentryTransaction (res w)
  /\ heap (beforeErrorFinalization env e w) = heap w
  /\ trace (beforeErrorFinalization env e w)
     = trace w ++ captureEvents env e ++ [EvSetStatus 500 "Internal Server Error"].
Proof.
  unfold beforeErrorFinalization, captureEvents, when, setStatus, modifyRes,
    bind, emit, ret. simpl.
  destruct (hasScope env); simpl; repeat split; auto.
  by rewrite <- !app_assoc.
Qed.

(** The error path of [withSentry], step by step. *)
Lemma withSentry_throw (origHandler : Handler) (req : Request) (w : World) (e : JsValue) :
  hOutcome (origHandler req (res (handlerEntry env strip req w))) = Throw e ->
  withSentry env strip origHandler req w =
    (Throw (objectify e),
     finalized env
       (beforeErrorFinalization env e
          (afterHandler origHandler req (handlerEntry env strip req w)))).
Proof.
  intros He. unfold withSentry.
  pose proof (handlerEntry_run req w) as Hentry.
  unfold bind at 1 in Hentry. unfold bind at 1.
  unfold modifyRes at 1 in Hentry. unfold modifyRes at 1.
  cbn beta iota in *.
  rewrite (bind_ok _ _ _ _ _ Hentry).
  destruct (beforeErrorFinalization_spec e
              (afterHandler origHandler req (handlerEntry env strip req w))) as [Hb _].
  erewrite tryCatch_throw.
  2:{ erewrite bind_throw; [reflexivity|]. rewrite callHandler_run, He. reflexivity. }
  cbn beta zeta.
  rewrite bind_bind. rewrite (bind_ok _ _ _ _ _ Hb).
  erewrite bind_ok by apply finishSentryProcessing_run.
  reflexivity.
Qed.

End HandlerWrapper.

Section HandlerWrapperRuns.

Context (env : Env) (strip : string -> string).

Lemma afterSuccess_spec (w : World) :
  when (devWarning env) (emit EvConsoleWarn) w = (Ok tt, afterSuccess env w)
  /\ res (afterSuccess env w) = res w
  /\ heap (afterSuccess env w) = heap w
  /\ exists evs,
       trace (afterSuccess env w) = trace w ++ evs
       /\ List.filter isStartTransaction evs = [].
Proof.
  unfold afterSuccess, when, emit, ret. destruct (devWarning env); simpl.
  - repeat split; eauto.
  - repeat split; auto. exists []. by rewrite app_nil_r.
Qed.

(** The success path of [withSentry]. *)
Lemma withSentry_ok (origHandler : Handler) (req : Request) (w : World) (v : JsValue) :
  hOutcome (origHandler req (res (handlerEntry env strip req w))) = Ok v ->
  withSentry env strip origHandler req w =
    (Ok v, afterSuccess env (afterHandler origHandler req (handlerEntry env strip req w))).
Proof.
  intros Hv. unfold withSentry.
  pose proof (handlerEntry_run env strip req w) as Hentry.
  unfold bind at 1 in Hentry. unfold bind at 1.
  unfold modifyRes at 1 in Hentry. unfold modifyRes at 1.
  cbn beta iota in *.
  rewrite (bind_ok _ _ _ _ _ Hentry).
  erewrite tryCatch_ok; [reflexivity|].
  erewrite bind_ok by (rewrite callHandler_run, Hv; reflexivity).
  destruct (afterSuccess_spec
              (afterHandler origHandler req (handlerEntry env strip req w)))
    as [Hs _].
  erewrite bind_ok by exact Hs. reflexivity.
Qed.

Lemma afterHandler_trace (origHandler : Handler) (req : Request) (w : World) :
  exists evs,
    trace (afterHandler origHandler req w) = trace w ++ EvCallOrig :: evs
    /\ List.filter isStartTransaction evs = [].
Proof.
  unfold afterHandler, callHandler, setStatus, modifyRes, liftResult,
    bind, emit, ret, throw. simpl.
  destruct (origHandler req (res w)) as [[[c m]|] [v|e]]; simpl;
    rewrite <- ?app_assoc; eauto.
Qed.

(** Whatever the handler does, the wrapped handler leaves [res.end]
    wrapped, and its trace continues the trace at the handler's entry. *)
Lemma withSentry_final_world (origHandler : Handler) (req : Request) (w : World) :
  endMethod (res (snd (withSentry env strip origHandler req w)))
    = wrapEndMethod (endMethod (res w))
  /\ exists evs,
       trace (snd (withSentry env strip origHandler req w))
       = trace (handlerEntry env strip req w) ++ evs
       /\ List.filter isStartTransaction evs = [].
Proof.
  destruct (handlerEntry_res env strip req w) as (Hend & _ & _).
  destruct (afterHandler_keeps origHandler req (handlerEntry env strip req w))
    as (Hk & _).
  destruct (afterHandler_trace origHandler req (handlerEntry env strip req w))
    as (hev & Hht & Hhs).
  destruct (hOutcome (origHandler req (res (handlerEntry env strip req w))))
    as [v|e] eqn:Hout.
  - rewrite (withSentry_ok _ _ _ _ Hout). simpl.
    destruct (afterSuccess_spec
                (afterHandler origHandler req (handlerEntry env strip req w)))
      as (_ & Hr & _ & sev & Hst & Hss).
    rewrite Hr, Hk, Hend. split; [reflexivity|].
    rewrite Hst, Hht, <- app_assoc. eexists. split; [reflexivity|].
    simpl. by rewrite List.filter_app, Hhs, Hss.
  - rewrite (withSentry_throw _ _ _ _ _ _ Hout).
    cbn [snd]. unfold finalized. cbn [trace res].
    destruct (beforeErrorFinalization_spec env e
                (afterHandler origHandler req (handlerEntry env strip req w)))
      as (_ & _ & _ & Hb & _ & _ & Hbt).
    rewrite Hb, Hk, Hend. split; [reflexivity|].
    rewrite Hbt, Hht, <- !app_assoc. eexists. split; [reflexivity|].
    rewrite !List.filter_app, finalizeEvents_no_start. cbn [List.filter isStartTransaction app].
    rewrite Hhs. unfold captureEvents. by destruct (hasScope env).
Qed.

Lemma callEnd_trace (m : EndMethod) (args : list JsValue) :
  forall w, exists evs, trace (snd (callEnd env m args w)) = trace w ++ evs.
Proof.
  induction m as [|origEnd IH]; intros w; simpl.
  - unfold bind, emit, ret. simpl. eauto.
  - erewrite bind_ok by apply finishSentryProcessing_run.
    destruct (IH (finalized env w)) as (evs & ->). simpl.
    rewrite <- app_assoc. eauto.
Qed.

(** C1: the wrapped handler replaces [res.end] by [newEnd]; whenever that
    method is called, [finishSentryProcessing] runs to its end first (the
    transaction, if any, is finished, then [flush] is awaited) and only
    then is the original method called: everything the original method
    does comes after the flush in the trace. *)
Theorem withSentry_close_waits_for_finalization
    (origHandler : Handler) (req : Request) (w : World) :
  let w1 := snd (withSentry env strip origHandler req w) in
  endMethod (res w1) = wrapEndMethod (endMethod (res w))
  /\ forall (w2 : World) (args : list JsValue),
       endMethod (res w2) = endMethod (res w1) ->
       exists w3 closeEvents,
         finishSentryProcessing env w2 = (Ok tt, w3)
         /\ resEnd env args w2 = callEnd env (endMethod (res w)) args w3
         /\ trace w3 = trace w2 ++ finalizeEvents env w2
         /\ trace (snd (resEnd env args w2))
            = trace w2 ++ finalizeEvents env w2 ++ closeEvents
         /\ List.filter isFlush (finalizeEvents env w2) = [EvFlush 2000]
         /\ List.filter isOrigEnd (finalizeEvents env w2) = []
         /\ (forall r, sentryTransaction (res w2) = Some r ->
               Before (EvFinish r) (EvFlush 2000) (finalizeEvents env w2))
         /\ (endMethod (res w) = NativeEnd -> closeEvents = [EvOrigEnd args]).
Proof.
  intros w1.
  destruct (withSentry_final_world origHandler req w) as [Hend _].
  fold w1 in Hend. split; [exact Hend|].
  intros w2 args Hw2. rewrite Hend in Hw2.
  assert (Hrun : resEnd env args w2
                 = callEnd env (endMethod (res w)) args (finalized env w2)).
  { unfold resEnd. rewrite Hw2. unfold wrapEndMethod. simpl.
    erewrite bind_ok by apply finishSentryProcessing_run. reflexivity. }
  destruct (callEnd_trace (endMethod (res w)) args (finalized env w2))
    as (cev & Hcev).
  exists (finalized env w2), cev.
  split; [apply finishSentryProcessing_run|].
  split; [exact Hrun|].
  split; [reflexivity|].
  split; [rewrite Hrun, Hcev; simpl; by rewrite <- app_assoc|].
  split; [apply finalizeEvents_flush_once|].
  split; [apply finalizeEvents_flush_once|].
  split; [intros r; apply finalizeEvents_finish_before_flush|].
  intros Hnative. rewrite Hnative in Hcev. simpl in Hcev.
  unfold bind, emit, ret in Hcev. simpl in Hcev.
  by apply app_inv_head in Hcev.
Qed.

End HandlerWrapperRuns.

Lemma withSentry_close_waits_for_finalization_witness :
  endMethod (res Sample.afterOkHandler) = NewEnd NativeEnd
  /\ trace (snd (resEnd Sample.env [] Sample.afterOkHandler))
     = trace Sample.afterOkHandler
         ++ [EvSetHttpStatus 0 200; EvImmediate; EvFinish 0; EvFlush 2000]
         ++ [EvOrigEnd []].
Proof.
  destruct (withSentry_close_waits_for_finalization Sample.env
              stripUrlQueryAndFragment Sample.okHandler Sample.request Sample.world)
    as [Hend Hclose].
  split; [exact Hend|].
  destruct (Hclose Sample.afterOkHandler [] eq_refl)
    as (w3 & cev & _ & _ & _ & Htrace & _ & _ & _ & Hnative).
  rewrite Htrace, (Hnative eq_refl). reflexivity.
Defined.

(** C2 (as the code has it): when the user's handler throws [e], the
    wrapped handler sets the status to 500, then runs
    [finishSentryProcessing] to its end (the transaction, if any, records
    status 500 and is finished, then [flush] is awaited), and only then
    rejects; it rejects with [objectify e], which is [e] itself unless [e]
    is a primitive, and the wrapper object of [e] when it is. *)
Theorem withSentry_error_path
    (env : Env) (strip : string -> string)
    (origHandler : Handler) (req : Request) (w : World) (e : JsValue) :
  hOutcome (origHandler req (res (handlerEntry env strip req w))) = Throw e ->
  exists w500 wfin,
    withSentry env strip origHandler req w = (Throw (objectify e), wfin)
    /\ trace w500
       = trace (afterHandler origHandler req (handlerEntry env strip req w))
           ++ captureEvents env e ++ [EvSetStatus 500 "Internal Server Error"]
    /\ statusCode (res w500) = 500
    /\ finishSentryProcessing env w500 = (Ok tt, wfin)
    /\ trace wfin = trace w500 ++ finalizeEvents env w500
    /\ statusCode (res wfin) = 500
    /\ List.filter isFlush (finalizeEvents env w500) = [EvFlush 2000]
    /\ (forall r, sentryTransaction (res w500) = Some r ->
          In (EvSetHttpStatus r 500) (finalizeEvents env w500)
          /\ Before (EvFinish r) (EvFlush 2000) (finalizeEvents env w500))
    /\ ((forall p, e <> VPrim p) -> objectify e = e)
    /\ (forall p, e = VPrim p -> objectify e = VWrapper p).
Proof.
  intros He.
  set (wh := afterHandler origHandler req (handlerEntry env strip req w)).
  destruct (beforeErrorFinalization_spec env e wh)
    as (_ & Hcode & _ & _ & _ & _ & Htrace).
  exists (beforeErrorFinalization env e wh),
    (finalized env (beforeErrorFinalization env e wh)).
  split; [by apply withSentry_throw|].
  split; [exact Htrace|].
  split; [exact Hcode|].
  split; [apply finishSentryProcessing_run|].
  split; [reflexivity|].
  split; [exact Hcode|].
  split; [apply finalizeEvents_flush_once|].
  split.
  { intros r Hr. split; [|by apply finalizeEvents_finish_before_flush].
    unfold finalizeEvents, finishEvents. rewrite Hr, Hcode. simpl. by left. }
  split.
  - intros Hnp. destruct e; simpl; auto. by destruct (Hnp p).
  - intros p ->. reflexivity.
Qed.

Lemma withSentry_error_path_witness :
  fst (withSentry Sample.env stripUrlQueryAndFragment
         (Sample.throwingHandler (VObject 13)) Sample.request Sample.world)
  = Throw (VObject 13)
  /\ statusCode (res Sample.afterThrowingHandler) = 500.
Proof.
  destruct (withSentry_error_path Sample.env stripUrlQueryAndFragment
              (Sample.throwingHandler (VObject 13)) Sample.request Sample.world
              (VObject 13) eq_refl)
    as (w500 & wfin & Hrun & _ & _ & _ & _ & Hcode & _).
  unfold Sample.afterThrowingHandler. rewrite Hrun. simpl. auto.
Defined.

(** C2, the claim as stated fails: a handler that throws the primitive
    string [boom] makes the wrapped handler reject with the wrapper object
    of that string, which is not the value that was thrown. *)
Lemma withSentry_rethrow_counterexample :
  fst (withSentry Sample.env stripUrlQueryAndFragment
         (Sample.throwingHandler (VPrim (PStr "boom")))
         Sample.request Sample.world)
  = Throw (VWrapper (PStr "boom"))
  /\ fst (withSentry Sample.env stripUrlQueryAndFragment
            (Sample.throwingHandler (VPrim (PStr "boom")))
            Sample.request Sample.world)
     <> Throw (VPrim (PStr "boom")).
Proof. split; [reflexivity|]. vm_compute. discriminate. Qed.

(** ** The name of the transaction *)

Lemma handlerEntry_tracing (env : Env) (strip : string -> string)
    (req : Request) (w : World) :
  hasScope env = true ->
  tracingEnabled env = true ->
  exists logs,
    forallb isLoggerLog logs = true
    /\ trace (handlerEntry env strip req w)
       = trace w ++ [EvAddRequestDataProcessor] ++ logs
           ++ [EvStartTransaction (length (heap w)) (transactionName strip req)
                 (Some "http.server") (sentryTrace req) (baggage req);
               EvSetSpan (length (heap w))]
    /\ heap (handlerEntry env strip req w)
       = heap w ++ [mkSpan (newSpanId env (length (heap w)))
                      (transactionName strip req) (Some "http.server")
                      (Some "route") None (clock w) None None]
    /\ sentryTransaction (res (handlerEntry env strip req w))
       = Some (length (heap w)).
Proof.
  intros Hs Ht.
  unfold handlerEntry, startRequestTransaction, when, debugLog, when,
    startTransaction, modifyRes, bind, emit, ret, tick, alloc.
  simpl. rewrite Hs, Ht.
  destruct (sentryTrace req), (debugBuild env); simpl;
    [exists [EvLoggerLog "[Tracing] Continuing trace"] | exists [] ..];
    rewrite <- ?app_assoc; simpl; auto.
Qed.

(** C8: with tracing on, for the request [/users/42?x=1] whose route
    parameter is [id = 42] and whose method is GET (or absent), the
    transaction that the wrapper starts is named [GET /users/[id]]: the
    query string is taken off, the segment [42] is replaced by [[id]], and
    the upper-cased method and a blank come first. *)
Theorem withSentry_transaction_name
    (env : Env) (strip : string -> string)
    (origHandler : Handler) (req : Request) (w : World) :
  strip "/users/42?x=1" = "/users/42" ->
  hasScope env = true ->
  tracingEnabled env = true ->
  url req = Some "/users/42?x=1" ->
  (method req = None \/ method req = Some "GET" \/ method req = Some "get") ->
  (query req = Some [("id", QString "42")]
   \/ query req = Some [("x", QString "1"); ("id", QString "42")]
   \/ query req = Some [("id", QString "42"); ("x", QString "1")]) ->
  transactionName strip req = "GET /users/[id]"
  /\ sentryTransaction (res (handlerEntry env strip req w)) = Some (length (heap w))
  /\ name (heap (handlerEntry env strip req w) !!! length (heap w))
     = "GET /users/[id]"
  /\ exists before after,
       trace (snd (withSentry env strip origHandler req w))
       = trace w ++ before
           ++ [EvStartTransaction (length (heap w)) "GET /users/[id]"
                 (Some "http.server") (sentryTrace req) (baggage req)]
           ++ after
       /\ List.filter isStartTransaction (before ++ after) = [].
Proof.
  intros Hstrip Hs Ht Hurl Hm Hq.
  assert (Hname : transactionName strip req = "GET /users/[id]").
  { unfold transactionName, reqMethodOf, reqPathOf. rewrite Hurl, Hstrip.
    destruct Hm as [-> | [-> | ->]]; destruct Hq as [-> | [-> | ->]];
      reflexivity. }
  split; [exact Hname|].
  destruct (handlerEntry_tracing env strip req w Hs Ht)
    as (logs & Hlogs & Htrace & Hheap & Hres).
  rewrite Hname in Htrace, Hheap.
  split; [exact Hres|].
  split.
  { rewrite Hheap. rewrite lookup_total_app_r by lia.
    rewrite Nat.sub_diag. reflexivity. }
  destruct (withSentry_final_world env strip origHandler req w)
    as (_ & evs & Hfinal & Hnostart).
  exists ([EvAddRequestDataProcessor] ++ logs), ([EvSetSpan (length (heap w))] ++ evs).
  split.
  { rewrite Hfinal, Htrace, <- !app_assoc. reflexivity. }
  rewrite !List.filter_app, Hnostart. simpl.
  clear -Hlogs. induction logs as [|[] rest IH]; simpl in *; try discriminate; auto.
Qed.

Lemma withSentry_transaction_name_witness :
  transactionName stripUrlQueryAndFragment Sample.request = "GET /users/[id]"
  /\ name (heap (handlerEntry Sample.env stripUrlQueryAndFragment
                   Sample.request Sample.world) !!! 0)
     = "GET /users/[id]".
Proof.
  destruct (withSentry_transaction_name Sample.env stripUrlQueryAndFragment
              Sample.okHandler Sample.request Sample.world
              eq_refl eq_refl eq_refl eq_refl
              (or_intror (or_introl eq_refl))
              (or_intror (or_introl eq_refl)))
    as (Hname & _ & Hheap & _).
  split; [exact Hname | exact Hheap].
Defined.

(** ** The page wrappers *)

Ltac run_page :=
  unfold startOrGetPageRouteTransaction, hitName, asTransaction,
    getTransactionById, stashGet, stashTransaction, deleteTransaction,
    startTransaction, startChild, setName, finish, readSpan, updateSpan,
    callOrig, liftResult, debugLog, when, tick, alloc, emit, bind, ret, throw;
  cbn [fst snd heap stash stashUndefined clock immediates flushes res trace
       setHeap setStash setStashUndefined setClock setImmediates setFlushes
       setRes setTrace default from_option Datatypes.id].

Ltac step_page :=
  cbn beta iota zeta delta
    [fst snd heap stash stashUndefined clock immediates flushes res trace
     setHeap setStash setStashUndefined setClock setImmediates setFlushes
     setRes setTrace].

Lemma stashLookup_Some (w : World) (k : string) (r : ref) :
  stashLookup w k = Some r ->
  exists st, stash w = Some st /\ st !! k = Some r.
Proof.
  unfold stashLookup. destruct (stash w) as [st|]; [eauto|discriminate].
Qed.

(** *** Reading the stash object *)

Lemma stashProperty_empty (k : string) :
  stashProperty ∅ None k = inheritedProperty k.
Proof.
  unfold stashProperty. rewrite lookup_empty. by destruct (String.eqb k "undefined").
Qed.

Lemma stashProperty_insert (own : gmap string ref) (und : option string)
    (sid : string) (r : ref) (k : string) :
  stashProperty (<[sid := r]> own)
    (if String.eqb sid "undefined" then None else und) k
  = if decide (k = sid) then Some (HitTransaction r) else stashProperty own und k.
Proof.
  unfold stashProperty. case_decide as Hk.
  - subst k. by rewrite lookup_insert_eq.
  - rewrite lookup_insert_ne by done. destruct (own !! k); [reflexivity|].
    destruct (String.eqb k "undefined") eqn:Ek; [|reflexivity].
    apply String.eqb_eq in Ek. subst k.
    destruct (String.eqb sid "undefined") eqn:Es; [|reflexivity].
    apply String.eqb_eq in Es. by destruct Hk.
Qed.

Lemma stashProperty_delete (own : gmap string ref) (und : option string)
    (id k : string) :
  stashProperty (delete id own)
    (if String.eqb id "undefined" then None else und) k
  = if decide (k = id) then inheritedProperty k else stashProperty own und k.
Proof.
  unfold stashProperty. case_decide as Hk.
  - subst k. rewrite lookup_delete_eq.
    by destruct (String.eqb id "undefined").
  - rewrite lookup_delete_ne by done. destruct (own !! k); [reflexivity|].
    destruct (String.eqb k "undefined") eqn:Ek; [|reflexivity].
    apply String.eqb_eq in Ek. subst k.
    destruct (String.eqb id "undefined") eqn:Es; [|reflexivity].
    apply String.eqb_eq in Es. by destruct Hk.
Qed.

Lemma stashProperty_foreign (own : gmap string ref) (und : option string)
    (member k : string) :
  stashProperty (delete "undefined" own) (Some member) k
  = if decide (k = "undefined") then Some (HitInherited member)
    else stashProperty own und k.
Proof.
  unfold stashProperty. case_decide as Hk.
  - subst k. by rewrite lookup_delete_eq.
  - rewrite lookup_delete_ne by done. destruct (own !! k); [reflexivity|].
    destruct (String.eqb k "undefined") eqn:Ek; [|reflexivity].
    apply String.eqb_eq in Ek. by destruct Hk.
Qed.

Lemma stashGet_own (w : World) (k : string) (r : ref) :
  stashLookup w k = Some r -> stashGet w k = Some (HitTransaction r).
Proof.
  unfold stashLookup, stashGet, stashProperty.
  destruct (stash w) as [st|]; [|discriminate]. by intros ->.
Qed.

Lemma stashGet_transaction (w : World) (k : string) (r : ref) :
  stashGet w k = Some (HitTransaction r) -> stashLookup w k = Some r.
Proof.
  unfold stashLookup, stashGet, stashProperty, inheritedProperty.
  destruct (stash w) as [st|]; [|discriminate].
  destruct (st !! k); [by intros [= ->]|].
  destruct (if String.eqb k "undefined" then stashUndefined w else None);
    [discriminate|].
  by destruct (isObjectPrototypeMember k).
Qed.

Lemma stashGet_None (w : World) (k : string) :
  stashGet w k = None -> stashLookup w k = None.
Proof.
  unfold stashLookup, stashGet, stashProperty.
  destruct (stash w) as [st|]; [|reflexivity].
  by destruct (st !! k).
Qed.

(** The empty id, under which [wrappedGSSP] looks up, names nothing that
    is inherited. *)
Lemma stashGet_empty_id (w : World) :
  stashGet w "" = HitTransaction <$> stashLookup w "".
Proof.
  unfold stashLookup, stashGet, stashProperty.
  destruct (stash w) as [st|]; [|reflexivity].
  by destruct (st !! "").
Qed.

Lemma stashGet_plain (w : World) (k : string) :
  findsInherited w k = false ->
  stashGet w k = HitTransaction <$> stashLookup w k.
Proof.
  unfold findsInherited. intros Hf.
  destruct (stashGet w k) as [[r|m]|] eqn:Hget; [| discriminate |].
  - by rewrite (stashGet_transaction _ _ _ Hget).
  - by rewrite (stashGet_None _ _ Hget).
Qed.

Lemma getTransactionById_lookup (k : string) (w : World) :
  getTransactionById (Some k) w = (Ok (stashGet w k), w).
Proof. reflexivity. Qed.

Lemma stashTransaction_run (r : ref) (w : World) :
  stashTransaction (HitTransaction r) w =
    (Ok tt,
     setStashUndefined
       (if String.eqb (spanId (heap w !!! r)) "undefined" then None
        else match stash w with
             | Some _ => stashUndefined w
             | None => None
             end)
       (setStash (Some (<[spanId (heap w !!! r) := r]> (default ∅ (stash w)))) w)).
Proof. reflexivity. Qed.

(** What a lookup yields after [stashTransaction]. *)
Lemma stashGet_after_stash (r : ref) (w : World) (k : string) :
  stashGet (snd (stashTransaction (HitTransaction r) w)) k
  = if decide (k = spanId (heap w !!! r)) then Some (HitTransaction r)
    else lookupAfterCreation w k.
Proof.
  rewrite stashTransaction_run. unfold lookupAfterCreation, stashGet.
  cbn [snd stash stashUndefined setStash setStashUndefined].
  rewrite stashProperty_insert.
  destruct (stash w); cbn [default from_option Datatypes.id];
    [reflexivity|by rewrite stashProperty_empty].
Qed.

(** What a lookup yields after [deleteTransaction]. *)
Lemma stashGet_after_delete (id : string) (w : World) (k : string) :
  stashGet (snd (deleteTransaction id w)) k
  = if decide (k = id)
    then match stash w with
         | Some _ => inheritedProperty k
         | None => None
         end
    else stashGet w k.
Proof.
  unfold deleteTransaction, stashGet. cbn [snd].
  destruct (stash w) as [st|] eqn:Hst;
    cbn [stash stashUndefined setStash setStashUndefined].
  - apply stashProperty_delete.
  - rewrite Hst. by case_decide.
Qed.

Lemma stashGet_frame (w w' : World) (k : string) :
  stash w' = stash w -> stashUndefined w' = stashUndefined w ->
  stashGet w' k = stashGet w k.
Proof. unfold stashGet. by intros -> ->. Qed.

Ltac keep_field g :=
  repeat first
    [ rewrite (alter_keeps_field g)
        by (let o := fresh "o" in
            intros o;
            first [ reflexivity
                  | unfold withFinish; destruct (endTimestamp o); reflexivity ])
    | rewrite lookup_total_app_l by (rewrite ?length_alter; lia) ].

Section AppStages.

Context (env : Env).

Lemma wrappedUnderscoreApp_stages (orig : UnderscoreAppComponent)
    (contextData : UnderscoreAppContextData) :
  tracingEnabled env = true ->
  isBuild env = false ->
  wrappedUnderscoreApp env orig contextData =
    (emit (EvConsoleLog "I'm in the wrappedUnderscoreApp function returned by appWithSentry") ;;
     activeTransaction <- appAcquire env contextData ;;
     appRest env orig contextData activeTransaction).
Proof.
  intros Ht Hb. unfold wrappedUnderscoreApp, appAcquire, appRest.
  rewrite Ht, Hb. reflexivity.
Qed.

End AppStages.

Section AppRuns.

Context (env : Env).

Lemma appAcquire_hit (contextData : UnderscoreAppContextData) (w : World) (t : StashHit) :
  stashGet w (appKey contextData) = Some t ->
  appAcquire env contextData w = (Ok t, w).
Proof.
  intros Hget. unfold appAcquire, appKey in *. unfold bind, getTransactionById.
  by rewrite Hget.
Qed.

Lemma appAcquire_found (contextData : UnderscoreAppContextData) (w : World) (r : ref) :
  stashLookup w (appKey contextData) = Some r ->
  appAcquire env contextData w = (Ok (HitTransaction r), w).
Proof. intros Hst. by apply appAcquire_hit, stashGet_own. Qed.

Lemma appAcquire_fresh (contextData : UnderscoreAppContextData) (w : World) :
  stashGet w (appKey contextData) = None ->
  exists wA,
    appAcquire env contextData w = (Ok (HitTransaction (length (heap w))), wA)
    /\ heap wA = heap w ++ [appTransaction env contextData w]
    /\ stashLookup wA (newSpanId env (length (heap w))) = Some (length (heap w))
    /\ trace wA = trace w ++ [EvStartTransaction (length (heap w))
                               (route contextData) None None None].
Proof.
  intros Hst.
  assert (Hget : getTransactionById (transactionIdOf (pageProps contextData)) w
                 = (Ok None, w)).
  { unfold getTransactionById. unfold appKey in Hst. by rewrite Hst. }
  unfold appAcquire. erewrite bind_ok by exact Hget.
  run_page. step_page.
  eexists. split; [reflexivity|]. step_page.
  rewrite list_lookup_total_middle by reflexivity.
  unfold stashLookup. step_page. cbn [spanId].
  split; [reflexivity|]. split; [apply lookup_insert_eq|reflexivity].
Qed.

(** When the user's component throws, nothing after its call runs. *)
Lemma appRest_throw (orig : UnderscoreAppComponent)
    (contextData : UnderscoreAppContextData) (r : ref) (w : World) (e : JsValue) :
  orig contextData = Throw e ->
  exists w',
    appRest env orig contextData (HitTransaction r) w = (Throw e, w')
    /\ stash w' = stash w
    /\ heap w' = alter (withName (route contextData) "route") r (heap w)
                   ++ [appChild env r w]
    /\ trace w' = trace w ++ appRenameEvents env contextData r w.
Proof.
  intros He. unfold appRest, appRenameEvents, appChild, logEvents.
  run_page. rewrite He. step_page.
  destruct (debugBuild env); step_page;
    (eexists; split; [reflexivity|]); step_page;
    rewrite length_alter, <- ?app_assoc; auto.
Qed.

(** When the user's component returns, the child span and the
    transaction are finished and the entry of the transaction is
    deleted. *)
Lemma appRest_ok (orig : UnderscoreAppComponent)
    (contextData : UnderscoreAppContextData) (r : ref) (w : World) (jsx : JsValue) :
  orig contextData = Ok jsx ->
  exists w',
    appRest env orig contextData (HitTransaction r) w = (Ok jsx, w')
    /\ heap w' =
         alter (withFinish (S (S (clock w)))) r
           (alter (withFinish (S (clock w))) (length (heap w))
              (alter (withName (route contextData) "route") r (heap w)
                 ++ [appChild env r w]))
    /\ stash w' = (delete (spanId (heap w' !!! r)) <$> stash w)
    /\ trace w' = trace w ++ appRenameEvents env contextData r w
                    ++ [EvFinish (length (heap w)); EvFinish r].
Proof.
  intros Hv. unfold appRest, appRenameEvents, appChild, logEvents.
  run_page. rewrite Hv. step_page.
  destruct (debugBuild env); step_page;
    destruct (stash w) as [st|] eqn:Hstash; step_page;
    (eexists; split; [reflexivity|]); step_page;
    rewrite ?length_alter, <- ?app_assoc; auto.
Qed.

(** A lookup after the second half has run to its end sees what it sees
    after [deleteTransaction] by the span id of the transaction. *)
Lemma appRest_ok_lookup (orig : UnderscoreAppComponent)
    (contextData : UnderscoreAppContextData) (r : ref) (w : World) (jsx : JsValue)
    (k : string) :
  orig contextData = Ok jsx ->
  r < length (heap w) ->
  stashGet (snd (appRest env orig contextData (HitTransaction r) w)) k
  = stashGet (snd (deleteTransaction (spanId (heap w !!! r)) w)) k.
Proof.
  intros Hv Hlt. apply stashGet_frame.
  all: unfold appRest; run_page; rewrite Hv; step_page.
  all: destruct (debugBuild env); step_page;
         destruct (stash w) as [st|] eqn:Hstash; step_page;
         rewrite ?Hstash; keep_field spanId; reflexivity.
Qed.

(** When the lookup gave an inherited value, the call of [setName] on it
    throws; the component is not called. *)
Lemma appRest_inherited (orig : UnderscoreAppComponent)
    (contextData : UnderscoreAppContextData) (member : string) (w : World) :
  exists logs,
    appRest env orig contextData (HitInherited member) w
    = (Throw (VTypeError "activeTransaction.setName is not a function"),
       setTrace (trace w ++ logs) w)
    /\ forallb isLoggerLog logs = true.
Proof.
  unfold appRest. run_page.
  destruct (debugBuild env); step_page.
  - eexists [_]. split; reflexivity.
  - exists []. rewrite app_nil_r. split; [|reflexivity].
    f_equal. by destruct w.
Qed.

End AppRuns.

Section DataLoadingRuns.

Context (env : Env).

(** The traced branch of [wrappedGSP] when the user's function resolves. *)
Lemma wrappedGSP_traced (gSP : GetStaticPropsFunction)
    (context : GetStaticPropsContextData) (w : World) (fp : PropsResult) :
  tracingEnabled env = true ->
  isBuild env = false ->
  gSP context = Ok fp ->
  exists w1,
    wrappedGSP env gSP context w
    = (Ok (setTransactionId (newSpanId env (length (heap w))) fp), w1)
    /\ heap w1 = alter (withFinish (S (S (clock w)))) (S (length (heap w)))
                   (heap w ++ [gspTransaction env w; gspChild env w])
    /\ stash w1 = Some (<[newSpanId env (length (heap w)) := length (heap w)]>
                          (default ∅ (stash w)))
    /\ trace w1 = trace w
         ++ [EvConsoleLog "I'm in the the `wrappedGSP` function returned by withSentry";
             EvStartTransaction (length (heap w)) "unknown transaction"
               (Some "http.server") None None;
             EvStartChild (length (heap w)) (S (length (heap w))) "getStaticProps";
             EvCallOrig;
             EvFinish (S (length (heap w)))].
Proof.
  intros Ht Hb Hfp. unfold wrappedGSP, gspTransaction, gspChild.
  rewrite Ht, Hb. cbn [andb negb]. run_page. rewrite Hfp. step_page.
  rewrite !length_app. cbn [length]. rewrite !Nat.add_1_r, <- !app_assoc.
  cbn [app]. rewrite !list_lookup_total_middle by reflexivity. cbn [spanId].
  eexists. split; [reflexivity|]. step_page. auto.
Qed.

(** The traced branch of [wrappedGSSP] when the user's function
    resolves. *)
Lemma wrappedGSSP_traced (gSSP : GetServerSidePropsFunction) (rt : string)
    (context : GetServerSidePropsContext) (w : World) (fp : PropsResult) :
  tracingEnabled env = true ->
  isBuild env = false ->
  Str.endsWith ".map" (resolvedUrl context) = false ->
  gSSP context = Ok fp ->
  stashValid w ->
  exists w1 id,
    wrappedGSSP env gSSP rt context w = (Ok (setTransactionId id fp), w1)
    /\ gsspRef w < length (heap w1)
    /\ spanId (heap w1 !!! gsspRef w) = id
    /\ stashLookup w1 id = Some (gsspRef w)
    /\ (forall r, r < length (heap w) ->
          spanId (heap w1 !!! r) = spanId (heap w !!! r)
          /\ startTimestamp (heap w1 !!! r) = startTimestamp (heap w !!! r))
    /\ exists evs,
         trace w1 = trace w
           ++ [EvConsoleLog "I'm in the the `wrappedGSSP` function returned by withSentry"]
           ++ gsspStartEvents rt w ++ evs
         /\ List.filter isStartTransaction evs = [].
Proof.
  intros Ht Hb Hmap Hfp Hvalid. unfold wrappedGSSP, gsspRef, gsspStartEvents.
  rewrite Ht, Hb, Hmap. cbn [andb negb].
  pose proof (stashGet_empty_id w) as Hget. unfold stashGet in Hget.
  destruct (stashLookup w "") as [r0|] eqn:Hlook; cbn [fmap option_fmap option_map] in Hget.
  - pose proof (Hvalid _ _ Hlook) as Hlt.
    destruct (stashLookup_Some _ _ _ Hlook) as (st & Hstash & Hst).
    run_page. rewrite Hget. step_page. rewrite Hfp. step_page.
    rewrite Hstash. step_page.
    eexists _, _. split; [reflexivity|]. step_page.
    rewrite !length_alter, length_app. cbn [length].
    split; [lia|]. split; [reflexivity|].
    split.
    { unfold stashLookup. step_page. cbn [default from_option Datatypes.id].
      keep_field spanId. apply lookup_insert_eq. }
    split.
    { intros r Hr. split; [keep_field spanId|keep_field startTimestamp]; reflexivity. }
    eexists. rewrite <- !app_assoc. split; [reflexivity|]. reflexivity.
  - run_page. rewrite Hget. step_page. rewrite Hfp. step_page.
    rewrite !length_app. cbn [length]. rewrite !Nat.add_1_r, <- !app_assoc.
    cbn [app]. rewrite (alter_keeps_field spanId) by apply withFinish_fields.
    rewrite !list_lookup_total_middle by reflexivity. cbn [spanId].
    eexists _, _. split; [reflexivity|]. step_page.
    rewrite !length_alter, !length_app. cbn [length].
    split; [lia|].
    split.
    { rewrite (alter_keeps_field spanId) by apply withFinish_fields.
      by rewrite list_lookup_total_middle. }
    split.
    { unfold stashLookup. step_page. apply lookup_insert_eq. }
    split.
    { intros r Hr. split; [keep_field spanId|keep_field startTimestamp]; reflexivity. }
    eexists. split; [reflexivity|]. reflexivity.
Qed.

End DataLoadingRuns.

(** ** Handing a transaction from a data-loading wrapper to [_app] *)

Lemma logEvents_no_start (env : Env) (msg : string) (evs : list Event) :
  List.filter isStartTransaction (logEvents env msg ++ evs)
  = List.filter isStartTransaction evs.
Proof. unfold logEvents. by destruct (debugBuild env). Qed.

Lemma wrappedUnderscoreApp_resumes (env : Env) (fp : PropsResult)
    (w1 : World) (r : ref) (id : string) :
  tracingEnabled env = true ->
  isBuild env = false ->
  props fp !! TRANSACTION_ID_KEY = Some (VPrim (PStr id)) ->
  stashLookup w1 id = Some r ->
  r < length (heap w1) ->
  spanId (heap w1 !!! r) = id ->
  ResumedByApp env fp w1 r.
Proof.
  intros Ht Hb Hprop Hst Hlt Hid. exists id.
  split; [exact Hprop|]. split; [exact Hst|]. split; [exact Hid|].
  intros orig rt.
  set (contextData := mkContextData (props fp) rt).
  set (wl := setTrace (trace w1 ++ [EvConsoleLog
             "I'm in the wrappedUnderscoreApp function returned by appWithSentry"]) w1).
  assert (Hkey : appKey contextData = id).
  { unfold appKey, transactionIdOf, contextData. cbn [pageProps]. by rewrite Hprop. }
  assert (Hacq : appAcquire env contextData wl = (Ok (HitTransaction r), wl)).
  { apply appAcquire_found. by rewrite Hkey. }
  assert (Hrun : wrappedUnderscoreApp env orig contextData w1
                 = appRest env orig contextData (HitTransaction r) wl).
  { rewrite (wrappedUnderscoreApp_stages env orig contextData Ht Hb).
    unfold bind at 1. unfold emit at 1. fold wl. cbn beta iota.
    by rewrite (bind_ok _ _ _ _ _ Hacq). }
  rewrite Hrun. clear Hrun.
  destruct (orig contextData) as [jsx|e] eqn:Horig.
  - destruct (appRest_ok env orig contextData r wl jsx Horig)
      as (w' & -> & Hheap & _ & Htrace).
    cbn [fst snd]. eexists. split; [reflexivity|].
    split; [rewrite Htrace; unfold wl; cbn [trace setTrace];
            rewrite <- !app_assoc; reflexivity|].
    split.
    { cbn [app List.filter isStartTransaction]. unfold appRenameEvents.
      rewrite <- app_assoc. by rewrite logEvents_no_start. }
    split.
    { apply in_cons, in_or_app. left. unfold appRenameEvents.
      apply in_or_app. right. cbn [route contextData]. by left. }
    rewrite Hheap. unfold wl. cbn [heap clock setTrace].
    split; [keep_field spanId|keep_field startTimestamp]; auto.
  - destruct (appRest_throw env orig contextData r wl e Horig)
      as (w' & -> & _ & Hheap & Htrace).
    cbn [fst snd]. eexists. split; [reflexivity|].
    split; [rewrite Htrace; unfold wl; cbn [trace setTrace];
            rewrite <- !app_assoc; reflexivity|].
    split.
    { cbn [app List.filter isStartTransaction]. unfold appRenameEvents.
      by rewrite logEvents_no_start. }
    split.
    { apply in_cons. unfold appRenameEvents.
      apply in_or_app. right. cbn [route contextData]. by left. }
    rewrite Hheap. unfold wl. cbn [heap clock setTrace].
    split; [keep_field spanId|keep_field startTimestamp]; auto.
Qed.

(** C3: with tracing on and outside a build, the id that [wrappedGSSP] or
    [wrappedGSP] writes under the reserved key of the props names, in the
    stash, the transaction the wrapper worked on; when these props reach
    [wrappedUnderscoreApp] as [pageProps], it takes that very transaction
    up (same object, same id, same start time) and starts none. *)
Theorem transaction_id_round_trip (env : Env) (w : World) :
  tracingEnabled env = true ->
  isBuild env = false ->
  stashValid w ->
  (forall (gSSP : GetServerSidePropsFunction) (rt : string)
          (context : GetServerSidePropsContext) (fp : PropsResult),
      Str.endsWith ".map" (resolvedUrl context) = false ->
      gSSP context = Ok fp ->
      exists fp' w1,
        wrappedGSSP env gSSP rt context w = (Ok fp', w1)
        /\ ResumedByApp env fp' w1 (gsspRef w))
  /\ (forall (gSP : GetStaticPropsFunction)
             (context : GetStaticPropsContextData) (fp : PropsResult),
        gSP context = Ok fp ->
        exists fp' w1,
          wrappedGSP env gSP context w = (Ok fp', w1)
          /\ startTimestamp (heap w1 !!! length (heap w)) = clock w
          /\ ResumedByApp env fp' w1 (length (heap w))).
Proof.
  intros Ht Hb Hvalid. split.
  - intros gSSP rt context fp Hmap Hfp.
    destruct (wrappedGSSP_traced env gSSP rt context w fp Ht Hb Hmap Hfp Hvalid)
      as (w1 & id & Hrun & Hlt & Hid & Hst & _).
    exists (setTransactionId id fp), w1. split; [exact Hrun|].
    apply (wrappedUnderscoreApp_resumes env _ w1 _ id); auto.
    unfold setTransactionId. cbn [props]. apply lookup_insert_eq.
  - intros gSP context fp Hfp.
    destruct (wrappedGSP_traced env gSP context w fp Ht Hb Hfp)
      as (w1 & Hrun & Hheap & Hstash & _).
    exists (setTransactionId (newSpanId env (length (heap w))) fp), w1.
    split; [exact Hrun|].
    assert (Hobj : heap w1 !!! length (heap w) = gspTransaction env w).
    { rewrite Hheap. rewrite list_lookup_total_alter_ne by lia.
      by rewrite list_lookup_total_middle. }
    split; [by rewrite Hobj|].
    apply (wrappedUnderscoreApp_resumes env _ w1 _ (newSpanId env (length (heap w)))).
    + exact Ht.
    + exact Hb.
    + unfold setTransactionId. cbn [props]. apply lookup_insert_eq.
    + unfold stashLookup. rewrite Hstash. apply lookup_insert_eq.
    + rewrite Hheap, length_alter, length_app. simpl. lia.
    + by rewrite Hobj.
Qed.

Lemma stashValid_sample : stashValid Sample.world.
Proof. intros k r H. discriminate H. Qed.

Lemma transaction_id_round_trip_witness :
  exists fp' w1,
    wrappedGSP Sample.env Sample.gSP ∅ Sample.world = (Ok fp', w1)
    /\ ResumedByApp Sample.env fp' w1 0.
Proof.
  destruct (transaction_id_round_trip Sample.env Sample.world
              eq_refl eq_refl stashValid_sample) as [_ Hgsp].
  destruct (Hgsp Sample.gSP ∅ Sample.pageResult eq_refl)
    as (fp' & w1 & Hrun & _ & Hres).
  exists fp', w1. split; [exact Hrun | exact Hres].
Defined.

(** ** The gate of the data-loading wrappers *)

(** C7 (as the code has it): [wrappedGSSP] calls the user's function and
    hands its outcome on as it is, with no transaction and no reserved
    field, when tracing is off, in a build, or when the resolved URL ends
    in [.map]; [wrappedGSP] does so when tracing is off or in a build, and
    has no test of the path. *)
Theorem data_loading_wrappers_gate (env : Env) (w : World) :
  (forall (gSSP : GetServerSidePropsFunction) (rt : string)
          (context : GetServerSidePropsContext),
      tracingEnabled env = false \/ isBuild env = true
      \/ Str.endsWith ".map" (resolvedUrl context) = true ->
      wrappedGSSP env gSSP rt context w
      = (gSSP context,
         setTrace (trace w ++
           [EvConsoleLog "I'm in the the `wrappedGSSP` function returned by withSentry";
            EvCallOrig]) w))
  /\ (forall (gSP : GetStaticPropsFunction) (context : GetStaticPropsContextData),
        tracingEnabled env = false \/ isBuild env = true ->
        wrappedGSP env gSP context w
        = (gSP context,
           setTrace (trace w ++
             [EvConsoleLog "I'm in the the `wrappedGSP` function returned by withSentry";
              EvCallOrig]) w)).
Proof.
  split.
  - intros gSSP rt context Hgate. unfold wrappedGSSP.
    assert (Hoff : tracingEnabled env && negb (isBuild env)
                   && negb (Str.endsWith ".map" (resolvedUrl context)) = false).
    { destruct Hgate as [-> | [-> | ->]]; simpl;
        rewrite ?andb_false_r; reflexivity. }
    rewrite Hoff. run_page.
    destruct (gSSP context); step_page; rewrite <- app_assoc; reflexivity.
  - intros gSP context Hgate. unfold wrappedGSP.
    assert (Hoff : tracingEnabled env && negb (isBuild env) = false).
    { destruct Hgate as [-> | ->]; simpl; rewrite ?andb_false_r; reflexivity. }
    rewrite Hoff. run_page.
    destruct (gSP context); step_page; rewrite <- app_assoc; reflexivity.
Qed.

Lemma data_loading_wrappers_gate_witness :
  fst (wrappedGSSP Sample.envBuild Sample.gSSP "/page"
         (mkGSSPContext "/page") Sample.world) = Ok Sample.pageResult
  /\ heap (snd (wrappedGSP Sample.envBuild Sample.gSP ∅ Sample.world)) = []
  /\ fst (wrappedGSP Sample.envBuild Sample.gSP ∅ Sample.world) = Ok Sample.pageResult.
Proof.
  destruct (data_loading_wrappers_gate Sample.envBuild Sample.world) as [Hssp Hsp].
  rewrite (Hssp Sample.gSSP "/page" (mkGSSPContext "/page")
             (or_intror (or_introl eq_refl))).
  rewrite (Hsp Sample.gSP ∅ (or_intror eq_refl)).
  repeat split.
Defined.

(** C7, the claim as stated fails for [wrappedGSP]: with tracing on and a
    context whose resolved URL ends in [.map], it starts a transaction and
    writes the reserved field into the props. *)
Lemma wrappedGSP_map_path_counterexample :
  Str.endsWith ".map" "/_next/static/css/app.css.map" = true
  /\ props Sample.pageResult !! TRANSACTION_ID_KEY = None
  /\ match fst (wrappedGSP Sample.env Sample.gSP
                  {[ "resolvedUrl" := VPrim (PStr "/_next/static/css/app.css.map") ]}
                  Sample.world) with
     | Ok fp => props fp !! TRANSACTION_ID_KEY
     | Throw _ => None
     end = Some (VPrim (PStr "span0"))
  /\ List.filter isStartTransaction
       (trace (snd (wrappedGSP Sample.env Sample.gSP
                      {[ "resolvedUrl" := VPrim (PStr "/_next/static/css/app.css.map") ]}
                      Sample.world)))
     = [EvStartTransaction 0 "unknown transaction" (Some "http.server") None None].
Proof. repeat split; vm_compute; reflexivity. Qed.

(** ** The stash over the life of a transaction *)

Section AppWhole.

Context (env : Env).

(** The first half of the traced branch, in both of its cases, when the
    id of the props names nothing that the stash inherits. *)
Lemma appAcquire_spec (contextData : UnderscoreAppContextData) (w : World) :
  stashValid w ->
  findsInherited w (appKey contextData) = false ->
  exists wA evs,
    appAcquire env contextData (appEntry w)
    = (Ok (HitTransaction (appRef contextData w)), wA)
    /\ trace wA = trace (appEntry w) ++ evs
    /\ List.filter isFinish evs = []
    /\ appRef contextData w < length (heap wA)
    /\ (exists k, stashLookup wA k = Some (appRef contextData w))
    /\ endTimestamp (heap wA !!! appRef contextData w)
       = match stashLookup w (appKey contextData) with
         | Some r => endTimestamp (heap w !!! r)
         | None => None
         end.
Proof.
  intros Hvalid Hplain. pose proof (stashGet_plain _ _ Hplain) as Hget.
  unfold appRef.
  destruct (stashLookup w (appKey contextData)) as [r|] eqn:Hlook.
  - exists (appEntry w), [].
    split; [by apply appAcquire_found|].
    split; [by rewrite app_nil_r|]. split; [reflexivity|].
    split; [exact (Hvalid _ _ Hlook)|]. split; [eauto|reflexivity].
  - destruct (appAcquire_fresh env contextData (appEntry w) Hget)
      as (wA & Hrun & Hheap & Hst & Htrace).
    exists wA, [EvStartTransaction (length (heap w)) (route contextData) None None None].
    split; [exact Hrun|]. split; [exact Htrace|]. split; [reflexivity|].
    rewrite Hheap. cbn [heap appEntry setTrace].
    split; [rewrite length_app; simpl; lia|]. split; [eauto|].
    by rewrite list_lookup_total_middle.
Qed.

Lemma wrappedUnderscoreApp_run (orig : UnderscoreAppComponent)
    (contextData : UnderscoreAppContextData) (w wA : World) (t : StashHit) :
  tracingEnabled env = true ->
  isBuild env = false ->
  appAcquire env contextData (appEntry w) = (Ok t, wA) ->
  wrappedUnderscoreApp env orig contextData w = appRest env orig contextData t wA.
Proof.
  intros Ht Hb Hacq.
  rewrite (wrappedUnderscoreApp_stages env orig contextData Ht Hb).
  unfold bind at 1. unfold emit at 1. fold (appEntry w). cbn beta iota.
  by rewrite (bind_ok _ _ _ _ _ Hacq).
Qed.

End AppWhole.

(** C10: when the user's component throws while tracing is active,
    [wrappedUnderscoreApp] throws the same value; after the call of the
    component nothing runs: no span is finished (the child span stays
    open, the transaction keeps the finish time it had, none if it is
    new), and the entry of the transaction stays in the stash.  The
    component is reached when the id of the props names nothing that the
    stash object inherits. *)
Theorem wrappedUnderscoreApp_throw_leaves_transaction_open
    (env : Env) (orig : UnderscoreAppComponent)
    (contextData : UnderscoreAppContextData) (w : World) (e : JsValue) :
  tracingEnabled env = true ->
  isBuild env = false ->
  stashValid w ->
  findsInherited w (appKey contextData) = false ->
  orig contextData = Throw e ->
  exists w' evs child,
    wrappedUnderscoreApp env orig contextData w = (Throw e, w')
    /\ trace w' = trace w ++ evs
    /\ List.filter isFinish evs = []
    /\ In (EvStartChild (appRef contextData w) child "_app wrapper") evs
    /\ endTimestamp (heap w' !!! child) = None
    /\ endTimestamp (heap w' !!! appRef contextData w)
       = match stashLookup w (appKey contextData) with
         | Some r => endTimestamp (heap w !!! r)
         | None => None
         end
    /\ exists k, stashLookup w' k = Some (appRef contextData w).
Proof.
  intros Ht Hb Hvalid Hplain He.
  destruct (appAcquire_spec env contextData w Hvalid Hplain)
    as (wA & evsA & Hacq & HtrA & HfinA & Hlt & [k Hk] & Hend).
  destruct (appRest_throw env orig contextData (appRef contextData w) wA e He)
    as (w' & Hrest & Hstash & Hheap & Htrace).
  exists w', ([EvConsoleLog
      "I'm in the wrappedUnderscoreApp function returned by appWithSentry"]
     ++ evsA ++ appRenameEvents env contextData (appRef contextData w) wA),
    (length (heap wA)).
  split; [by rewrite (wrappedUnderscoreApp_run env orig contextData w wA _ Ht Hb Hacq)|].
  split.
  { rewrite Htrace, HtrA. cbn [trace appEntry setTrace].
    by rewrite <- !app_assoc. }
  split.
  { rewrite !List.filter_app, HfinA. unfold appRenameEvents, logEvents.
    by destruct (debugBuild env). }
  split.
  { apply in_cons, in_or_app. right. unfold appRenameEvents.
    apply in_or_app. right. simpl. auto. }
  split.
  { rewrite Hheap. rewrite lookup_total_app_r by (rewrite length_alter; lia).
    rewrite length_alter, Nat.sub_diag. reflexivity. }
  split.
  { rewrite Hheap, <- Hend. by keep_field endTimestamp. }
  exists k. unfold stashLookup in *. by rewrite Hstash.
Qed.

Lemma wrappedUnderscoreApp_throw_leaves_transaction_open_witness :
  exists w',
    wrappedUnderscoreApp Sample.env Sample.throwingComponent
      (mkContextData ∅ "/page") Sample.world = (Throw (VObject 13), w')
    /\ exists k, stashLookup w' k = Some 0.
Proof.
  destruct (wrappedUnderscoreApp_throw_leaves_transaction_open Sample.env
              Sample.throwingComponent (mkContextData ∅ "/page") Sample.world
              (VObject 13) eq_refl eq_refl stashValid_sample eq_refl eq_refl)
    as (w' & evs & child & Hrun & _ & _ & _ & _ & _ & Hk).
  exists w'. split; [exact Hrun | exact Hk].
Defined.

(** C9, on the path the code misses: [wrappedGSP] has stashed the
    transaction [span0] and written its id into the props;
    [wrappedUnderscoreApp] takes the transaction up and the component
    throws.  The wrapper is done (it throws the component's value), yet the
    transaction is not finished and a lookup by its id still finds it, so
    the entry stays for good.  With a component that returns, on the same
    input, the transaction is finished and its entry is gone. *)
Theorem stash_entry_left_when_component_throws :
  fst Sample.appThrows = Throw (VObject 13)
  /\ fst (getTransactionById (Some "span0") (snd Sample.appThrows))
     = Ok (Some (HitTransaction 0))
  /\ endTimestamp (heap (snd Sample.appThrows) !!! 0) = None
  /\ List.filter isFinish (trace (snd Sample.appThrows)) = [EvFinish 1]
  /\ stashSize (snd Sample.appThrows) = 1
  /\ fst Sample.appReturns = Ok (VObject 7)
  /\ fst (getTransactionById (Some "span0") (snd Sample.appReturns)) = Ok None
  /\ endTimestamp (heap (snd Sample.appReturns) !!! 0) = Some 5
  /\ stashSize (snd Sample.appReturns) = 0.
Proof. repeat split; vm_compute; reflexivity. Qed.

(** ** Replacing a parameter value in the path *)

Lemma append_cons (c : ascii) (p x : string) :
  (String c p ++ x)%string = String c (p ++ x)%string.
Proof. reflexivity. Qed.

Lemma append_nil (x : string) : ("" ++ x)%string = x.
Proof. reflexivity. Qed.

Ltac sapp := rewrite ?append_cons, ?append_nil in *.

Lemma startsWith_app (p a : string) : Str.startsWith p (p ++ a)%string = true.
Proof.
  induction p as [|c p IH]; sapp; [reflexivity|].
  cbn [Str.startsWith]. by rewrite Ascii.eqb_refl.
Qed.

Lemma startsWith_inv (p s : string) :
  Str.startsWith p s = true -> s = (p ++ Str.drop (String.length p) s)%string.
Proof.
  revert s. induction p as [|c p IH]; intros s H.
  - reflexivity.
  - destruct s as [|d s]; cbn [Str.startsWith] in H; [discriminate|].
    destruct (Ascii.eqb c d) eqn:E; [|discriminate].
    apply Ascii.eqb_eq in E. subst d.
    cbn [String.length Str.drop]. sapp. f_equal. by apply IH.
Qed.

Lemma splitFirst_unfold (pat s : string) :
  Str.splitFirst pat s =
    if Str.startsWith pat s then Some (EmptyString, Str.drop (String.length pat) s)
    else match s with
         | EmptyString => None
         | String c s' =>
             match Str.splitFirst pat s' with
             | Some (b, a) => Some (String c b, a)
             | None => None
             end
         end.
Proof. destruct s; reflexivity. Qed.

Lemma splitFirst_Some (pat s b a : string) :
  Str.splitFirst pat s = Some (b, a) -> s = (b ++ pat ++ a)%string.
Proof.
  revert b a. induction s as [|c s IH]; intros b a; rewrite splitFirst_unfold.
  - destruct (Str.startsWith pat "") eqn:E; [|discriminate].
    intros [= <- <-]. sapp. by apply startsWith_inv.
  - destruct (Str.startsWith pat (String c s)) eqn:E.
    + intros [= <- <-]. sapp. by apply startsWith_inv.
    + destruct (Str.splitFirst pat s) as [[b0 a0]|]; [|discriminate].
      intros [= <- <-]. sapp. f_equal. by apply IH.
Qed.

Lemma splitFirst_first (pat s b a : string) :
  Str.splitFirst pat s = Some (b, a) ->
  forall b' a', s = (b' ++ pat ++ a')%string -> String.length b <= String.length b'.
Proof.
  revert b a. induction s as [|c s IH]; intros b a; rewrite splitFirst_unfold.
  - destruct (Str.startsWith pat "") eqn:E; [|discriminate].
    intros [= <- <-] b' a' _. simpl. lia.
  - destruct (Str.startsWith pat (String c s)) eqn:E.
    + intros [= <- <-] b' a' _. simpl. lia.
    + destruct (Str.splitFirst pat s) as [[b0 a0]|] eqn:Hs; [|discriminate].
      intros [= <- <-] b' a' Hdec.
      destruct b' as [|c' b'].
      * sapp. rewrite Hdec, startsWith_app in E. discriminate.
      * sapp. injection Hdec as _ Hdec. cbn [String.length].
        apply le_n_S. by apply (IH b0 a0 eq_refl b' a').
Qed.

Lemma splitFirst_None (pat s : string) :
  Str.splitFirst pat s = None -> ~ occursIn pat s.
Proof.
  induction s as [|c s IH]; rewrite splitFirst_unfold.
  - destruct (Str.startsWith pat "") eqn:E; [discriminate|].
    intros _ (b & a & Hdec).
    destruct b; sapp; [|discriminate].
    rewrite Hdec, startsWith_app in E. discriminate.
  - destruct (Str.startsWith pat (String c s)) eqn:E; [discriminate|].
    destruct (Str.splitFirst pat s) as [[b0 a0]|] eqn:Hs; [discriminate|].
    intros _ (b & a & Hdec).
    destruct b as [|c' b]; sapp.
    + rewrite Hdec, startsWith_app in E. discriminate.
    + injection Hdec as _ Hdec.
      apply IH; [reflexivity|]. by exists b, a.
Qed.

Lemma getSubstitution_literal (matched before after repl : string) :
  noDollar repl = true ->
  Str.getSubstitution matched before after repl = repl.
Proof.
  induction repl as [|c rest IH]; cbn [Str.getSubstitution noDollar]; [reflexivity|].
  destruct (Ascii.eqb c "$") eqn:E; cbn [negb andb]; [discriminate|].
  intros H. f_equal. by apply IH.
Qed.

(** X18: a query parameter whose value does not occur in the path leaves
    the path as it is; so a request whose parameter values all miss the
    path keeps the stripped path in its name. *)
Theorem replaceParams_absent (entries : list (string * QueryValue)) (reqPath : string) :
  (forall key value, In (key, value) entries ->
                     ~ occursIn (queryValueText value) reqPath) ->
  replaceParams entries reqPath = reqPath.
Proof.
  induction entries as [|[key value] rest IH]; intros Habs; [reflexivity|].
  cbn [replaceParams].
  assert (Hsame : Str.replace (queryValueText value) ("[" ++ key ++ "]")%string reqPath
                  = reqPath).
  { unfold Str.replace.
    destruct (Str.splitFirst (queryValueText value) reqPath) as [[b a]|] eqn:Hs;
      [|reflexivity].
    destruct (Habs key value (or_introl eq_refl)).
    exists b, a. by apply splitFirst_Some. }
  rewrite Hsame. apply IH. intros k v Hin. apply (Habs k v). by right.
Qed.

Lemma replaceParams_absent_witness :
  replaceParams [("x", QString "1"); ("tags", QArray ["a"; "b"])] "/users/42"
  = "/users/42".
Proof.
  apply replaceParams_absent.
  intros key value [[= <- <-] | [[= <- <-] | []]];
    apply splitFirst_None; vm_compute; reflexivity.
Defined.

(** X19: [reqPath.replace(value, `[key]`)] acts on the first occurrence of
    the value and on nothing else: when the value occurs and the key holds
    no [$], the result is the path with its leftmost occurrence replaced
    by the bracketed key, also when that occurrence lies in a part of the
    path that is not the parameter. *)
Theorem replace_first_occurrence (value key path : string) :
  noDollar key = true ->
  occursIn value path ->
  exists b a,
    path = (b ++ value ++ a)%string
    /\ (forall b' a', path = (b' ++ value ++ a')%string ->
                      String.length b <= String.length b')
    /\ Str.replace value ("[" ++ key ++ "]")%string path
       = (b ++ ("[" ++ key ++ "]") ++ a)%string.
Proof.
  intros Hkey Hocc. unfold Str.replace.
  destruct (Str.splitFirst value path) as [[b a]|] eqn:Hs.
  - exists b, a. split; [by apply splitFirst_Some|].
    split; [by apply (splitFirst_first value path b a)|].
    rewrite getSubstitution_literal; [reflexivity|].
    sapp. cbn [noDollar Ascii.eqb Bool.eqb negb andb].
    clear -Hkey. induction key as [|c key IH]; [reflexivity|].
    sapp. cbn [noDollar] in *. apply andb_true_iff in Hkey as [Hc Hk].
    by rewrite Hc, IH.
  - destruct (splitFirst_None _ _ Hs Hocc).
Qed.

Lemma replace_first_occurrence_witness :
  exists b a,
    "/api/v1/items/1" = (b ++ "1" ++ a)%string
    /\ Str.replace "1" "[id]" "/api/v1/items/1" = (b ++ "[id]" ++ a)%string
    /\ b = "/api/v".
Proof.
  destruct (replace_first_occurrence "1" "id" "/api/v1/items/1" eq_refl)
    as (b & a & Hdec & Hmin & Hrep).
  { by exists "/api/v", "/items/1". }
  exists b, a. split; [exact Hdec|]. split; [exact Hrep|].
  pose proof (Hmin "/api/v" "/items/1" eq_refl) as Hlen.
  clear Hmin Hrep.
  repeat (destruct b as [|? b]; [sapp; try discriminate Hdec; try reflexivity|];
          sapp; injection Hdec as <- Hdec; cbn [String.length] in Hlen; try lia).
Defined.

(** ** The stash as a map *)

(** X1: [stashTransaction] followed by [getTransactionById] with the span
    id of the transaction gives the transaction back, whether or not a
    stash existed before; the stash holds every other transaction as
    before; a lookup of another id yields what it yielded before, or, when
    the call created the stash object, what a plain object inherits under
    that id; and stashing the same transaction again changes nothing. *)
Theorem stashTransaction_lookup (r : ref) (w : World) :
  getTransactionById (Some (spanId (heap w !!! r)))
    (snd (stashTransaction (HitTransaction r) w))
  = (Ok (Some (HitTransaction r)), snd (stashTransaction (HitTransaction r) w))
  /\ (forall k, k <> spanId (heap w !!! r) ->
        stashLookup (snd (stashTransaction (HitTransaction r) w)) k
        = stashLookup w k)
  /\ (forall k, k <> spanId (heap w !!! r) ->
        stashGet (snd (stashTransaction (HitTransaction r) w)) k
        = lookupAfterCreation w k)
  /\ stashTransaction (HitTransaction r)
       (snd (stashTransaction (HitTransaction r) w))
     = (Ok tt, snd (stashTransaction (HitTransaction r) w)).
Proof.
  split; [|split; [|split]].
  - rewrite getTransactionById_lookup, stashGet_after_stash.
    by rewrite decide_True.
  - intros k Hk. rewrite stashTransaction_run. unfold stashLookup.
    cbn [snd stash setStash setStashUndefined].
    rewrite lookup_insert_ne by done.
    destruct (stash w); [reflexivity|apply lookup_empty].
  - intros k Hk. rewrite stashGet_after_stash. by rewrite decide_False.
  - rewrite !stashTransaction_run.
    cbn [snd heap stash stashUndefined setStash setStashUndefined
         default from_option Datatypes.id].
    unfold setStash, setStashUndefined.
    cbn [heap stash stashUndefined clock immediates flushes res trace].
    rewrite insert_insert_eq.
    by destruct (String.eqb (spanId (heap w !!! r)) "undefined").
Qed.

(** X2: [deleteTransaction] removes the transaction that the stash holds
    under the id and leaves every other id as it was; a lookup of the id
    then yields what the stash object inherits under it, which is nothing
    unless the id names a property of [Object.prototype]; on an id under
    which a lookup finds nothing, and when no stash exists yet, it changes
    nothing that a lookup can see, creates no stash and raises nothing. *)
Theorem deleteTransaction_lookup (id : string) (w : World) :
  fst (deleteTransaction id w) = Ok tt
  /\ stashLookup (snd (deleteTransaction id w)) id = None
  /\ stashGet (snd (deleteTransaction id w)) id
     = match stash w with
       | Some _ => inheritedProperty id
       | None => None
       end
  /\ (forall k, k <> id -> stashGet (snd (deleteTransaction id w)) k = stashGet w k)
  /\ (stashGet w id = None ->
        forall k, stashGet (snd (deleteTransaction id w)) k = stashGet w k)
  /\ (stash w = None -> snd (deleteTransaction id w) = w).
Proof.
  split; [reflexivity|].
  split.
  { unfold deleteTransaction, stashLookup. cbn [snd].
    destruct (stash w) as [st|] eqn:Hst; cbn [stash setStash setStashUndefined].
    - apply lookup_delete_eq.
    - by rewrite Hst. }
  split; [rewrite stashGet_after_delete; by rewrite decide_True|].
  split; [intros k Hk; rewrite stashGet_after_delete; by rewrite decide_False|].
  split.
  - intros Hnone k. rewrite stashGet_after_delete. case_decide as Hk; [|reflexivity].
    subst k. rewrite Hnone. unfold stashGet, stashProperty in Hnone.
    destruct (stash w) as [st|]; [|reflexivity].
    destruct (st !! id); [discriminate|].
    by destruct (if String.eqb id "undefined" then stashUndefined w else None).
  - intros Hnone. unfold deleteTransaction. cbn [snd]. by rewrite Hnone.
Qed.

(** X3: stashing a transaction and then deleting it by its span id leaves
    no transaction under that id: a lookup of it yields what a plain
    object inherits under it; a lookup of any other id yields what it
    yielded before the two calls, or, when they created the stash object,
    what a plain object inherits. *)
Theorem stash_then_delete (r : ref) (w : World) :
  forall k,
    stashGet
      (snd ((stashTransaction (HitTransaction r) ;;
             o <- readSpan r ;;
             deleteTransaction (spanId o)) w)) k
    = if decide (k = spanId (heap w !!! r)) then inheritedProperty k
      else lookupAfterCreation w k.
Proof.
  intros k.
  change (snd ((stashTransaction (HitTransaction r) ;;
                o <- readSpan r ;;
                deleteTransaction (spanId o)) w))
    with (snd (deleteTransaction (spanId (heap w !!! r))
                 (snd (stashTransaction (HitTransaction r) w)))).
  rewrite stashGet_after_delete. case_decide as Hk.
  - by rewrite stashTransaction_run.
  - rewrite stashGet_after_stash. by rewrite decide_False.
Qed.

(** ** startOrGetPageRouteTransaction *)

(** X4: when the id is stashed, [startOrGetPageRouteTransaction] returns
    the stashed transaction, starts none (trace and heap stay as they
    are), and stashes it again under its own span id; the entry under the
    given id is still there. *)
Theorem startOrGetPageRouteTransaction_known
    (env : Env) (rt id : string) (w : World) (r : ref) :
  stashLookup w id = Some r ->
  exists w',
    startOrGetPageRouteTransaction env rt (Some id) w = (Ok (HitTransaction r), w')
    /\ trace w' = trace w
    /\ heap w' = heap w
    /\ stashLookup w' (spanId (heap w !!! r)) = Some r
    /\ stashLookup w' id = Some r.
Proof.
  intros Hst. destruct (stashLookup_Some _ _ _ Hst) as (st & Hstash & Hlook).
  pose proof (stashGet_own _ _ _ Hst) as Hget. unfold stashGet in Hget.
  unfold startOrGetPageRouteTransaction. run_page.
  rewrite Hget. step_page.
  eexists. split; [reflexivity|]. step_page.
  unfold stashLookup. step_page. rewrite Hstash.
  cbn [default from_option Datatypes.id].
  repeat split; [apply lookup_insert_eq|].
  destruct (decide (spanId (heap w !!! r) = id)) as [->|Hne].
  - apply lookup_insert_eq.
  - by rewrite lookup_insert_ne.
Qed.

Lemma startOrGetPageRouteTransaction_known_witness :
  exists w',
    startOrGetPageRouteTransaction Sample.env "/page" (Some "span0")
      (snd (wrappedGSP Sample.env Sample.gSP ∅ Sample.world))
    = (Ok (HitTransaction 0), w')
    /\ trace w' = trace (snd (wrappedGSP Sample.env Sample.gSP ∅ Sample.world)).
Proof.
  destruct (startOrGetPageRouteTransaction_known Sample.env "/page" "span0"
              (snd (wrappedGSP Sample.env Sample.gSP ∅ Sample.world)) 0 eq_refl)
    as (w' & Hrun & Htrace & _).
  exists w'. split; [exact Hrun | exact Htrace].
Defined.

(** X5: when a lookup of the id finds nothing (or no id is given and a
    lookup of the empty id finds nothing), [startOrGetPageRouteTransaction]
    starts one transaction, named by the route, with op [http.server] and
    source [route], open, and stashes it under its span id. *)
Theorem startOrGetPageRouteTransaction_unknown
    (env : Env) (rt : string) (id : option string) (w : World) :
  stashGet w (default "" id) = None ->
  exists w',
    startOrGetPageRouteTransaction env rt id w
    = (Ok (HitTransaction (length (heap w))), w')
    /\ heap w' = heap w ++ [mkSpan (newSpanId env (length (heap w))) rt
                              (Some "http.server") (Some "route") None
                              (clock w) None None]
    /\ trace w' = trace w ++ [EvStartTransaction (length (heap w)) rt
                                (Some "http.server") None None]
    /\ stashLookup w' (newSpanId env (length (heap w))) = Some (length (heap w)).
Proof.
  intros Hget. unfold stashGet in Hget.
  unfold startOrGetPageRouteTransaction. run_page.
  destruct id as [id|]; cbn [default from_option Datatypes.id] in *;
    rewrite Hget; step_page;
    rewrite list_lookup_total_middle by reflexivity; cbn [spanId];
    (eexists; split; [reflexivity|]); step_page;
    unfold stashLookup; step_page;
    (repeat split; apply lookup_insert_eq).
Qed.

Lemma startOrGetPageRouteTransaction_unknown_witness :
  exists w',
    startOrGetPageRouteTransaction Sample.env "/page" None Sample.world
    = (Ok (HitTransaction 0), w')
    /\ stashLookup w' "span0" = Some 0.
Proof.
  destruct (startOrGetPageRouteTransaction_unknown Sample.env "/page" None
              Sample.world eq_refl) as (w' & Hrun & _ & _ & Hst).
  exists w'. split; [exact Hrun | exact Hst].
Defined.

(** X24: when a lookup of the id yields a value that the stash object
    inherits ([constructor], [toString], ...), that value is taken for the
    transaction: [startOrGetPageRouteTransaction] starts nothing, returns
    the inherited value, and stores it in the stash under the key
    [undefined], the value having no span id; every other id is looked up
    as before. *)
Theorem startOrGetPageRouteTransaction_inherited
    (env : Env) (rt id : string) (w : World) (member : string) :
  stashGet w id = Some (HitInherited member) ->
  exists w',
    startOrGetPageRouteTransaction env rt (Some id) w = (Ok (HitInherited member), w')
    /\ trace w' = trace w
    /\ heap w' = heap w
    /\ stashGet w' "undefined" = Some (HitInherited member)
    /\ forall k, k <> "undefined" -> stashGet w' k = stashGet w k.
Proof.
  intros Hget.
  assert (Hsome : exists st, stash w = Some st).
  { unfold stashGet in Hget. destruct (stash w); [eauto|discriminate]. }
  destruct Hsome as (st & Hstash).
  unfold stashGet in Hget.
  unfold startOrGetPageRouteTransaction. run_page.
  rewrite Hget. step_page.
  eexists. split; [reflexivity|]. step_page.
  split; [reflexivity|]. split; [reflexivity|].
  unfold stashGet. step_page. rewrite Hstash.
  cbn [default from_option Datatypes.id].
  split.
  - rewrite (stashProperty_foreign st (stashUndefined w)). by rewrite decide_True.
  - intros k Hk. rewrite (stashProperty_foreign st (stashUndefined w)).
    by rewrite decide_False.
Qed.

Lemma startOrGetPageRouteTransaction_inherited_witness :
  exists w',
    startOrGetPageRouteTransaction Sample.env "/page" (Some "constructor")
      Sample.afterGSP = (Ok (HitInherited "constructor"), w')
    /\ trace w' = trace Sample.afterGSP
    /\ stashGet w' "undefined" = Some (HitInherited "constructor").
Proof.
  destruct (startOrGetPageRouteTransaction_inherited Sample.env "/page"
              "constructor" Sample.afterGSP "constructor" eq_refl)
    as (w' & Hrun & Htrace & _ & Hund & _).
  exists w'. split; [exact Hrun|]. split; [exact Htrace | exact Hund].
Defined.

(** ** More on finalization and the close method *)

(** X6: calling a close method that was wrapped [n] times finalizes [n]
    times (one [flush] each), calls the native close exactly once, last,
    with the arguments it was given, returns normally and leaves the
    response as it was. *)
Theorem callEnd_closes_once (env : Env) (m : EndMethod) (args : list JsValue) (w : World) :
  exists w' before,
    callEnd env m args w = (Ok (VPrim PUndefined), w')
    /\ trace w' = trace w ++ before ++ [EvOrigEnd args]
    /\ List.filter isOrigEnd before = []
    /\ List.filter isFlush before = repeat (EvFlush 2000) (wrapDepth m)
    /\ flushes w' = wrapDepth m + flushes w
    /\ res w' = res w.
Proof.
  revert w. induction m as [|origEnd IH]; intros w.
  - exists (setTrace (trace w ++ [EvOrigEnd args]) w), [].
    repeat split.
  - destruct (IH (finalized env w)) as (w' & before & Hrun & Htrace & Hend & Hfl & Hn & Hres).
    exists w', (finalizeEvents env w ++ before).
    split.
    { cbn [callEnd]. erewrite bind_ok by apply finishSentryProcessing_run.
      exact Hrun. }
    split; [rewrite Htrace; cbn [trace finalized]; by rewrite <- !app_assoc|].
    destruct (finalizeEvents_flush_once env w) as [Hf Ho].
    split; [by rewrite List.filter_app, Ho, Hend|].
    split; [by rewrite List.filter_app, Hf, Hfl|].
    split; [rewrite Hn; cbn [flushes finalized wrapDepth]; lia|].
    by rewrite Hres.
Qed.

Lemma withFinish_identity (c : nat) (o : SpanObj) : sameIdentity o (withFinish c o).
Proof. unfold sameIdentity, withFinish. by destruct (endTimestamp o). Qed.

(** X7: [finishSentryProcessing] creates and removes no span and touches
    neither the stash nor the response; of every span it leaves the id,
    the name, the op, the source, the parent and the start time as they
    were (only status and finish time can change). *)
Theorem finishSentryProcessing_keeps_identity (env : Env) (w : World) :
  stash (snd (finishSentryProcessing env w)) = stash w
  /\ res (snd (finishSentryProcessing env w)) = res w
  /\ length (heap (snd (finishSentryProcessing env w))) = length (heap w)
  /\ forall r, sameIdentity (heap w !!! r)
                 (heap (snd (finishSentryProcessing env w)) !!! r).
Proof.
  rewrite finishSentryProcessing_run. cbn [snd stash res heap finalized].
  split; [reflexivity|]. split; [reflexivity|].
  split; [apply finalizedHeap_length|].
  intros r. unfold finalizedHeap.
  destruct (sentryTransaction (res w)) as [t|]; [|by repeat split].
  unfold sameIdentity.
  repeat split.
  all: rewrite (alter_keeps_field _) by (intros o; apply withFinish_identity).
  all: rewrite (tasksHeap_keeps_field _) by (intros c o; apply withFinish_identity).
  all: by rewrite (alter_keeps_field _) by reflexivity.
Qed.

Lemma tasksClock_le (ts : list Task) : forall k, k <= tasksClock ts k.
Proof.
  induction ts as [|[r|l] rest IH]; intros k; cbn [tasksClock]; auto.
  specialize (IH (S k)). lia.
Qed.

Lemma tasksHeap_finished_stays (ts : list Task) :
  forall k (h : list SpanObj) c,
    is_Some (endTimestamp (h !!! c)) ->
    endTimestamp (tasksHeap ts k h !!! c) = endTimestamp (h !!! c).
Proof.
  induction ts as [|[r|l] rest IH]; intros k h c Hdone; cbn [tasksHeap]; auto.
  assert (Hsame : endTimestamp (alter (withFinish k) r h !!! c) = endTimestamp (h !!! c)).
  { rewrite list_lookup_total_alter. case_decide as Hd; [|reflexivity].
    destruct Hd as [-> _]. by rewrite withFinish_idempotent. }
  rewrite IH; [exact Hsame|]. by rewrite Hsame.
Qed.

Lemma tasksHeap_finishes (ts : list Task) :
  forall k (h : list SpanObj) c,
    In (TaskFinishSpan c) ts ->
    c < length h ->
    endTimestamp (h !!! c) = None ->
    exists tc, endTimestamp (tasksHeap ts k h !!! c) = Some tc
               /\ k <= tc < tasksClock ts k.
Proof.
  induction ts as [|[r|l] rest IH]; intros k h c Hin Hlt Hopen; [destruct Hin|..];
    cbn [tasksHeap tasksClock].
  - destruct (decide (r = c)) as [->|Hne].
    + exists k. split.
      * rewrite tasksHeap_finished_stays;
          rewrite list_lookup_total_alter_eq by exact Hlt;
          unfold withFinish; rewrite Hopen; cbn [endTimestamp]; eauto.
      * pose proof (tasksClock_le rest (S k)). lia.
    + destruct Hin as [[= Heq]|Hin]; [by destruct Hne|].
      destruct (IH (S k) (alter (withFinish k) r h) c Hin) as (tc & Htc & Hb).
      * by rewrite length_alter.
      * by rewrite list_lookup_total_alter_ne.
      * exists tc. split; [exact Htc|lia].
  - destruct Hin as [[=]|Hin]. by apply IH.
Qed.

Lemma tasksHeap_untouched (ts : list Task) :
  forall k (h : list SpanObj) r,
    ~ In (TaskFinishSpan r) ts -> tasksHeap ts k h !!! r = h !!! r.
Proof.
  induction ts as [|[r0|l] rest IH]; intros k h r Hnot; cbn [tasksHeap]; auto.
  - rewrite IH by (intros Hin; apply Hnot; by right).
    apply list_lookup_total_alter_ne. intros ->. apply Hnot. by left.
  - apply IH. intros Hin. apply Hnot. by right.
Qed.

(** X8: a child span whose finish was queued with [setImmediate] before
    finalization is finished when the transaction is: its finish time lies
    before the finish time that [finishSentryProcessing] gives to the
    transaction. *)
Theorem pending_span_finishes_before_transaction
    (env : Env) (w : World) (r c : ref) :
  sentryTransaction (res w) = Some r ->
  r < length (heap w) ->
  endTimestamp (heap w !!! r) = None ->
  ~ In (TaskFinishSpan r) (immediates w) ->
  In (TaskFinishSpan c) (immediates w) ->
  c < length (heap w) ->
  endTimestamp (heap w !!! c) = None ->
  exists tc tr,
    endTimestamp (heap (snd (finishSentryProcessing env w)) !!! c) = Some tc
    /\ endTimestamp (heap (snd (finishSentryProcessing env w)) !!! r) = Some tr
    /\ tc < tr.
Proof.
  intros Hr Hrlt Hropen Hrnot Hin Hclt Hcopen.
  assert (Hne : r <> c) by (intros ->; by apply Hrnot).
  rewrite finishSentryProcessing_run. cbn [snd heap finalized].
  unfold finalizedHeap. rewrite Hr.
  set (h0 := alter (withHttpStatus (statusCode (res w))) r (heap w)).
  destruct (tasksHeap_finishes (immediates w) (clock w) h0 c Hin) as (tc & Htc & Hb).
  { unfold h0. by rewrite length_alter. }
  { unfold h0. by rewrite list_lookup_total_alter_ne. }
  exists tc, (tasksClock (immediates w) (clock w)).
  split; [by rewrite list_lookup_total_alter_ne|].
  split; [|lia].
  rewrite list_lookup_total_alter_eq
    by (rewrite tasksHeap_length; unfold h0; by rewrite length_alter).
  rewrite tasksHeap_untouched by exact Hrnot.
  unfold h0. rewrite list_lookup_total_alter_eq by exact Hrlt.
  unfold withFinish. cbn [endTimestamp withHttpStatus]. by rewrite Hropen.
Qed.

Lemma pending_span_finishes_before_transaction_witness :
  exists tc tr,
    endTimestamp (heap (snd (finishSentryProcessing Sample.env
                               Sample.worldWithTransaction)) !!! 1) = Some tc
    /\ endTimestamp (heap (snd (finishSentryProcessing Sample.env
                                  Sample.worldWithTransaction)) !!! 0) = Some tr
    /\ tc < tr.
Proof.
  apply (pending_span_finishes_before_transaction Sample.env
           Sample.worldWithTransaction 0 1).
  - reflexivity.
  - simpl. lia.
  - reflexivity.
  - simpl. intros [[=]|[]].
  - simpl. by left.
  - simpl. lia.
  - reflexivity.
Defined.

(** ** More on the handler wrapper *)

Lemma afterHandler_events (origHandler : Handler) (req : Request) (w : World) :
  trace (afterHandler origHandler req w)
  = trace w ++ handlerEvents (origHandler req (res w))
  /\ statusCode (res (afterHandler origHandler req w))
     = statusAfterHandler (origHandler req (res w)) (res w)
  /\ flushes (afterHandler origHandler req w) = flushes w
  /\ immediates (afterHandler origHandler req w) = immediates w
  /\ clock (afterHandler origHandler req w) = clock w.
Proof.
  unfold afterHandler, callHandler, setStatus, modifyRes, liftResult,
    handlerEvents, statusAfterHandler, bind, emit, ret, throw. simpl.
  destruct (origHandler req (res w)) as [[[c m]|] [v|e]]; simpl;
    rewrite <- ?app_assoc; auto.
Qed.

(** X9: when the user's handler resolves, the wrapped handler resolves
    with the same value and finalizes nothing itself: after the handler's
    entry it calls no [finish], no [flush] and no [captureException], and
    the span objects are as at the handler's entry; finalization is left
    to the wrapped [res.end]. *)
Theorem withSentry_success_passes_through
    (env : Env) (strip : string -> string)
    (origHandler : Handler) (req : Request) (w : World) (v : JsValue) :
  hOutcome (origHandler req (res (handlerEntry env strip req w))) = Ok v ->
  exists w' evs,
    withSentry env strip origHandler req w = (Ok v, w')
    /\ trace w' = trace (handlerEntry env strip req w) ++ evs
    /\ List.filter isFinish evs = []
    /\ List.filter isFlush evs = []
    /\ List.filter isCapture evs = []
    /\ heap w' = heap (handlerEntry env strip req w)
    /\ flushes w' = flushes w
    /\ statusCode (res w')
       = statusAfterHandler (origHandler req (res (handlerEntry env strip req w)))
           (res w).
Proof.
  intros Hv.
  set (we := handlerEntry env strip req w).
  destruct (afterHandler_events origHandler req we) as (Htr & Hcode & Hfl & _ & _).
  destruct (afterHandler_keeps origHandler req we) as (_ & _ & Hheap & _).
  destruct (handlerEntry_res env strip req w) as (_ & Hcode0 & _).
  exists (afterSuccess env (afterHandler origHandler req we)),
    (handlerEvents (origHandler req (res we))
       ++ if devWarning env then [EvConsoleWarn] else []).
  split; [by apply withSentry_ok|].
  unfold afterSuccess, when, emit, ret, handlerEvents.
  assert (Hfl0 : flushes we = flushes w).
  { unfold we, handlerEntry, startRequestTransaction, when, debugLog, when,
      startTransaction, modifyRes, bind, emit, ret, tick, alloc. simpl.
    by destruct (hasScope env), (tracingEnabled env), (sentryTrace req),
      (debugBuild env). }
  destruct (devWarning env); cbn [snd trace heap flushes res setTrace];
    rewrite ?Htr, ?Hheap, ?Hfl, ?Hfl0, ?Hcode; unfold handlerEvents, statusAfterHandler;
    fold we; rewrite ?Hcode0;
    destruct (hStatus (origHandler req (res we))) as [[c m]|];
    rewrite <- ?app_assoc, ?app_nil_r; repeat split; exact Hcode0.
Qed.

Lemma withSentry_success_passes_through_witness :
  exists w',
    withSentry Sample.env stripUrlQueryAndFragment Sample.okHandler
      Sample.request Sample.world = (Ok (VPrim PUndefined), w')
    /\ flushes w' = 0.
Proof.
  destruct (withSentry_success_passes_through Sample.env stripUrlQueryAndFragment
              Sample.okHandler Sample.request Sample.world (VPrim PUndefined) eq_refl)
    as (w' & evs & Hrun & _ & _ & _ & _ & _ & Hfl & _).
  exists w'. split; [exact Hrun | exact Hfl].
Defined.

Lemma handlerEntry_off (env : Env) (strip : string -> string) (req : Request) (w : World) :
  hasScope env = false \/ tracingEnabled env = false ->
  heap (handlerEntry env strip req w) = heap w
  /\ stash (handlerEntry env strip req w) = stash w
  /\ sentryTransaction (res (handlerEntry env strip req w)) = sentryTransaction (res w)
  /\ trace (handlerEntry env strip req w)
     = trace w ++ if hasScope env then [EvAddRequestDataProcessor] else [].
Proof.
  intros Hoff.
  unfold handlerEntry, startRequestTransaction, when, debugLog, when,
    startTransaction, modifyRes, bind, emit, ret, tick, alloc. simpl.
  destruct Hoff as [-> | Ht]; [|rewrite Ht; destruct (hasScope env)];
    simpl; rewrite ?app_nil_r; auto.
Qed.

Lemma finalizeEvents_no_capture (env : Env) (w : World) :
  List.filter isCapture (finalizeEvents env w) = [].
Proof.
  unfold finalizeEvents, finishEvents, flushEvents, logEvents, logWithEvents.
  rewrite !List.filter_app.
  assert (Ht : forall ts, List.filter isCapture (map taskEvent ts) = []).
  { induction ts as [|[r|l] rest IH]; simpl; auto. }
  destruct (sentryTransaction (res w)), (debugBuild env),
    (flushOutcome env (flushes w)); simpl;
    rewrite ?List.filter_app, ?Ht; reflexivity.
Qed.

(** X10: without a scope, or with tracing off, the wrapped handler starts
    no transaction: on a response that carries none, it leaves the span
    objects, the stash and [res.__sentryTransaction] as they were and
    calls neither [startTransaction] nor [finish], whether the user's
    handler resolves or throws. *)
Theorem withSentry_without_tracing
    (env : Env) (strip : string -> string)
    (origHandler : Handler) (req : Request) (w : World) :
  hasScope env = false \/ tracingEnabled env = false ->
  sentryTransaction (res w) = None ->
  exists evs,
    trace (snd (withSentry env strip origHandler req w)) = trace w ++ evs
    /\ List.filter isStartTransaction evs = []
    /\ List.filter isFinish evs = []
    /\ heap (snd (withSentry env strip origHandler req w)) = heap w
    /\ stash (snd (withSentry env strip origHandler req w)) = stash w
    /\ sentryTransaction (res (snd (withSentry env strip origHandler req w))) = None.
Proof.
  intros Hoff Hnone.
  set (we := handlerEntry env strip req w).
  destruct (handlerEntry_off env strip req w Hoff) as (Hheap & Hstash & Hres & Htrace).
  destruct (afterHandler_events origHandler req we) as (Htr & _).
  destruct (afterHandler_keeps origHandler req we) as (_ & Hk & Hh & Hs).
  fold we in Hheap, Hstash, Hres, Htrace.
  destruct (hOutcome (origHandler req (res we))) as [v|e] eqn:Hout.
  - rewrite (withSentry_ok env strip _ _ _ _ Hout). fold we. cbn [snd].
    destruct (afterSuccess_spec env (afterHandler origHandler req we))
      as (_ & Hr & Hheap' & sev & Hst & _).
    exists ((if hasScope env then [EvAddRequestDataProcessor] else [])
              ++ handlerEvents (origHandler req (res we)) ++ sev).
    split; [rewrite Hst, Htr, Htrace; by rewrite <- !app_assoc|].
    assert (Hsev : List.filter isStartTransaction sev = []
                   /\ List.filter isFinish sev = []).
    { unfold afterSuccess, when, emit, ret in Hst.
      destruct (devWarning env); cbn [snd trace setTrace] in Hst.
      - apply app_inv_head in Hst. by subst sev.
      - rewrite <- (app_nil_r (trace _)) in Hst at 1.
        apply app_inv_head in Hst. by subst sev. }
    destruct Hsev as [Hs1 Hs2].
    rewrite !List.filter_app, Hs1, Hs2. unfold handlerEvents.
    split; [by destruct (hasScope env), (hStatus (origHandler req (res we))) as [[c m]|]|].
    split; [by destruct (hasScope env), (hStatus (origHandler req (res we))) as [[c m]|]|].
    unfold afterSuccess, when, emit, ret.
    destruct (devWarning env); cbn [snd heap stash res setTrace];
      rewrite Hh, Hheap, Hs, Hstash, Hk, Hres, Hnone; auto.
  - rewrite (withSentry_throw env strip _ _ _ _ Hout). fold we.
    cbn [snd]. unfold finalized. cbn [trace heap stash res].
    destruct (beforeErrorFinalization_spec env e (afterHandler origHandler req we))
      as (_ & _ & _ & _ & Hbt & Hbh & Hbtr).
    set (wb := beforeErrorFinalization env e (afterHandler origHandler req we)) in *.
    assert (Hbnone : sentryTransaction (res wb) = None)
      by (by rewrite Hbt, Hk, Hres).
    assert (Hbs : stash wb = stash w).
    { unfold wb, beforeErrorFinalization, when, setStatus, modifyRes, bind, emit, ret.
      destruct (hasScope env); cbn [snd stash setTrace setRes]; by rewrite Hs. }
    exists ((if hasScope env then [EvAddRequestDataProcessor] else [])
              ++ handlerEvents (origHandler req (res we))
              ++ captureEvents env e ++ [EvSetStatus 500 "Internal Server Error"]
              ++ finalizeEvents env wb).
    split; [rewrite Hbtr, Htr, Htrace; by rewrite <- !app_assoc|].
    rewrite !List.filter_app, finalizeEvents_no_start.
    assert (Hfin : List.filter isFinish (finalizeEvents env wb) = []).
    { unfold finalizeEvents, finishEvents. rewrite Hbnone. cbn [app].
      destruct (flushEvents_shape env wb) as (l1 & l2 & -> & _ & _ & _ & H).
      rewrite List.filter_app in *. cbn [List.filter isFinish app].
      destruct (List.filter isFinish l1), (List.filter isFinish l2);
        try discriminate; reflexivity. }
    rewrite Hfin. unfold handlerEvents, captureEvents.
    split; [by destruct (hasScope env), (hStatus (origHandler req (res we))) as [[c m]|]|].
    split; [by destruct (hasScope env), (hStatus (origHandler req (res we))) as [[c m]|]|].
    unfold finalizedHeap. rewrite Hbnone, Hbh, Hh, Hheap, Hbs. auto.
Qed.

Lemma withSentry_without_tracing_witness :
  heap (snd (withSentry Sample.envNoTracing stripUrlQueryAndFragment
               (Sample.throwingHandler (VObject 13)) Sample.request Sample.world))
  = []
  /\ sentryTransaction
       (res (snd (withSentry Sample.envNoTracing stripUrlQueryAndFragment
                    (Sample.throwingHandler (VObject 13)) Sample.request
                    Sample.world))) = None.
Proof.
  destruct (withSentry_without_tracing Sample.envNoTracing stripUrlQueryAndFragment
              (Sample.throwingHandler (VObject 13)) Sample.request Sample.world
              (or_intror eq_refl) eq_refl)
    as (evs & _ & _ & _ & Hheap & _ & Hres).
  split; [exact Hheap | exact Hres].
Defined.

(** X11: when the user's handler throws [e], the wrapped handler reports
    the error with [captureException] exactly once, with [objectify e],
    when there is a scope, and not at all when there is none; in both
    cases it still sets status 500, finalizes and rethrows. *)
Theorem withSentry_captures_once
    (env : Env) (strip : string -> string)
    (origHandler : Handler) (req : Request) (w : World) (e : JsValue) :
  hOutcome (origHandler req (res (handlerEntry env strip req w))) = Throw e ->
  exists w' evs,
    withSentry env strip origHandler req w = (Throw (objectify e), w')
    /\ trace w' = trace (handlerEntry env strip req w) ++ evs
    /\ List.filter isCapture evs
       = (if hasScope env then [EvCaptureException (objectify e)] else [])
    /\ List.filter isFlush evs = [EvFlush 2000]
    /\ statusCode (res w') = 500
    /\ statusMessage (res w') = "Internal Server Error".
Proof.
  intros He.
  set (we := handlerEntry env strip req w).
  destruct (afterHandler_events origHandler req we) as (Htr & _).
  destruct (beforeErrorFinalization_spec env e (afterHandler origHandler req we))
    as (_ & Hcode & Hmsg & _ & _ & _ & Hbtr).
  set (wb := beforeErrorFinalization env e (afterHandler origHandler req we)) in *.
  exists (finalized env wb),
    (handlerEvents (origHandler req (res we))
       ++ captureEvents env e ++ [EvSetStatus 500 "Internal Server Error"]
       ++ finalizeEvents env wb).
  split; [by apply withSentry_throw|].
  cbn [trace res finalized].
  split; [rewrite Hbtr, Htr; by rewrite <- !app_assoc|].
  rewrite !List.filter_app, finalizeEvents_no_capture.
  destruct (finalizeEvents_flush_once env wb) as [-> _].
  unfold handlerEvents, captureEvents.
  repeat split; auto;
    by destruct (hasScope env), (hStatus (origHandler req (res we))) as [[c m]|].
Qed.

Lemma withSentry_captures_once_witness :
  exists w' evs,
    withSentry Sample.env stripUrlQueryAndFragment
      (Sample.throwingHandler (VPrim (PStr "boom"))) Sample.request Sample.world
    = (Throw (VWrapper (PStr "boom")), w')
    /\ List.filter isCapture evs = [EvCaptureException (VWrapper (PStr "boom"))].
Proof.
  destruct (withSentry_captures_once Sample.env stripUrlQueryAndFragment
              (Sample.throwingHandler (VPrim (PStr "boom"))) Sample.request
              Sample.world (VPrim (PStr "boom")) eq_refl)
    as (w' & evs & Hrun & _ & Hcap & _).
  exists w', evs. split; [exact Hrun | exact Hcap].
Defined.

(** X12: with a scope and tracing on, when the user's handler resolves and
    the response (whose [end] was the native one) is then closed through
    [res.end], the transaction that the wrapper started is finished, keeps
    its name, and carries the status the response had when it was closed:
    the one the handler set, or the one the response had before; the
    native close is called. *)
Theorem withSentry_then_close_records_status
    (env : Env) (strip : string -> string)
    (origHandler : Handler) (req : Request) (w : World) (v : JsValue)
    (args : list JsValue) :
  hasScope env = true ->
  tracingEnabled env = true ->
  endMethod (res w) = NativeEnd ->
  hOutcome (origHandler req (res (handlerEntry env strip req w))) = Ok v ->
  exists w1 w2,
    withSentry env strip origHandler req w = (Ok v, w1)
    /\ resEnd env args w1 = (Ok (VPrim PUndefined), w2)
    /\ httpStatus (heap w2 !!! length (heap w))
       = Some (statusAfterHandler
                 (origHandler req (res (handlerEntry env strip req w))) (res w))
    /\ is_Some (endTimestamp (heap w2 !!! length (heap w)))
    /\ name (heap w2 !!! length (heap w)) = transactionName strip req
    /\ trace w2 = trace w1 ++ finalizeEvents env w1 ++ [EvOrigEnd args].
Proof.
  intros Hs Ht Hnative Hv.
  set (we := handlerEntry env strip req w).
  set (r := length (heap w)).
  destruct (handlerEntry_tracing env strip req w Hs Ht) as (_ & _ & _ & Hheap & Hres).
  destruct (handlerEntry_res env strip req w) as (Hend & Hcode0 & _).
  destruct (afterHandler_events origHandler req we) as (_ & Hcode & _).
  destruct (afterHandler_keeps origHandler req we) as (Hke & Hk & Hh & _).
  destruct (afterSuccess_spec env (afterHandler origHandler req we))
    as (_ & Hr & Hheap' & _).
  set (w1 := afterSuccess env (afterHandler origHandler req we)) in *.
  fold we in Hheap, Hres, Hend, Hcode0.
  assert (Hw1t : sentryTransaction (res w1) = Some r) by (by rewrite Hr, Hk, Hres).
  assert (Hw1e : endMethod (res w1) = NewEnd NativeEnd)
    by (by rewrite Hr, Hke, Hend, Hnative).
  assert (Hw1c : statusCode (res w1)
                 = statusAfterHandler (origHandler req (res we)) (res w)).
  { rewrite Hr, Hcode. unfold statusAfterHandler. by rewrite Hcode0. }
  assert (Hw1h : heap w1 = heap w ++ [mkSpan (newSpanId env (length (heap w)))
                    (transactionName strip req) (Some "http.server")
                    (Some "route") None (clock w) None None])
    by (by rewrite Hheap', Hh, Hheap).
  assert (Hlt : r < length (heap w1)).
  { rewrite Hw1h, length_app. unfold r. simpl. lia. }
  exists w1, (setTrace (trace (finalized env w1) ++ [EvOrigEnd args]) (finalized env w1)).
  split; [by apply withSentry_ok|].
  split.
  { unfold resEnd. rewrite Hw1e. cbn [callEnd].
    erewrite bind_ok by apply finishSentryProcessing_run. reflexivity. }
  cbn [heap trace setTrace finalized]. unfold finalizedHeap. rewrite Hw1t, Hw1c.
  split.
  { rewrite (alter_keeps_field httpStatus)
      by (intros o; unfold withFinish; by destruct (endTimestamp o)).
    rewrite (tasksHeap_keeps_field httpStatus)
      by (intros c o; unfold withFinish; by destruct (endTimestamp o)).
    by rewrite list_lookup_total_alter_eq. }
  split.
  { rewrite list_lookup_total_alter_eq
      by (by rewrite tasksHeap_length, length_alter).
    apply withFinish_finished. }
  split; [|by rewrite <- app_assoc].
  rewrite (alter_keeps_field name) by (intros o; apply withFinish_identity).
  rewrite (tasksHeap_keeps_field name) by (intros c o; apply withFinish_identity).
  rewrite (alter_keeps_field name) by reflexivity.
  rewrite Hw1h. unfold r. by rewrite list_lookup_total_middle.
Qed.

Lemma withSentry_then_close_records_status_witness :
  exists w1 w2,
    withSentry Sample.env stripUrlQueryAndFragment Sample.okHandler
      Sample.request Sample.world = (Ok (VPrim PUndefined), w1)
    /\ resEnd Sample.env [] w1 = (Ok (VPrim PUndefined), w2)
    /\ httpStatus (heap w2 !!! 0) = Some 200.
Proof.
  destruct (withSentry_then_close_records_status Sample.env stripUrlQueryAndFragment
              Sample.okHandler Sample.request Sample.world (VPrim PUndefined) []
              eq_refl eq_refl eq_refl eq_refl)
    as (w1 & w2 & H1 & H2 & H3 & _).
  exists w1, w2. split; [exact H1|]. split; [exact H2 | exact H3].
Defined.

(** ** More on the page wrappers *)

(** X13: with tracing off, or in a build, [wrappedUnderscoreApp] only
    calls the user's component and hands its outcome on as it is, a
    thrown value included; it starts nothing and does not touch the
    stash. *)
Theorem wrappedUnderscoreApp_gate
    (env : Env) (orig : UnderscoreAppComponent)
    (contextData : UnderscoreAppContextData) (w : World) :
  tracingEnabled env = false \/ isBuild env = true ->
  wrappedUnderscoreApp env orig contextData w
  = (orig contextData,
     setTrace (trace w ++
       [EvConsoleLog "I'm in the wrappedUnderscoreApp function returned by appWithSentry";
        EvCallOrig]) w).
Proof.
  intros Hgate. unfold wrappedUnderscoreApp.
  assert (Hoff : tracingEnabled env && negb (isBuild env) = false).
  { destruct Hgate as [-> | ->]; simpl; rewrite ?andb_false_r; reflexivity. }
  rewrite Hoff. run_page.
  destruct (orig contextData); step_page; rewrite <- app_assoc; reflexivity.
Qed.

Lemma wrappedUnderscoreApp_gate_witness :
  fst (wrappedUnderscoreApp Sample.envBuild Sample.throwingComponent
         (mkContextData ∅ "/page") Sample.world) = Throw (VObject 13)
  /\ stash (snd (wrappedUnderscoreApp Sample.envBuild Sample.throwingComponent
                   (mkContextData ∅ "/page") Sample.world)) = None.
Proof.
  rewrite (wrappedUnderscoreApp_gate Sample.envBuild Sample.throwingComponent
             (mkContextData ∅ "/page") Sample.world (or_intror eq_refl)).
  split; reflexivity.
Defined.

(** X14: with tracing active, and an id in the props that names nothing
    that the stash object inherits, [wrappedUnderscoreApp] gives the
    transaction it works on (resumed or new) the name of the route with
    source [route], before the component is called; the name is the route
    whether the component returns or throws. *)
Theorem wrappedUnderscoreApp_renames
    (env : Env) (orig : UnderscoreAppComponent)
    (contextData : UnderscoreAppContextData) (w : World) :
  tracingEnabled env = true ->
  isBuild env = false ->
  stashValid w ->
  findsInherited w (appKey contextData) = false ->
  name (heap (snd (wrappedUnderscoreApp env orig contextData w))
          !!! appRef contextData w) = route contextData
  /\ source (heap (snd (wrappedUnderscoreApp env orig contextData w))
               !!! appRef contextData w) = Some "route"
  /\ Before (EvSetName (appRef contextData w) (route contextData) "route")
       EvCallOrig
       (trace (snd (wrappedUnderscoreApp env orig contextData w))).
Proof.
  intros Ht Hb Hvalid Hplain.
  destruct (appAcquire_spec env contextData w Hvalid Hplain)
    as (wA & evsA & Hacq & HtrA & _ & Hlt & _ & _).
  rewrite (wrappedUnderscoreApp_run env orig contextData w wA _ Ht Hb Hacq).
  set (r := appRef contextData w) in *.
  assert (Hbefore : forall tail,
            Before (EvSetName r (route contextData) "route") EvCallOrig
              (trace wA ++ appRenameEvents env contextData r wA ++ tail)).
  { intros tail. unfold appRenameEvents.
    exists (trace wA ++ logEvents env
              ("Found an active transaction. Changing its name from "
               ++ name (heap wA !!! r) ++ " to " ++ route contextData)%string),
      [EvStartChild r (length (heap wA)) "_app wrapper"], tail.
    rewrite <- !app_assoc. reflexivity. }
  destruct (orig contextData) as [jsx|e] eqn:Horig.
  - destruct (appRest_ok env orig contextData r wA jsx Horig)
      as (w' & -> & Hheap & _ & Htrace).
    cbn [snd]. rewrite Hheap, Htrace.
    split; [|split; [|apply Hbefore]].
    + keep_field name. by rewrite list_lookup_total_alter_eq.
    + keep_field source. by rewrite list_lookup_total_alter_eq.
  - destruct (appRest_throw env orig contextData r wA e Horig)
      as (w' & -> & _ & Hheap & Htrace).
    cbn [snd]. rewrite Hheap, Htrace.
    split; [|split; [|rewrite <- (app_nil_r (appRenameEvents _ _ _ _)); apply Hbefore]].
    + keep_field name. by rewrite list_lookup_total_alter_eq.
    + keep_field source. by rewrite list_lookup_total_alter_eq.
Qed.

Lemma wrappedUnderscoreApp_renames_witness :
  name (heap (snd (wrappedUnderscoreApp Sample.env Sample.component
                     (mkContextData
                        (props (setTransactionId "span0" Sample.pageResult)) "/page")
                     (snd (wrappedGSP Sample.env Sample.gSP ∅ Sample.world))))
          !!! 0) = "/page".
Proof.
  assert (Hvalid : stashValid (snd (wrappedGSP Sample.env Sample.gSP ∅ Sample.world))).
  { intros k r. unfold stashLookup. cbn.
    destruct (decide (k = "span0")) as [->|Hne].
    - rewrite lookup_insert_eq. intros [= <-]. lia.
    - by rewrite lookup_insert_ne. }
  exact (proj1 (wrappedUnderscoreApp_renames Sample.env Sample.component
                  (mkContextData
                     (props (setTransactionId "span0" Sample.pageResult)) "/page")
                  (snd (wrappedGSP Sample.env Sample.gSP ∅ Sample.world))
                  eq_refl eq_refl Hvalid eq_refl)).
Defined.

(** X23: with tracing active, when the id of the props names a property
    that the stash object inherits from [Object.prototype] and is not a
    transaction ([constructor], [toString], ...), the lookup yields that
    value, [wrappedUnderscoreApp] takes it for the transaction, and the
    call of [setName] on it throws a [TypeError]: the component is not
    called, nothing is started, and heap and stash are as before. *)
Theorem wrappedUnderscoreApp_inherited_id
    (env : Env) (orig : UnderscoreAppComponent)
    (contextData : UnderscoreAppContextData) (w : World) :
  tracingEnabled env = true ->
  isBuild env = false ->
  findsInherited w (appKey contextData) = true ->
  exists logs,
    wrappedUnderscoreApp env orig contextData w
    = (Throw (VTypeError "activeTransaction.setName is not a function"),
       setTrace
         (trace w
            ++ [EvConsoleLog
                  "I'm in the wrappedUnderscoreApp function returned by appWithSentry"]
            ++ logs) w)
    /\ forallb isLoggerLog logs = true.
Proof.
  intros Ht Hb Hinh. unfold findsInherited in Hinh.
  destruct (stashGet w (appKey contextData)) as [[r|member]|] eqn:Hget;
    try discriminate.
  assert (Hacq : appAcquire env contextData (appEntry w)
                 = (Ok (HitInherited member), appEntry w))
    by (by apply appAcquire_hit).
  rewrite (wrappedUnderscoreApp_run env orig contextData w _ _ Ht Hb Hacq).
  destruct (appRest_inherited env orig contextData member (appEntry w))
    as (logs & Hrun & Hlogs).
  exists logs. split; [|exact Hlogs].
  rewrite Hrun. unfold appEntry. cbn [trace setTrace].
  by rewrite <- app_assoc.
Qed.

Lemma wrappedUnderscoreApp_inherited_id_witness :
  exists logs,
    wrappedUnderscoreApp Sample.env Sample.component
      (mkContextData {[ TRANSACTION_ID_KEY := VPrim (PStr "constructor") ]} "/page")
      Sample.afterGSP
    = (Throw (VTypeError "activeTransaction.setName is not a function"),
       setTrace
         (trace Sample.afterGSP
            ++ [EvConsoleLog
                  "I'm in the wrappedUnderscoreApp function returned by appWithSentry"]
            ++ logs) Sample.afterGSP)
    /\ forallb isLoggerLog logs = true.
Proof.
  exact (wrappedUnderscoreApp_inherited_id Sample.env Sample.component
           (mkContextData {[ TRANSACTION_ID_KEY := VPrim (PStr "constructor") ]} "/page")
           Sample.afterGSP eq_refl eq_refl eq_refl).
Defined.

(** X15: when the user's data-loading function throws while tracing is
    active, [wrappedGSP] and [wrappedGSSP] throw the same value and run
    nothing after the call: no span is finished, no field is written, and
    the transaction stays in the stash. *)
Theorem data_loading_wrappers_throw (env : Env) (w : World) (e : JsValue) :
  tracingEnabled env = true ->
  isBuild env = false ->
  (forall (gSP : GetStaticPropsFunction) (context : GetStaticPropsContextData),
      gSP context = Throw e ->
      exists w' evs,
        wrappedGSP env gSP context w = (Throw e, w')
        /\ trace w' = trace w ++ evs
        /\ List.filter isFinish evs = []
        /\ heap w' = heap w ++ [gspTransaction env w; gspChild env w]
        /\ stashLookup w' (newSpanId env (length (heap w))) = Some (length (heap w)))
  /\ (forall (gSSP : GetServerSidePropsFunction) (rt : string)
             (context : GetServerSidePropsContext),
        Str.endsWith ".map" (resolvedUrl context) = false ->
        gSSP context = Throw e ->
        exists w' evs,
          wrappedGSSP env gSSP rt context w = (Throw e, w')
          /\ trace w' = trace w ++ evs
          /\ List.filter isFinish evs = []
          /\ exists k, stashLookup w' k = Some (gsspRef w)).
Proof.
  intros Ht Hb. split.
  - intros gSP context He. unfold wrappedGSP, gspTransaction, gspChild.
    rewrite Ht, Hb. cbn [andb negb]. run_page. rewrite He. step_page.
    rewrite !length_app. cbn [length]. rewrite !Nat.add_1_r, <- !app_assoc.
    cbn [app]. rewrite !list_lookup_total_middle by reflexivity. cbn [spanId].
    eexists _, _. split; [reflexivity|]. step_page.
    split; [reflexivity|]. split; [reflexivity|]. split; [reflexivity|].
    unfold stashLookup. step_page. apply lookup_insert_eq.
  - intros gSSP rt context Hmap He. unfold wrappedGSSP, gsspRef.
    rewrite Ht, Hb, Hmap. cbn [andb negb].
    pose proof (stashGet_empty_id w) as Hget. unfold stashGet in Hget.
    destruct (stashLookup w "") as [r0|] eqn:Hlook;
      cbn [fmap option_fmap option_map] in Hget.
    + destruct (stashLookup_Some _ _ _ Hlook) as (st & Hstash & Hst).
      run_page. rewrite Hget. step_page. rewrite He. step_page.
      rewrite Hstash. rewrite <- !app_assoc.
      eexists _, _. split; [reflexivity|]. step_page.
      split; [reflexivity|]. split; [reflexivity|].
      eexists. unfold stashLookup. step_page. apply lookup_insert_eq.
    + run_page. rewrite Hget. step_page. rewrite He. step_page.
      rewrite <- !app_assoc.
      eexists _, _. split; [reflexivity|]. step_page.
      split; [reflexivity|]. split; [reflexivity|].
      eexists. unfold stashLookup. step_page. apply lookup_insert_eq.
Qed.

Lemma data_loading_wrappers_throw_witness :
  exists w',
    wrappedGSP Sample.env (fun _ => Throw (VObject 13)) ∅ Sample.world
    = (Throw (VObject 13), w')
    /\ stashLookup w' "span0" = Some 0.
Proof.
  destruct (data_loading_wrappers_throw Sample.env Sample.world (VObject 13)
              eq_refl eq_refl) as [Hgsp _].
  destruct (Hgsp (fun _ => Throw (VObject 13)) ∅ eq_refl)
    as (w' & evs & Hrun & _ & _ & _ & Hst).
  exists w'. split; [exact Hrun | exact Hst].
Defined.

(** X16: on the traced branch, the props that [wrappedGSP] and
    [wrappedGSSP] resolve with are the user's props with the reserved key
    set to the span id of the transaction the wrapper worked on (for
    [wrappedGSP] the id of the transaction it started), under which the
    stash then holds that transaction: a field of that name coming from
    the user's function is overwritten, every other field is kept. *)
Theorem data_loading_wrappers_props (env : Env) (w : World) :
  tracingEnabled env = true ->
  isBuild env = false ->
  stashValid w ->
  (forall (gSP : GetStaticPropsFunction) (context : GetStaticPropsContextData)
          (fp : PropsResult),
      gSP context = Ok fp ->
      exists fp' w1,
        wrappedGSP env gSP context w = (Ok fp', w1)
        /\ props fp' !! TRANSACTION_ID_KEY
           = Some (VPrim (PStr (spanId (heap w1 !!! length (heap w)))))
        /\ spanId (heap w1 !!! length (heap w)) = newSpanId env (length (heap w))
        /\ stashLookup w1 (spanId (heap w1 !!! length (heap w)))
           = Some (length (heap w))
        /\ forall k, k <> TRANSACTION_ID_KEY -> props fp' !! k = props fp !! k)
  /\ (forall (gSSP : GetServerSidePropsFunction) (rt : string)
             (context : GetServerSidePropsContext) (fp : PropsResult),
        Str.endsWith ".map" (resolvedUrl context) = false ->
        gSSP context = Ok fp ->
        exists fp' w1,
          wrappedGSSP env gSSP rt context w = (Ok fp', w1)
          /\ props fp' !! TRANSACTION_ID_KEY
             = Some (VPrim (PStr (spanId (heap w1 !!! gsspRef w))))
          /\ stashLookup w1 (spanId (heap w1 !!! gsspRef w)) = Some (gsspRef w)
          /\ forall k, k <> TRANSACTION_ID_KEY -> props fp' !! k = props fp !! k).
Proof.
  intros Ht Hb Hvalid. split.
  - intros gSP context fp Hfp.
    destruct (wrappedGSP_traced env gSP context w fp Ht Hb Hfp)
      as (w1 & Hrun & Hheap & Hstash & _).
    assert (Hobj : heap w1 !!! length (heap w) = gspTransaction env w).
    { rewrite Hheap. rewrite list_lookup_total_alter_ne by lia.
      by rewrite list_lookup_total_middle. }
    exists (setTransactionId (newSpanId env (length (heap w))) fp), w1.
    split; [exact Hrun|]. rewrite Hobj. unfold setTransactionId.
    cbn [props spanId gspTransaction].
    split; [apply lookup_insert_eq|]. split; [reflexivity|].
    split; [unfold stashLookup; rewrite Hstash; apply lookup_insert_eq|].
    intros k Hk. by apply lookup_insert_ne.
  - intros gSSP rt context fp Hmap Hfp.
    destruct (wrappedGSSP_traced env gSSP rt context w fp Ht Hb Hmap Hfp Hvalid)
      as (w1 & id & Hrun & _ & Hid & Hst & _).
    exists (setTransactionId id fp), w1.
    split; [exact Hrun|]. rewrite Hid. unfold setTransactionId. cbn [props].
    split; [apply lookup_insert_eq|]. split; [exact Hst|].
    intros k Hk. by apply lookup_insert_ne.
Qed.

Lemma data_loading_wrappers_props_witness :
  exists fp' w1,
    wrappedGSP Sample.env
      (fun _ => Ok (mkPropsResult
                      {[ TRANSACTION_ID_KEY := VPrim (PStr "mine") ]}))
      ∅ Sample.world = (Ok fp', w1)
    /\ props fp' !! TRANSACTION_ID_KEY = Some (VPrim (PStr "span0"))
    /\ stashLookup w1 "span0" = Some 0.
Proof.
  destruct (data_loading_wrappers_props Sample.env Sample.world
              eq_refl eq_refl stashValid_sample) as [Hgsp _].
  destruct (Hgsp (fun _ => Ok (mkPropsResult
                                 {[ TRANSACTION_ID_KEY := VPrim (PStr "mine") ]}))
              ∅ _ eq_refl) as (fp' & w1 & Hrun & Hkey & Hid & Hst & _).
  exists fp', w1. rewrite Hid in Hkey, Hst.
  split; [exact Hrun|]. split; [exact Hkey | exact Hst].
Defined.

(** ** An invariant of the stash *)

Lemma heapExtends_refl (h : list SpanObj) : heapExtends h h.
Proof. split; auto. Qed.

Lemma heapExtends_alter (f : SpanObj -> SpanObj) (r : ref) (h : list SpanObj) :
  (forall o, spanId (f o) = spanId o) -> heapExtends h (alter f r h).
Proof.
  intros Hf. split; [by rewrite length_alter|].
  intros r' _. by apply alter_keeps_field.
Qed.

Lemma heapExtends_app (h : list SpanObj) (o : SpanObj) : heapExtends h (h ++ [o]).
Proof.
  split; [rewrite length_app; lia|].
  intros r Hr. by rewrite lookup_total_app_l.
Qed.

Lemma keeps_frame {A : Type} (m : M A) :
  (forall w, stash (snd (m w)) = stash w
             /\ heapExtends (heap w) (heap (snd (m w)))) ->
  keepsStashKeyed m.
Proof.
  intros Hm w Hinv k r Hlook. destruct (Hm w) as (Hst & Hlen & Hid).
  unfold stashLookup in Hlook. rewrite Hst in Hlook.
  destruct (Hinv k r Hlook) as [Hlt Hk].
  split; [lia|]. by rewrite Hid.
Qed.

Lemma keeps_bind {A B : Type} (m : M A) (k : A -> M B) :
  keepsStashKeyed m -> (forall a, keepsStashKeyed (k a)) ->
  keepsStashKeyed (bind m k).
Proof.
  intros Hm Hk w Hinv. unfold bind.
  specialize (Hm w Hinv). destruct (m w) as [[a|e] w']; cbn [snd] in *.
  - by apply Hk.
  - exact Hm.
Qed.

Lemma keeps_tryCatch {A : Type} (body : M A) (handler : JsValue -> M A) :
  keepsStashKeyed body -> (forall e, keepsStashKeyed (handler e)) ->
  keepsStashKeyed (tryCatch body handler).
Proof.
  intros Hb Hh w Hinv. unfold tryCatch.
  specialize (Hb w Hinv). destruct (body w) as [[a|e] w']; cbn [snd] in *.
  - exact Hb.
  - by apply Hh.
Qed.

Lemma keeps_ret {A : Type} (a : A) : keepsStashKeyed (ret a).
Proof. intros w H. exact H. Qed.

Lemma keeps_throw {A : Type} (e : JsValue) : keepsStashKeyed (@throw A e).
Proof. intros w H. exact H. Qed.

Lemma keeps_liftResult {A : Type} (r : Result A) : keepsStashKeyed (liftResult r).
Proof. destruct r; [apply keeps_ret | apply keeps_throw]. Qed.

Lemma keeps_emit (e : Event) : keepsStashKeyed (emit e).
Proof. apply keeps_frame. intros w. split; [reflexivity|apply heapExtends_refl]. Qed.

Lemma keeps_when (b : bool) (m : M unit) :
  keepsStashKeyed m -> keepsStashKeyed (when b m).
Proof. destruct b; [auto|intros _; apply keeps_ret]. Qed.

Lemma keeps_debugLog (env : Env) (msg : string) : keepsStashKeyed (debugLog env msg).
Proof. apply keeps_when, keeps_emit. Qed.

Lemma keeps_readSpan (r : ref) : keepsStashKeyed (readSpan r).
Proof. intros w H. exact H. Qed.

Lemma keeps_modifyRes (f : Response -> Response) : keepsStashKeyed (modifyRes f).
Proof. apply keeps_frame. intros w. split; [reflexivity|apply heapExtends_refl]. Qed.

Lemma keeps_getTransactionById (id : option string) :
  keepsStashKeyed (getTransactionById id).
Proof. intros w H. exact H. Qed.

Lemma keeps_startTransaction (env : Env) (nm : string) (o src th bh : option string) :
  keepsStashKeyed (startTransaction env nm o src th bh).
Proof.
  apply keeps_frame. intros w. split; [reflexivity|apply heapExtends_app].
Qed.

Lemma keeps_startChild (env : Env) (parent : ref) (o : string) :
  keepsStashKeyed (startChild env parent o).
Proof.
  apply keeps_frame. intros w. split; [reflexivity|apply heapExtends_app].
Qed.

Lemma keeps_setName (r : ref) (nm src : string) : keepsStashKeyed (setName r nm src).
Proof.
  apply keeps_frame. intros w. split; [reflexivity|].
  by apply heapExtends_alter.
Qed.

Lemma keeps_setHttpStatus (r : ref) (code : nat) :
  keepsStashKeyed (setHttpStatus r code).
Proof.
  apply keeps_frame. intros w. split; [reflexivity|].
  by apply heapExtends_alter.
Qed.

Lemma keeps_finish (r : ref) : keepsStashKeyed (finish r).
Proof.
  apply keeps_frame. intros w. split; [reflexivity|].
  apply heapExtends_alter. intros o. apply withFinish_fields.
Qed.

Lemma keeps_flush (env : Env) (timeout : nat) : keepsStashKeyed (flush env timeout).
Proof.
  apply keeps_frame. intros w. unfold flush.
  destruct (flushOutcome env (flushes w)); split;
    first [reflexivity | apply heapExtends_refl].
Qed.

Lemma keeps_hitName (t : StashHit) : keepsStashKeyed (hitName t).
Proof. destruct t; intros w H; exact H. Qed.

Lemma keeps_asTransaction (callee : string) (t : StashHit) :
  keepsStashKeyed (asTransaction callee t).
Proof. destruct t; intros w H; exact H. Qed.

Lemma keeps_deleteTransaction (id : string) : keepsStashKeyed (deleteTransaction id).
Proof.
  intros w Hinv k r Hlook.
  assert (Hold : stashLookup w k = Some r).
  { unfold deleteTransaction, stashLookup in *. cbn [snd] in Hlook.
    destruct (stash w) as [st|] eqn:Hst;
      cbn [stash setStash setStashUndefined] in Hlook.
    - destruct (decide (id = k)) as [->|Hne].
      + by rewrite lookup_delete_eq in Hlook.
      + by rewrite lookup_delete_ne in Hlook.
    - by rewrite Hst in Hlook. }
  assert (Hheap : heap (snd (deleteTransaction id w)) = heap w).
  { unfold deleteTransaction. cbn [snd]. by destruct (stash w). }
  rewrite Hheap. by apply Hinv.
Qed.

(** Stashing keeps the invariant when the transaction is an object of the
    heap; an inherited value goes under [undefined], where no transaction
    is left. *)
Lemma stashTransaction_keyed (t : StashHit) (w : World) :
  stashKeyed w ->
  (forall r, t = HitTransaction r -> r < length (heap w)) ->
  stashKeyed (snd (stashTransaction t w)).
Proof.
  intros Hinv Hlt k r'. destruct t as [r|member].
  - rewrite stashTransaction_run. unfold stashLookup in *.
    cbn [snd stash heap setStash setStashUndefined].
    destruct (decide (spanId (heap w !!! r) = k)) as [<-|Hne].
    + rewrite lookup_insert_eq. intros [= <-]. split; [by apply Hlt|reflexivity].
    + rewrite lookup_insert_ne by done. intros Hlook. apply (Hinv k r').
      unfold stashLookup.
      destruct (stash w); cbn [default from_option Datatypes.id] in Hlook;
        [exact Hlook|by rewrite lookup_empty in Hlook].
  - unfold stashTransaction, stashLookup in *.
    cbn [snd stash heap setStash setStashUndefined].
    destruct (decide ("undefined" = k)) as [<-|Hne].
    + by rewrite lookup_delete_eq.
    + rewrite lookup_delete_ne by done. intros Hlook. apply (Hinv k r').
      unfold stashLookup.
      destruct (stash w); cbn [default from_option Datatypes.id] in Hlook;
        [exact Hlook|by rewrite lookup_empty in Hlook].
Qed.

Lemma keeps_startOrGet (env : Env) (rt : string) (id : option string) :
  keepsStashKeyed (startOrGetPageRouteTransaction env rt id).
Proof.
  intros w Hinv. unfold startOrGetPageRouteTransaction.
  unfold bind at 1. unfold getTransactionById at 1. cbn beta iota.
  destruct (stashGet w (default "" id)) as [t|] eqn:Hget.
  - unfold bind, ret. cbn beta iota.
    assert (Hrun : stashTransaction t w = (Ok tt, snd (stashTransaction t w)))
      by (by destruct t).
    rewrite Hrun. cbn [snd].
    apply stashTransaction_keyed; [exact Hinv|].
    intros r ->. apply stashGet_transaction in Hget. by destruct (Hinv _ _ Hget).
  - unfold bind at 1. unfold bind at 1.
    pose proof (keeps_startTransaction env rt (Some "http.server") (Some "route")
                  None None w Hinv) as Hstart.
    assert (Hrun : exists w1,
               startTransaction env rt (Some "http.server") (Some "route") None None w
               = (Ok (length (heap w)), w1)
               /\ length (heap w) < length (heap w1)).
    { eexists. split; [reflexivity|]. cbn. rewrite length_app. simpl. lia. }
    destruct Hrun as (w1 & Hrun & Hlt). rewrite Hrun in *. cbn [snd] in Hstart.
    unfold bind, ret. rewrite stashTransaction_run. cbn [snd].
    change (stashKeyed (snd (stashTransaction (HitTransaction (length (heap w))) w1))).
    apply stashTransaction_keyed; [exact Hstart|]. by intros r [= <-].
Qed.

Lemma keeps_start_stash {A : Type} (env : Env) (nm : string)
    (o src th bh : option string) (k : ref -> M A) :
  (forall t, keepsStashKeyed (k t)) ->
  keepsStashKeyed
    (bind (startTransaction env nm o src th bh)
       (fun t => bind (stashTransaction (HitTransaction t)) (fun _ => k t))).
Proof.
  intros Hk w Hinv.
  pose proof (keeps_startTransaction env nm o src th bh w Hinv) as Hstart.
  assert (Hrun : exists w1,
             startTransaction env nm o src th bh w = (Ok (length (heap w)), w1)
             /\ length (heap w) < length (heap w1)).
  { eexists. split; [reflexivity|]. cbn. rewrite length_app. simpl. lia. }
  destruct Hrun as (w1 & Hrun & Hlt). rewrite Hrun in Hstart. cbn [snd] in Hstart.
  rewrite (bind_ok _ _ _ _ _ Hrun).
  rewrite (bind_ok _ _ _ _ _ (stashTransaction_run (length (heap w)) w1)).
  apply Hk.
  change (stashKeyed (snd (stashTransaction (HitTransaction (length (heap w))) w1))).
  apply stashTransaction_keyed; [exact Hstart|]. by intros r [= <-].
Qed.

Ltac keeps_step :=
  first
    [ apply keeps_ret | apply keeps_throw | apply keeps_liftResult
    | apply keeps_emit | apply keeps_debugLog | apply keeps_readSpan
    | apply keeps_hitName | apply keeps_asTransaction
    | apply keeps_modifyRes | apply keeps_getTransactionById
    | apply keeps_startOrGet
    | apply keeps_startTransaction | apply keeps_startChild
    | apply keeps_setName | apply keeps_setHttpStatus | apply keeps_finish
    | apply keeps_flush | apply keeps_deleteTransaction
    | apply keeps_when
    | apply keeps_start_stash; intros ?
    | apply keeps_tryCatch; [|intros ?]
    | apply keeps_bind; [|intros ?]
    | match goal with
      | |- keepsStashKeyed (match ?x with _ => _ end) => destruct x
      | |- keepsStashKeyed (if ?b then _ else _) => destruct b
      end ].

Lemma keeps_runTasks (ts : list Task) : keepsStashKeyed (runTasks ts).
Proof.
  induction ts as [|[r|l] rest IH]; cbn [runTasks runTask]; repeat keeps_step.
  all: exact IH.
Qed.

Lemma keeps_finishSentryProcessing (env : Env) :
  keepsStashKeyed (finishSentryProcessing env).
Proof.
  unfold finishSentryProcessing, awaitImmediate.
  apply keeps_bind; [intros w H; exact H|]. intros transaction.
  apply keeps_bind.
  - destruct transaction as [t|]; [|apply keeps_ret].
    apply keeps_bind; [intros w H; exact H|]. intros code.
    apply keeps_bind; [apply keeps_setHttpStatus|]. intros _.
    apply keeps_bind.
    { apply keeps_frame. intros w. split; [reflexivity|apply heapExtends_refl]. }
    intros pending.
    apply keeps_bind; [apply keeps_runTasks|]. intros _.
    repeat keeps_step.
  - intros _. repeat keeps_step.
Qed.

Lemma keeps_callEnd (env : Env) (m : EndMethod) (args : list JsValue) :
  keepsStashKeyed (callEnd env m args).
Proof.
  induction m as [|origEnd IH]; cbn [callEnd].
  - repeat keeps_step.
  - apply keeps_bind; [apply keeps_finishSentryProcessing|]. intros _. exact IH.
Qed.

Lemma keeps_setStatus (code : nat) (msg : string) : keepsStashKeyed (setStatus code msg).
Proof. unfold setStatus. repeat keeps_step. Qed.

Lemma keeps_callOrig {A : Type} (r : Result A) : keepsStashKeyed (callOrig r).
Proof. unfold callOrig. repeat keeps_step. Qed.

(** X17: every transaction that the stash holds is keyed by its span id
    and exists; this holds when nothing was stashed yet and is kept by
    each wrapper of the file and by the wrapped [res.end], whatever the
    user's code returns or throws.  With it, every transaction found in
    the stash is an object of the heap. *)
Theorem stash_keyed_invariant (env : Env) (strip : string -> string) :
  (forall w, stash w = None -> stashKeyed w)
  /\ (forall origHandler req, keepsStashKeyed (withSentry env strip origHandler req))
  /\ (forall args, keepsStashKeyed (resEnd env args))
  /\ (forall orig contextData,
        keepsStashKeyed (wrappedUnderscoreApp env orig contextData))
  /\ (forall gSSP rt context, keepsStashKeyed (wrappedGSSP env gSSP rt context))
  /\ (forall gSP context, keepsStashKeyed (wrappedGSP env gSP context))
  /\ (forall w, stashKeyed w -> stashValid w).
Proof.
  split; [|split; [|split; [|split; [|split; [|split]]]]].
  - intros w Hnone k r. unfold stashLookup. rewrite Hnone. discriminate.
  - intros origHandler req. unfold withSentry, startRequestTransaction.
    apply keeps_bind; [apply keeps_modifyRes|]. intros _.
    apply keeps_bind.
    { repeat keeps_step. }
    intros _. apply keeps_tryCatch.
    + apply keeps_bind; [|intros ?; repeat keeps_step].
      intros w Hinv. unfold callHandler. cbv zeta.
      revert w Hinv.
      change (keepsStashKeyed
                (fun w => (emit EvCallOrig ;;
                           match hStatus (origHandler req (res w)) with
                           | Some (code, msg) => setStatus code msg
                           | None => ret tt
                           end ;;
                           liftResult (hOutcome (origHandler req (res w)))) w)).
      intros w Hinv.
      apply (keeps_bind (emit EvCallOrig)); [apply keeps_emit| |exact Hinv].
      intros _. apply keeps_bind; [|intros _; apply keeps_liftResult].
      destruct (hStatus (origHandler req (res w))) as [[c m]|];
        [apply keeps_setStatus | apply keeps_ret].
    + intros e. cbv zeta.
      apply keeps_bind; [repeat keeps_step|]. intros _.
      apply keeps_bind; [apply keeps_setStatus|]. intros _.
      apply keeps_bind; [apply keeps_finishSentryProcessing|]. intros _.
      apply keeps_throw.
  - intros args w Hinv. unfold resEnd. by apply keeps_callEnd.
  - intros orig contextData. unfold wrappedUnderscoreApp.
    apply keeps_bind; [apply keeps_emit|]. intros _.
    destruct (tracingEnabled env && negb (isBuild env)); [|apply keeps_callOrig].
    apply keeps_bind; [apply keeps_getTransactionById|]. intros [t|].
    + repeat first [apply keeps_callOrig | keeps_step].
    + repeat first [apply keeps_callOrig | keeps_step].
  - intros gSSP rt context. unfold wrappedGSSP.
    repeat first [apply keeps_callOrig | keeps_step].
  - intros gSP context. unfold wrappedGSP.
    repeat first [apply keeps_callOrig | keeps_step].
  - intros w Hinv k r Hlook. by destruct (Hinv k r Hlook).
Qed.

Lemma stash_keyed_invariant_witness :
  stashKeyed
    (snd (wrappedUnderscoreApp Sample.env Sample.throwingComponent
            (mkContextData ∅ "/page")
            (snd (wrappedGSP Sample.env Sample.gSP ∅ Sample.world)))).
Proof.
  destruct (stash_keyed_invariant Sample.env stripUrlQueryAndFragment)
    as (Hfresh & _ & _ & Happ & _ & Hgsp & _).
  apply Happ, Hgsp, Hfresh. reflexivity.
Defined.


(** ** More on the page wrappers and the stash *)

Lemma appAcquire_others (env : Env) (contextData : UnderscoreAppContextData) (w : World) :
  stashKeyed w ->
  findsInherited w (appKey contextData) = false ->
  exists wA,
    appAcquire env contextData (appEntry w)
    = (Ok (HitTransaction (appRef contextData w)), wA)
    /\ appRef contextData w < length (heap wA)
    /\ stashLookup wA (spanId (heap wA !!! appRef contextData w))
       = Some (appRef contextData w)
    /\ (forall k, k <> spanId (heap wA !!! appRef contextData w) ->
          stashLookup wA k = stashLookup w k)
    /\ (forall k, k <> spanId (heap wA !!! appRef contextData w) ->
          stashGet wA k = lookupAfterCreation w k)
    /\ is_Some (stash wA).
Proof.
  intros Hinv Hplain. pose proof (stashGet_plain _ _ Hplain) as Hget.
  unfold appRef.
  destruct (stashLookup w (appKey contextData)) as [r|] eqn:Hlook.
  - exists (appEntry w). destruct (Hinv _ _ Hlook) as [Hlt Hid].
    destruct (stashLookup_Some _ _ _ Hlook) as (st & Hstash & _).
    split; [by apply appAcquire_found|]. split; [exact Hlt|].
    cbn [heap appEntry setTrace]. rewrite Hid. split; [exact Hlook|].
    split; [auto|]. split; [|exists st; exact Hstash].
    intros k _. unfold lookupAfterCreation. by rewrite Hstash.
  - cbn [fmap option_fmap option_map] in Hget.
    set (w1 := snd (startTransaction env (route contextData) None (Some "route")
                      None None (appEntry w))).
    assert (Hrun : appAcquire env contextData (appEntry w)
                   = (Ok (HitTransaction (length (heap w))),
                      snd (stashTransaction (HitTransaction (length (heap w))) w1))).
    { unfold appAcquire.
      assert (Hg : getTransactionById (transactionIdOf (pageProps contextData))
                     (appEntry w) = (Ok None, appEntry w)).
      { unfold getTransactionById. unfold appKey in Hget.
        change (stashGet (appEntry w) (default "" (transactionIdOf (pageProps contextData))))
          with (stashGet w (default "" (transactionIdOf (pageProps contextData)))).
        by rewrite Hget. }
      rewrite (bind_ok _ _ _ _ _ Hg). reflexivity. }
    assert (Hobj : heap w1 !!! length (heap w) = appTransaction env contextData w).
    { unfold w1. cbn. by rewrite list_lookup_total_middle. }
    exists (snd (stashTransaction (HitTransaction (length (heap w))) w1)).
    split; [exact Hrun|].
    assert (Hheap : heap (snd (stashTransaction (HitTransaction (length (heap w))) w1))
                    = heap w1) by reflexivity.
    rewrite Hheap, Hobj. cbn [spanId appTransaction].
    split; [unfold w1; cbn; rewrite length_app; simpl; lia|].
    split.
    { apply stashGet_transaction. rewrite stashGet_after_stash, Hobj.
      cbn [spanId appTransaction]. by rewrite decide_True. }
    split.
    { intros k Hk. rewrite stashTransaction_run, Hobj. unfold stashLookup.
      cbn [snd stash setStash setStashUndefined spanId appTransaction].
      rewrite lookup_insert_ne by done.
      change (stash w1) with (stash w).
      destruct (stash w); [reflexivity|apply lookup_empty]. }
    split; [|rewrite stashTransaction_run; cbn; eauto].
    intros k Hk. rewrite stashGet_after_stash, Hobj.
    cbn [spanId appTransaction]. by rewrite decide_False.
Qed.

(** X20: when the component returns with tracing active, and the id of
    the props names nothing that the stash object inherits,
    [wrappedUnderscoreApp] removes the entry of the transaction it worked
    on and no other: the stash holds no transaction under its span id,
    and holds every other transaction as before; a lookup of another id
    yields what it yielded before the call, or, when the call created the
    stash object, what a plain object inherits under that id. *)
Theorem wrappedUnderscoreApp_removes_only_its_entry
    (env : Env) (orig : UnderscoreAppComponent)
    (contextData : UnderscoreAppContextData) (w : World) (jsx : JsValue) :
  tracingEnabled env = true ->
  isBuild env = false ->
  stashKeyed w ->
  findsInherited w (appKey contextData) = false ->
  orig contextData = Ok jsx ->
  exists w' sid,
    wrappedUnderscoreApp env orig contextData w = (Ok jsx, w')
    /\ sid = spanId (heap w' !!! appRef contextData w)
    /\ stashLookup w' sid = None
    /\ stashGet w' sid = inheritedProperty sid
    /\ (forall k, k <> sid -> stashLookup w' k = stashLookup w k)
    /\ (forall k, k <> sid -> stashGet w' k = lookupAfterCreation w k).
Proof.
  intros Ht Hb Hinv Hplain Hv.
  destruct (appAcquire_others env contextData w Hinv Hplain)
    as (wA & Hacq & Hlt & _ & Hothers & Hgets & [stA HstA]).
  destruct (appRest_ok env orig contextData (appRef contextData w) wA jsx Hv)
    as (w' & Hrest & Hheap & Hstash & _).
  pose proof (fun k => appRest_ok_lookup env orig contextData
                         (appRef contextData w) wA jsx k Hv Hlt) as Hlookup.
  rewrite Hrest in Hlookup. cbn [snd] in Hlookup.
  exists w', (spanId (heap w' !!! appRef contextData w)).
  split; [by rewrite (wrappedUnderscoreApp_run env orig contextData w wA _ Ht Hb Hacq)|].
  split; [reflexivity|].
  assert (Hsid : spanId (heap w' !!! appRef contextData w)
                 = spanId (heap wA !!! appRef contextData w)).
  { rewrite Hheap. by keep_field spanId. }
  split.
  { unfold stashLookup. rewrite Hstash, HstA. apply lookup_delete_eq. }
  split.
  { rewrite Hlookup, stashGet_after_delete, HstA, Hsid. by rewrite decide_True. }
  split.
  - intros k Hk. rewrite <- (Hothers k) by (by rewrite <- Hsid).
    unfold stashLookup. rewrite Hstash, HstA. by apply lookup_delete_ne.
  - intros k Hk. rewrite Hlookup, stashGet_after_delete.
    rewrite decide_False by (by rewrite <- Hsid).
    apply Hgets. by rewrite <- Hsid.
Qed.

Lemma stashKeyed_sample : stashKeyed Sample.world.
Proof. intros k r H. discriminate H. Qed.

Lemma wrappedUnderscoreApp_removes_only_its_entry_witness :
  exists w' sid,
    wrappedUnderscoreApp Sample.env Sample.component
      (mkContextData ∅ "/page") Sample.world = (Ok (VObject 7), w')
    /\ stashLookup w' sid = None
    /\ stashGet w' sid = inheritedProperty sid.
Proof.
  destruct (wrappedUnderscoreApp_removes_only_its_entry Sample.env Sample.component
              (mkContextData ∅ "/page") Sample.world (VObject 7)
              eq_refl eq_refl stashKeyed_sample eq_refl eq_refl)
    as (w' & sid & Hrun & _ & Hnone & Hget & _).
  exists w', sid. split; [exact Hrun|]. split; [exact Hnone | exact Hget].
Defined.

(** X21: when the user's data-loading function resolves on the traced
    branch of [wrappedGSP], the child span is opened before the call and
    finished after it, and the transaction itself is left open and
    stashed, for a later phase to finish. *)
Theorem wrappedGSP_closes_span_only
    (env : Env) (gSP : GetStaticPropsFunction)
    (context : GetStaticPropsContextData) (w : World) (fp : PropsResult) :
  tracingEnabled env = true ->
  isBuild env = false ->
  gSP context = Ok fp ->
  exists w1,
    snd (wrappedGSP env gSP context w) = w1
    /\ parentSpan (heap w1 !!! S (length (heap w))) = Some (length (heap w))
    /\ op (heap w1 !!! S (length (heap w))) = Some "getStaticProps"
    /\ is_Some (endTimestamp (heap w1 !!! S (length (heap w))))
    /\ endTimestamp (heap w1 !!! length (heap w)) = None
    /\ name (heap w1 !!! length (heap w)) = "unknown transaction"
    /\ source (heap w1 !!! length (heap w)) = None
    /\ Before (EvStartChild (length (heap w)) (S (length (heap w))) "getStaticProps")
         EvCallOrig (trace w1)
    /\ Before EvCallOrig (EvFinish (S (length (heap w)))) (trace w1).
Proof.
  intros Ht Hb Hfp.
  destruct (wrappedGSP_traced env gSP context w fp Ht Hb Hfp)
    as (w1 & Hrun & Hheap & _ & Htrace).
  exists w1. rewrite Hrun. split; [reflexivity|].
  assert (Hchild : heap w1 !!! S (length (heap w))
                   = withFinish (S (S (clock w))) (gspChild env w)).
  { rewrite Hheap.
    rewrite list_lookup_total_alter_eq by (rewrite length_app; simpl; lia).
    f_equal. change [gspTransaction env w; gspChild env w]
      with ([gspTransaction env w] ++ [gspChild env w]).
    rewrite app_assoc.
    apply list_lookup_total_middle. rewrite length_app. simpl. lia. }
  assert (Htx : heap w1 !!! length (heap w) = gspTransaction env w).
  { rewrite Hheap. rewrite list_lookup_total_alter_ne by lia.
    by rewrite list_lookup_total_middle. }
  rewrite Hchild, Htx, Htrace.
  repeat split; try reflexivity.
  - cbn. eauto.
  - eexists (trace w ++ [_; _]), [], [_]. rewrite <- app_assoc. reflexivity.
  - eexists (trace w ++ [_; _; _]), [], []. rewrite <- app_assoc. reflexivity.
Qed.

Lemma wrappedGSP_closes_span_only_witness :
  exists w1,
    snd (wrappedGSP Sample.env Sample.gSP ∅ Sample.world) = w1
    /\ is_Some (endTimestamp (heap w1 !!! 1))
    /\ endTimestamp (heap w1 !!! 0) = None.
Proof.
  destruct (wrappedGSP_closes_span_only Sample.env Sample.gSP ∅ Sample.world
              Sample.pageResult eq_refl eq_refl eq_refl)
    as (w1 & Hrun & _ & _ & Hchild & Htx & _).
  exists w1. split; [exact Hrun|]. split; [exact Hchild | exact Htx].
Defined.

(** ** The path test of [wrappedGSSP] *)

Lemma length_append (p s : string) :
  String.length (p ++ s)%string = String.length p + String.length s.
Proof. induction p as [|c p IH]; sapp; cbn [String.length Nat.add]; auto. Qed.

Lemma drop_append (p s : string) : Str.drop (String.length p) (p ++ s)%string = s.
Proof. induction p as [|c p IH]; sapp; cbn [String.length Str.drop]; auto. Qed.

Lemma drop_suffix (n : nat) (s : string) : exists p, s = (p ++ Str.drop n s)%string.
Proof.
  revert s. induction n as [|n IH]; intros s.
  - by exists "".
  - destruct s as [|c s]; cbn [Str.drop]; [by exists ""|].
    destruct (IH s) as (p & Hp). exists (String c p). sapp. by f_equal.
Qed.

Lemma endsWith_spec (suf s : string) :
  Str.endsWith suf s = true <-> exists p, s = (p ++ suf)%string.
Proof.
  unfold Str.endsWith. rewrite andb_true_iff. split.
  - intros [_ Heq]. apply String.eqb_eq in Heq.
    destruct (drop_suffix (String.length s - String.length suf) s) as (p & Hp).
    exists p. by rewrite Heq in Hp.
  - intros (p & ->). rewrite length_append. split.
    + apply Nat.leb_le. lia.
    + replace (String.length p + String.length suf - String.length suf)
        with (String.length p) by lia.
      rewrite drop_append. apply String.eqb_refl.
Qed.

(** X22: [wrappedGSSP] never traces a request whose resolved URL is some
    text followed by [.map]: whatever the tracing switches say, it only
    calls the user's function and hands its outcome on; and with tracing
    active it does trace every other URL: unless a transaction is stashed
    under the empty id it starts one, named by the route; under the
    transaction it opens a child span [getServerSideProps], a new object
    of the heap, before it calls the user's function; and the stash holds
    the transaction afterwards. *)
Theorem wrappedGSSP_map_urls
    (env : Env) (gSSP : GetServerSidePropsFunction) (rt : string) (w : World) :
  (forall prefix,
      wrappedGSSP env gSSP rt (mkGSSPContext (prefix ++ ".map")%string) w
      = (gSSP (mkGSSPContext (prefix ++ ".map")%string),
         setTrace (trace w ++
           [EvConsoleLog "I'm in the the `wrappedGSSP` function returned by withSentry";
            EvCallOrig]) w))
  /\ (forall context,
        tracingEnabled env = true ->
        isBuild env = false ->
        (forall prefix, resolvedUrl context <> (prefix ++ ".map")%string) ->
        exists child evs,
          trace (snd (wrappedGSSP env gSSP rt context w))
          = trace w
              ++ [EvConsoleLog
                    "I'm in the the `wrappedGSSP` function returned by withSentry"]
              ++ gsspStartEvents rt w
              ++ [EvStartChild (gsspRef w) child "getServerSideProps"; EvCallOrig]
              ++ evs
          /\ child = length (heap w) + length (gsspStartEvents rt w)
          /\ length (heap (snd (wrappedGSSP env gSSP rt context w))) = S child
          /\ op (heap (snd (wrappedGSSP env gSSP rt context w)) !!! child)
             = Some "getServerSideProps"
          /\ parentSpan (heap (snd (wrappedGSSP env gSSP rt context w)) !!! child)
             = Some (gsspRef w)
          /\ exists k,
               stashLookup (snd (wrappedGSSP env gSSP rt context w)) k
               = Some (gsspRef w)).
Proof.
  split.
  - intros prefix. unfold wrappedGSSP. cbn [resolvedUrl].
    assert (Hmap : Str.endsWith ".map" (prefix ++ ".map")%string = true)
      by (apply endsWith_spec; by exists prefix).
    rewrite Hmap. cbn [negb]. rewrite andb_false_r. run_page.
    destruct (gSSP _); step_page; rewrite <- app_assoc; reflexivity.
  - intros context Ht Hb Hurl.
    assert (Hmap : Str.endsWith ".map" (resolvedUrl context) = false).
    { destruct (Str.endsWith ".map" (resolvedUrl context)) eqn:E; [|reflexivity].
      apply endsWith_spec in E as (p & Hp). by destruct (Hurl p). }
    unfold wrappedGSSP, gsspRef, gsspStartEvents. rewrite Ht, Hb, Hmap.
    cbn [andb negb].
    pose proof (stashGet_empty_id w) as Hget. unfold stashGet in Hget.
    destruct (stashLookup w "") as [r0|] eqn:Hlook;
      cbn [fmap option_fmap option_map] in Hget.
    + destruct (stashLookup_Some _ _ _ Hlook) as (st & Hstash & Hst).
      run_page. rewrite Hget. step_page.
      destruct (gSSP context); step_page; rewrite ?Hstash;
        rewrite <- ?app_assoc; cbn [length Nat.add]; rewrite Nat.add_0_r;
        (eexists _, _; split; [reflexivity|]);
        rewrite ?length_alter, length_app; cbn [length];
        (split; [reflexivity|]); (split; [lia|]).
      all: rewrite ?(alter_keeps_field op), ?(alter_keeps_field parentSpan)
             by (intros o; unfold withFinish; by destruct (endTimestamp o)).
      all: rewrite !list_lookup_total_middle by reflexivity.
      all: (split; [reflexivity|]); (split; [reflexivity|]).
      all: eexists; unfold stashLookup; step_page; apply lookup_insert_eq.
    + run_page. rewrite Hget. step_page.
      destruct (gSSP context); step_page;
        rewrite <- ?app_assoc; cbn [length Nat.add app];
        (eexists _, _; split; [reflexivity|]);
        rewrite ?length_alter, !length_app; cbn [length];
        (split; [lia|]); (split; [lia|]).
      all: rewrite ?(alter_keeps_field op), ?(alter_keeps_field parentSpan)
             by (intros o; unfold withFinish; by destruct (endTimestamp o)).
      all: rewrite !Nat.add_1_r.
      all: rewrite !lookup_total_app_r by lia.
      all: replace (S (length (heap w)) - length (heap w)) with 1 by lia.
      all: (split; [reflexivity|]); (split; [reflexivity|]).
      all: eexists; unfold stashLookup; step_page; apply lookup_insert_eq.
Qed.

Lemma wrappedGSSP_map_urls_witness :
  exists child evs,
    trace (snd (wrappedGSSP Sample.env Sample.gSSP "/page"
                  (mkGSSPContext "/page") Sample.world))
    = [EvConsoleLog "I'm in the the `wrappedGSSP` function returned by withSentry";
       EvStartTransaction 0 "/page" (Some "http.server") None None;
       EvStartChild 0 child "getServerSideProps"; EvCallOrig] ++ evs
    /\ child = 1.
Proof.
  destruct (wrappedGSSP_map_urls Sample.env Sample.gSSP "/page" Sample.world)
    as [_ Htraced].
  destruct (Htraced (mkGSSPContext "/page") eq_refl eq_refl)
    as (child & evs & Htrace & Hchild & _).
  { intros prefix Heq.
    assert (Hends : Str.endsWith ".map" "/page" = true)
      by (apply endsWith_spec; by exists prefix).
    vm_compute in Hends. discriminate Hends. }
  exists child, evs. split; [exact Htrace | exact Hchild].
Defined.

(** ** Sample runs of the stash lemmas *)

Lemma stashTransaction_lookup_witness :
  stashGet (snd (stashTransaction (HitTransaction 0) Sample.worldWithTransaction))
    "constructor"
  = Some (HitInherited "constructor")
  /\ getTransactionById (Some "span0")
       (snd (stashTransaction (HitTransaction 0) Sample.worldWithTransaction))
     = (Ok (Some (HitTransaction 0)),
        snd (stashTransaction (HitTransaction 0) Sample.worldWithTransaction)).
Proof.
  destruct (stashTransaction_lookup 0 Sample.worldWithTransaction)
    as (Hget & _ & Hother & _).
  split; [|exact Hget].
  rewrite Hother; [reflexivity|]. vm_compute. discriminate.
Defined.

Lemma deleteTransaction_lookup_witness :
  stashGet (snd (deleteTransaction "toString" Sample.afterGSP)) "toString"
  = Some (HitInherited "toString")
  /\ stashGet (snd (deleteTransaction "span0" Sample.afterGSP)) "span0" = None
  /\ snd (deleteTransaction "span9" Sample.world) = Sample.world.
Proof.
  split; [|split].
  - by rewrite (proj1 (proj2 (proj2 (deleteTransaction_lookup "toString"
                                       Sample.afterGSP)))).
  - by rewrite (proj1 (proj2 (proj2 (deleteTransaction_lookup "span0"
                                       Sample.afterGSP)))).
  - apply (deleteTransaction_lookup "span9" Sample.world). reflexivity.
Defined.
